(** * Steam download monitor: a shallow embedding and its verified properties

    The development embeds the two monitors of the repository,
    [steam_download_monitor.py] (log based, "Strategy A") and
    [steam_download_monitor_v2.py] (file-system based, "Strategy B").

    Conventions of the embedding.
    - Text is a list of characters ([str]).  The character functions
      ([is_digit], [is_space], [lower_char]) follow Python on the ASCII
      range; the log and manifest texts are taken to be ASCII, one byte per
      character, so that a byte offset and a character offset coincide.
    - Python floats are idealised as rationals ([Q]), on which the
      arithmetic of the code is carried out exactly.  Where a property
      depends on the rounding of a float, its statement says so: the speed
      that the parser reads is stated up to rounding ([Spec.float_of]), and
      the loops of [monitor] are stated for clock readings, durations and
      intervals with which binary64 arithmetic is exact ([Spec.exact_run]).
    - The operating system is an explicit parameter: a [filesystem] record
      of the observations the code makes ([os.path.exists], [open], ...),
      and a registry lookup, whose values are strings.  One poll sees one
      snapshot of the file system.  Paths are joined after directory names
      that do not end in a separator or a colon ([Spec.plain]).
    - The standard output is a parameter of the entry points
      ([Entry.console]): a [print] raises when the output cannot encode
      the text.
    - Exceptions are explicit: a computation yields an [outcome]. *)

From Stdlib Require Import Ascii QArith Qabs Sorted Lqa.
From stdpp Require Import gmap strings list.

Open Scope Z_scope.

(** ** Text *)

Abbreviation str := (list ascii).

(** A string literal as text. *)
Definition txt (s : string) : str := String.list_ascii_of_string s.

(** The double quote character. *)
Definition dquote : ascii := ascii_of_N 34.

Module Text.

Definition code (c : ascii) : N := N_of_ascii c.

(** [\d] on ASCII text. *)
Definition is_digit (c : ascii) : bool :=
  (48 <=? code c)%N && (code c <=? 57)%N.

(** [\s] on ASCII text: TAB, LF, VT, FF, CR, FS, GS, RS, US and space. *)
Definition is_space (c : ascii) : bool :=
  ((9 <=? code c)%N && (code c <=? 13)%N)
  || ((28 <=? code c)%N && (code c <=? 32)%N).

(** [.] without DOTALL: anything but a line feed. *)
Definition is_dot (c : ascii) : bool := negb (code c =? 10)%N.

Definition is_char (a c : ascii) : bool := (code a =? code c)%N.

Definition is_not_char (a c : ascii) : bool := negb (is_char a c).

(** [str.lower] on one ASCII character. *)
Definition lower_char (c : ascii) : ascii :=
  if (65 <=? code c)%N && (code c <=? 90)%N
  then ascii_of_N (code c + 32) else c.

Definition lower (s : str) : str := map lower_char s.

(** [s.startswith(p)], returning the rest of [s] after [p]. *)
Fixpoint strip_prefix (p s : str) : option str :=
  match p with
  | [] => Some s
  | a :: p' =>
      match s with
      | [] => None
      | c :: s' => if is_char a c then strip_prefix p' s' else None
      end
  end.

Definition startswith (s p : str) : bool :=
  match strip_prefix p s with Some _ => true | None => false end.

Definition endswith (s p : str) : bool := startswith (rev s) (rev p).

(** [needle in s] for two strings. *)
Fixpoint contains (needle s : str) : bool :=
  startswith s needle
  || match s with
     | [] => false
     | _ :: s' => contains needle s'
     end.

(** [s.replace(old, new)] for a non-empty [old]: the occurrences are
    replaced from left to right, without overlap. *)
Fixpoint replace_go (fuel : nat) (old new s : str) : str :=
  match fuel with
  | O => s
  | S fuel' =>
      match strip_prefix old s with
      | Some rest => new ++ replace_go fuel' old new rest
      | None =>
          match s with
          | [] => []
          | c :: s' => c :: replace_go fuel' old new s'
          end
      end
  end.

Definition replace (s old new : str) : str :=
  replace_go (S (length s)) old new s.

(** [os.path.join(a, b)] for a relative component [b], with the Windows
    separator, after a directory [a] that is not empty and does not end in
    a separator or a colon: after such a one [ntpath.join] puts one
    backslash. *)
Definition path_join (a b : str) : str := a ++ txt "\" ++ b.

End Text.

(** ** Regular expressions

    The fragment of Python's [re] that the monitors use: literals, one
    character of a class, greedy and lazy repetition of a class, and
    capturing groups.  The matcher backtracks in the order of Python's
    engine, so the first match found is the one [re.search] reports. *)

Module Re.
Import Text.

Inductive regex : Type :=
| Lit (l : str)
| Star (greedy : bool) (p : ascii -> bool)
| Plus (p : ascii -> bool)
| Opt (p : ascii -> bool)
| Cat (r1 r2 : regex)
| Group (r : regex).

Section Matcher.
Context {R : Type}.

(** [p*]: the longest run first, then shorter ones. *)
Fixpoint star_greedy (p : ascii -> bool) (s : str)
    (k : str -> option R) : option R :=
  match s with
  | c :: s' =>
      if p c
      then match star_greedy p s' k with
           | Some r => Some r
           | None => k s
           end
      else k s
  | [] => k []
  end.

(** [p*?]: the shortest run first, then longer ones. *)
Fixpoint star_lazy (p : ascii -> bool) (s : str)
    (k : str -> option R) : option R :=
  match k s with
  | Some r => Some r
  | None =>
      match s with
      | c :: s' => if p c then star_lazy p s' k else None
      | [] => None
      end
  end.

(** Match [r] at the head of [s], then hand the rest of the text and
    the groups captured so far to [k]; [None] is a failure, on which
    the caller backtracks. *)
Fixpoint rmatch (r : regex) (s : str) (g : list str)
    (k : str -> list str -> option R) : option R :=
  match r with
  | Lit l =>
      match strip_prefix l s with
      | Some s' => k s' g
      | None => None
      end
  | Star true p => star_greedy p s (fun s' => k s' g)
  | Star false p => star_lazy p s (fun s' => k s' g)
  | Plus p =>
      match s with
      | c :: s' =>
          if p c then star_greedy p s' (fun s'' => k s'' g) else None
      | [] => None
      end
  | Opt p =>
      match s with
      | c :: s' =>
          if p c
          then match k s' g with
               | Some r => Some r
               | None => k s g
               end
          else k s g
      | [] => k s g
      end
  | Cat r1 r2 => rmatch r1 s g (fun s' g' => rmatch r2 s' g' k)
  | Group r1 =>
      rmatch r1 s g
        (fun s' g' => k s' (g' ++ [take (length s - length s') s]))
  end.
End Matcher.

(** A match at the head of [s]: the groups and the text after the match. *)
Definition match_here (r : regex) (s : str) : option (list str * str) :=
  rmatch r s [] (fun rest g => Some (g, rest)).

(** [re.search(r, s)]: the leftmost position with a match; the result is
    the list of groups (group 1 first) and the text after the match. *)
Fixpoint search_span (r : regex) (s : str) : option (list str * str) :=
  match match_here r s with
  | Some m => Some m
  | None =>
      match s with
      | [] => None
      | _ :: s' => search_span r s'
      end
  end.

Definition search (r : regex) (s : str) : option (list str) :=
  fst <$> search_span r s.

(** [match.group(n)], [n >= 1]. *)
Definition group (n : nat) (g : list str) : str := nth (n - 1) g [].

(** [re.findall(r, s)] for a pattern with one group: group 1 of every
    match, scanning on after each match. *)
Fixpoint findall_go (fuel : nat) (r : regex) (s : str) : list str :=
  match fuel with
  | O => []
  | S fuel' =>
      match search_span r s with
      | None => []
      | Some (g, rest) =>
          group 1 g ::
            (if (length rest <? length s)%nat
             then findall_go fuel' r rest
             else match rest with
                  | [] => []
                  | _ :: rest' => findall_go fuel' r rest'
                  end)
      end
  end.

Definition findall (r : regex) (s : str) : list str :=
  findall_go (S (length s)) r s.

End Re.

(** ** The patterns of the source *)

Module Patterns.
Import Text Re.

(** The speed pattern of [_parse_log_line]: the literal [AppID] and a
    space, group 1 = one or more digits, a lazy run of any characters,
    group 2 = digits, an optional dot, digits; then optional white space
    and the literal [MB/s]. *)
Definition speed_pattern : regex :=
  Cat (Lit (txt "AppID "))
 (Cat (Group (Plus is_digit))
 (Cat (Star false is_dot)
 (Cat (Group (Cat (Plus is_digit)
                  (Cat (Opt (is_char "."%char)) (Star true is_digit))))
 (Cat (Star true is_space)
      (Lit (txt "MB/s")))))).

(** The identifier pattern: [AppID], a space, group 1 = one or more
    digits. *)
Definition app_pattern : regex :=
  Cat (Lit (txt "AppID ")) (Group (Plus is_digit)).

(** A quoted key, white space, and a quoted non-empty value (group 1),
    for the keys [name] and [path]. *)
Definition quoted_value_pattern (key : string) : regex :=
  Cat (Lit (dquote :: txt key ++ [dquote]))
 (Cat (Plus is_space)
 (Cat (Lit [dquote])
 (Cat (Group (Plus (is_not_char dquote)))
      (Lit [dquote])))).

Definition name_pattern : regex := quoted_value_pattern "name".
Definition path_pattern : regex := quoted_value_pattern "path".

(** The quoted key [StateFlags], white space, and a quoted run of digits
    (group 1). *)
Definition state_flags_pattern : regex :=
  Cat (Lit (dquote :: txt "StateFlags" ++ [dquote]))
 (Cat (Plus is_space)
 (Cat (Lit [dquote])
 (Cat (Group (Plus is_digit))
      (Lit [dquote])))).

End Patterns.

(** ** Exceptions, numbers and the operating system *)

Inductive exn : Set :=
  TypeError | KeyError | ValueError | OSError | UnicodeEncodeError.

(** The result of a Python call: a value, or an exception on its way up. *)
Inductive outcome (A : Type) : Type :=
| Returns (a : A)
| Raises (e : exn).
Arguments Returns {A} a.
Arguments Raises {A} e.

Definition obind {A B} (m : outcome A) (f : A -> outcome B) : outcome B :=
  match m with
  | Returns a => f a
  | Raises e => Raises e
  end.

Notation "x <-! m ;; k" := (obind m (fun x => k))
  (at level 100, m at next level, right associativity).

(** Strict comparison of two rationals, as a boolean. *)
Definition Qltb (x y : Q) : bool :=
  match (x ?= y)%Q with Lt => true | _ => false end.

Module Num.
Import Text.

Definition digit_value (c : ascii) : Z := Z.of_N (code c) - 48.

(** The value of a run of decimal digits. *)
Definition digits_value (s : str) : Z :=
  fold_left (fun acc c => 10 * acc + digit_value c) s 0.

(** The text before and after the first dot. *)
Fixpoint split_dot (s : str) : str * option str :=
  match s with
  | [] => ([], None)
  | c :: s' =>
      if is_char "."%char c then ([], Some s')
      else let '(i, f) := split_dot s' in (c :: i, f)
  end.

(** The numerals that group 2 of the speed pattern can hold: digits, then
    possibly a dot and more digits. *)
Definition is_numeral (s : str) : bool :=
  let '(i, f) := split_dot s in
  negb (bool_decide (i = [])) && forallb is_digit i
  && forallb is_digit (default [] f).

(** [float(s)] on such a numeral: the decimal value, in lowest terms.
    Python rounds it to the nearest binary64; other texts are reported
    as [ValueError]. *)
Definition py_float (s : str) : outcome Q :=
  if is_numeral s
  then let '(i, f) := split_dot s in
       let frac := default [] f in
       Returns (Qred (inject_Z (digits_value (i ++ frac))
                      / inject_Z (10 ^ Z.of_nat (length frac))))
  else Raises ValueError.

(** Python's [max(0, x)]. *)
Definition max0 (x : Q) : Q := if Qltb 0 x then x else 0%Q.

End Num.

(** One file met by [os.walk]: whether [os.path.exists] holds for it, its
    size in bytes and its modification time. *)
Record file_stat : Type := {
  st_exists : bool;
  st_size : Z;
  st_mtime : Q
}.

(** The file system, as the monitors observe it.
    - [path_exists]: [os.path.exists].
    - [read_file]: [open(p, 'r', ...)] followed by a read of the whole file,
      or the exception raised on the way.
    - [listdir]: [os.listdir], or the exception it raises.
    - [walk]: the files that [os.walk] yields below a directory, in order
      ([os.walk] skips what it cannot list, so it cannot raise). *)
Record filesystem : Type := {
  path_exists : str -> bool;
  read_file : str -> outcome str;
  listdir : str -> outcome (list str);
  walk : str -> list file_stat
}.

Inductive hive : Set := HKEY_CURRENT_USER | HKEY_LOCAL_MACHINE.

(** The registry: the [SteamPath] value under a key, or [None] when
    [OpenKey] or [QueryValueEx] raises. *)
Definition registry : Type := hive -> str -> option str.

(** Python's truth value of an optional string. *)
Definition truthy (o : option str) : bool :=
  match o with
  | Some (_ :: _) => true
  | _ => false
  end.

Inductive status : Set := Downloading | Paused.

(** What the monitors print, by kind of message. *)
Inductive message : Type :=
| MsgSteamFound (path : str)
| MsgSteamNotInRegistry
| MsgSteamNotFound
| MsgLogMissing (path : str)
| MsgLogReadError
| MsgBanner
| MsgCheck (n : nat) (at_time : Q)
| MsgReport (game_name : str) (speed : Q) (st : status)
| MsgLastDownload (game_name : str)
| MsgNoActiveDownloads
| MsgRule
| MsgDone.

(** What a run does, as far as the outside can see it. *)
Inductive event : Type :=
| EvPrint (m : message)
| EvProbe (path : str)
| EvPoll
| EvSleep (seconds : Q).

(** ** Code shared by the two monitors *)

Module Common.
Import Text Re Patterns.

Definition registry_paths : list (hive * str) :=
  [ (HKEY_CURRENT_USER, txt "Software\Valve\Steam");
    (HKEY_LOCAL_MACHINE, txt "SOFTWARE\WOW6432Node\Valve\Steam");
    (HKEY_LOCAL_MACHINE, txt "SOFTWARE\Valve\Steam") ].

(** The loop of [_find_steam_path]: the first probe whose value is a
    non-empty string naming an existing path. *)
Fixpoint probe_registry (reg : registry) (fs : filesystem)
    (probes : list (hive * str)) : option str :=
  match probes with
  | [] => None
  | (hkey, subkey) :: rest =>
      match reg hkey subkey with
      | Some steam_path =>
          if truthy (Some steam_path) && path_exists fs steam_path
          then Some steam_path
          else probe_registry reg fs rest
      | None => probe_registry reg fs rest
      end
  end.

(** The library folders: [steamapps] under the install root, then the
    existing [steamapps] folders of the paths in [libraryfolders.vdf]. *)
Definition library_folders (fs : filesystem) (steam_path : str)
    : list str :=
  let library_vdf :=
    path_join (path_join steam_path (txt "steamapps"))
              (txt "libraryfolders.vdf") in
  path_join steam_path (txt "steamapps") ::
    (if path_exists fs library_vdf
     then match read_file fs library_vdf with
          | Returns content =>
              List.filter (fun lib_path => path_exists fs lib_path)
                (map (fun path =>
                        path_join (replace path (txt "\\") (txt "\"))
                                  (txt "steamapps"))
                     (findall path_pattern content))
          | Raises _ => []
          end
     else []).

Definition fallback_name (app_id : str) : str := txt "AppID " ++ app_id.

Definition manifest_name (app_id : str) : str :=
  txt "appmanifest_" ++ app_id ++ txt ".acf".

(** The search loop of [_get_app_name]. *)
Fixpoint find_name (fs : filesystem) (app_id : str) (folders : list str)
    : option str :=
  match folders with
  | [] => None
  | folder :: rest =>
      let manifest_file := path_join folder (manifest_name app_id) in
      if path_exists fs manifest_file
      then match read_file fs manifest_file with
           | Returns content =>
               match search name_pattern content with
               | Some g => Some (group 1 g)
               | None => find_name fs app_id rest
               end
           | Raises _ => find_name fs app_id rest
           end
      else find_name fs app_id rest
  end.

Definition _get_app_name (fs : filesystem) (steam_path : option str)
    (app_id : str) : str :=
  match steam_path with
  | Some root =>
      if truthy steam_path
      then default (fallback_name app_id)
             (find_name fs app_id (library_folders fs root))
      else fallback_name app_id
  | None => fallback_name app_id
  end.

End Common.

(** ** Strategy A: [steam_download_monitor.py] *)

Module V1.
Import Text Re Patterns Num Common.

Record SteamDownloadMonitor : Type := {
  steam_path : option str;
  log_path : option str;
  last_position : nat
}.

Record DownloadStatus : Type := {
  app_id : str;
  game_name : str;
  speed_mbps : Q;
  dl_status : status;
  timestamp : Q
}.

(** The result of a call that can print: the value, the monitor after the
    call, and what was printed. *)
Definition _find_steam_path (reg : registry) (fs : filesystem)
    : option str * list event :=
  match probe_registry reg fs registry_paths with
  | Some p => (Some p, [EvPrint (MsgSteamFound p)])
  | None => (None, [EvPrint MsgSteamNotInRegistry])
  end.

Definition __init__ (reg : registry) (fs : filesystem)
    : SteamDownloadMonitor * list event :=
  let '(found, printed) := _find_steam_path reg fs in
  ({| steam_path := found;
      log_path :=
        if truthy found
        then (fun root =>
                path_join (path_join root (txt "logs"))
                          (txt "content_log.txt")) <$> found
        else None;
      last_position := 0 |}, printed).

(** ['paused' in line.lower() or 'suspended' in line.lower()] *)
Definition has_pause_keyword (line : str) : bool :=
  contains (txt "paused") (lower line)
  || contains (txt "suspended") (lower line).

Definition _parse_log_line (line : str)
    : outcome (option (str * Q * status)) :=
  match search speed_pattern line with
  | Some g =>
      speed <-! py_float (group 2 g) ;;
      Returns (Some (group 1 g, speed,
                     if has_pause_keyword line then Paused
                     else Downloading))
  | None =>
      if has_pause_keyword line
      then match search app_pattern line with
           | Some g => Returns (Some (group 1 g, 0%Q, Paused))
           | None => Returns None
           end
      else Returns None
  end.

Definition LF : ascii := ascii_of_N 10.
Definition CR : ascii := ascii_of_N 13.

(** [f.readlines()] in text mode: the text is cut after every line end,
    and the line ends CR LF and CR are handed out as LF. *)
Fixpoint readlines_go (cur : str) (s : str) : list str :=
  match s with
  | [] => match cur with [] => [] | _ => [rev cur] end
  | c :: s' =>
      if is_char LF c then rev (LF :: cur) :: readlines_go [] s'
      else if is_char CR c
      then match s' with
           | d :: s'' =>
               if is_char LF d
               then rev (LF :: cur) :: readlines_go [] s''
               else rev (LF :: cur) :: readlines_go [] s'
           | [] => [rev (LF :: cur)]
           end
      else readlines_go (c :: cur) s'
  end.

Definition readlines (s : str) : list str := readlines_go [] s.

(** The file is opened, the stream is moved to [last_position], the rest
    of the file is read, and the position reached is stored: the start
    plus the number of bytes read. *)
Definition _read_new_log_entries (fs : filesystem)
    (self : SteamDownloadMonitor)
    : list str * SteamDownloadMonitor * list event :=
  match log_path self with
  | Some path =>
      if negb (truthy (log_path self)) || negb (path_exists fs path)
      then ([], self, [])
      else match read_file fs path with
           | Returns content =>
               let unread := drop (last_position self) content in
               (readlines unread,
                {| steam_path := steam_path self;
                   log_path := log_path self;
                   last_position :=
                     last_position self + length unread |},
                [])
           | Raises _ => ([], self, [EvPrint MsgLogReadError])
           end
  | None => ([], self, [])
  end.

(** The loop of [get_current_download_status] over the reversed batch:
    the first line that parses. *)
Fixpoint latest_parsed (lines : list str)
    : outcome (option (str * Q * status)) :=
  match lines with
  | [] => Returns None
  | line :: rest =>
      parsed <-! _parse_log_line line ;;
      match parsed with
      | Some p => Returns (Some p)
      | None => latest_parsed rest
      end
  end.

Definition get_current_download_status (fs : filesystem) (now : Q)
    (self : SteamDownloadMonitor)
    : outcome (option DownloadStatus) * SteamDownloadMonitor * list event :=
  let '(entries, self', printed) := _read_new_log_entries fs self in
  (found <-! latest_parsed (rev entries) ;;
   Returns
     ((fun '(id, speed, st) =>
         {| app_id := id;
            game_name := _get_app_name fs (steam_path self') id;
            speed_mbps := speed;
            dl_status := st;
            timestamp := now |}) <$> found),
   self', printed).

(** The outcome of a run of [monitor]: how it ended, the monitor at the
    end, and the trace. *)
Definition run : Type := outcome unit * SteamDownloadMonitor * list event.

Definition after (evs : list event) (r : option run) : option run :=
  (fun '(res, self, tr) => (res, self, evs ++ tr)) <$> r.

Definition closing : list event := [EvPrint MsgRule; EvPrint MsgDone].

Definition report (found : option DownloadStatus)
    (last_status : option DownloadStatus) : list event :=
  match found with
  | Some st =>
      [EvPrint (MsgReport (game_name st)
                  (match dl_status st with
                   | Downloading => speed_mbps st
                   | Paused => 0%Q
                   end) (dl_status st))]
  | None =>
      match last_status with
      | Some l => [EvPrint (MsgLastDownload (game_name l));
                   EvPrint MsgNoActiveDownloads]
      | None => [EvPrint MsgNoActiveDownloads]
      end
  end.

(** The [while] loop of [monitor].  The clock stands still during a check
    and moves on by the time slept; [fs_at t] is the file system at time
    [t].  [None]: the fuel ran out before the loop ended. *)
Fixpoint monitor_loop (fuel : nat) (fs_at : Q -> filesystem)
    (interval_seconds end_time now : Q) (self : SteamDownloadMonitor)
    (check_count : nat) (last_status : option DownloadStatus)
    : option run :=
  match fuel with
  | O => None
  | S fuel' =>
      if Qltb now end_time
      then
        let check_count := S check_count in
        let '(res, self, printed) :=
          get_current_download_status (fs_at now) now self in
        let head :=
          [EvPrint (MsgCheck check_count now); EvPrint MsgRule; EvPoll]
          ++ printed in
        match res with
        | Raises e => Some (Raises e, self, head)
        | Returns found =>
            let last_status :=
              match found with Some st => Some st | None => last_status end in
            let body := head ++ report found last_status
                             ++ [EvPrint MsgRule] in
            let remaining_time := (end_time - now)%Q in
            if Qltb interval_seconds remaining_time
            then
              if Qltb interval_seconds 0
              then Some (Raises ValueError, self, body)
              else after (body ++ [EvSleep interval_seconds])
                     (monitor_loop fuel' fs_at interval_seconds end_time
                        (now + interval_seconds)%Q self check_count
                        last_status)
            else if Qltb 0 remaining_time
            then after (body ++ [EvSleep remaining_time])
                   (monitor_loop fuel' fs_at interval_seconds end_time
                      (now + remaining_time)%Q self check_count
                      last_status)
            else Some (Returns tt, self, body ++ closing)
        end
      else Some (Returns tt, self, closing)
  end.

Definition monitor (fuel : nat) (fs_at : Q -> filesystem) (start : Q)
    (self : SteamDownloadMonitor) (duration_minutes interval_seconds : Q)
    : option run :=
  if negb (truthy (steam_path self))
  then Some (Returns tt, self, [EvPrint MsgSteamNotFound])
  else
    match log_path self with
    | None => Some (Raises TypeError, self, [])
    | Some path =>
        let warned :=
          EvProbe path ::
            (if path_exists (fs_at start) path then []
             else [EvPrint (MsgLogMissing path)]) in
        after (warned ++ [EvPrint MsgBanner])
          (monitor_loop fuel fs_at interval_seconds
             (start + duration_minutes * 60)%Q start self 0 None)
    end.

End V1.

(** ** Strategy B: [steam_download_monitor_v2.py] *)

Module V2.
Import Text Re Patterns Num Common.

(** The values that [download_stats] can hold or be indexed with, and the
    two kinds of container the code could have kept them in.  Python
    decides at run time what [in], [c[k]] and [c[k] = v] do. *)
Inductive py_value : Type :=
| PyStr (s : str)
| PyTuple (size : Z) (time : Q).

Inductive py_container : Type :=
| PyList (items : list py_value)
| PyDict (entries : gmap str (Z * Q)).

Record SteamDownloadMonitorV2 : Type := {
  steam_path : option str;
  download_stats : py_container
}.

Record DownloadInfo : Type := {
  app_id : str;
  game_name : str;
  speed_mbps : Q;
  dl_status : status
}.

Definition _find_steam_path (reg : registry) (fs : filesystem)
    : option str :=
  probe_registry reg fs registry_paths.

(** [self.download_stats = []] *)
Definition __init__ (reg : registry) (fs : filesystem)
    : SteamDownloadMonitorV2 :=
  {| steam_path := _find_steam_path reg fs;
     download_stats := PyList [] |}.

(** [key in c] for a string [key]: an element equal to it in a list, a
    key in a dictionary. *)
Definition py_contains (c : py_container) (key : str) : bool :=
  match c with
  | PyList items =>
      existsb (fun v => match v with
                        | PyStr s => bool_decide (s = key)
                        | PyTuple _ _ => false
                        end) items
  | PyDict entries => bool_decide (is_Some (entries !! key))
  end.

(** [c[key]] for a string [key]: a list takes integer indices only. *)
Definition py_getitem (c : py_container) (key : str) : outcome (Z * Q) :=
  match c with
  | PyList _ => Raises TypeError
  | PyDict entries =>
      match entries !! key with
      | Some v => Returns v
      | None => Raises KeyError
      end
  end.

(** [c[key] = v] for a string [key]. *)
Definition py_setitem (c : py_container) (key : str) (v : Z * Q)
    : outcome py_container :=
  match c with
  | PyList _ => Raises TypeError
  | PyDict entries => Returns (PyDict (<[key := v]> entries))
  end.

Definition active_state_flags : list str := [txt "2"; txt "4"; txt "6"].

(** The body of the loop over [os.listdir(folder)]. *)
Definition scan_file (fs : filesystem) (folder : str)
    (downloading_apps : list str) (file : str) : list str :=
  if startswith file (txt "appmanifest_") && endswith file (txt ".acf")
  then
    let app_id :=
      replace (replace file (txt "appmanifest_") []) (txt ".acf") [] in
    let manifest_path := path_join folder file in
    let downloading_folder :=
      path_join (path_join folder (txt "downloading")) app_id in
    let downloading_apps :=
      if path_exists fs downloading_folder
      then downloading_apps ++ [app_id]
      else downloading_apps in
    match read_file fs manifest_path with
    | Returns content =>
        if contains (txt "StateFlags") content
        then match search state_flags_pattern content with
             | Some g =>
                 if bool_decide (group 1 g ∈ active_state_flags)
                 then if bool_decide (app_id ∈ downloading_apps)
                      then downloading_apps
                      else downloading_apps ++ [app_id]
                 else downloading_apps
             | None => downloading_apps
             end
        else downloading_apps
    | Raises _ => downloading_apps
    end
  else downloading_apps.

(** The loop over the library folders; [os.listdir] is outside any [try]. *)
Fixpoint scan_folders (fs : filesystem) (folders : list str)
    (downloading_apps : list str) : outcome (list str) :=
  match folders with
  | [] => Returns downloading_apps
  | folder :: rest =>
      if negb (path_exists fs folder)
      then scan_folders fs rest downloading_apps
      else
        files <-! listdir fs folder ;;
        scan_folders fs rest
          (fold_left (scan_file fs folder) files downloading_apps)
  end.

Definition _get_downloading_apps (fs : filesystem)
    (self : SteamDownloadMonitorV2) : outcome (list str) :=
  match steam_path self with
  | Some root =>
      if truthy (steam_path self)
      then scan_folders fs (library_folders fs root) []
      else Returns []
  | None => Returns []
  end.

Definition staging_folder (folder app_id : str) : str :=
  path_join (path_join folder (txt "downloading")) app_id.

(** The sum of [os.path.getsize] over the files of the walk that exist. *)
Definition total_size_of (files : list file_stat) : Z :=
  fold_left (fun total f => if st_exists f then total + st_size f else total)
            files 0.

Definition with_stats (self : SteamDownloadMonitorV2) (c : py_container)
    : SteamDownloadMonitorV2 :=
  {| steam_path := steam_path self; download_stats := c |}.

(** The [try] block of [_estimate_download_speed]: the speed and the new
    container, or the exception that the [except] clause then swallows. *)
Definition estimate_body (stats : py_container) (app_id : str)
    (total_size : Z) (current_time : Q) : outcome (Q * py_container) :=
  let first_sample :=
    stats' <-! py_setitem stats app_id (total_size, current_time) ;;
    Returns (0%Q, stats') in
  if py_contains stats app_id
  then
    sample <-! py_getitem stats app_id ;;
    let '(last_size, last_time) := sample in
    let time_diff := (current_time - last_time)%Q in
    if Qltb 0 time_diff
    then
      let size_diff := total_size - last_size in
      let speed_bytes_per_sec := (inject_Z size_diff / time_diff)%Q in
      let speed_mb_per_sec :=
        (speed_bytes_per_sec / inject_Z (1024 * 1024))%Q in
      stats' <-! py_setitem stats app_id (total_size, current_time) ;;
      Returns (max0 speed_mb_per_sec, stats')
    else first_sample
  else first_sample.

Definition _estimate_download_speed (fs : filesystem) (now : Q)
    (self : SteamDownloadMonitorV2) (app_id folder : str)
    : Q * SteamDownloadMonitorV2 :=
  let downloading_folder := staging_folder folder app_id in
  if negb (path_exists fs downloading_folder)
  then (0%Q, self)
  else
    let total_size := total_size_of (walk fs downloading_folder) in
    match estimate_body (download_stats self) app_id total_size now with
    | Returns (speed, stats') => (speed, with_stats self stats')
    | Raises _ => (0%Q, self)
    end.

(** Python's [max(a, b)]. *)
Definition py_max (a b : Q) : Q := if Qltb a b then b else a.

(** [latest_mtime] after the walk: the largest modification time of the
    files that exist, starting from 0. *)
Definition latest_mtime_of (files : list file_stat) : Q :=
  fold_left (fun latest f =>
               if st_exists f then py_max latest (st_mtime f) else latest)
            files 0%Q.

(** [is_active] in [get_download_info]. *)
Definition is_active (fs : filesystem) (now : Q)
    (downloading_folder : str) : bool :=
  if path_exists fs downloading_folder
  then Qltb (now - latest_mtime_of (walk fs downloading_folder)) 120
  else false.

Definition status_of (active : bool) : status :=
  if active then Downloading else Paused.

(** The body of the loop of [get_download_info] for one identifier. *)
Definition download_entry (fs : filesystem) (now : Q) (root : str)
    (self : SteamDownloadMonitorV2) (id : str)
    : DownloadInfo * SteamDownloadMonitorV2 :=
  let name := _get_app_name fs (steam_path self) id in
  let steamapps_folder := path_join root (txt "steamapps") in
  let '(speed, self') :=
    _estimate_download_speed fs now self id steamapps_folder in
  let active := is_active fs now (staging_folder steamapps_folder id) in
  ({| app_id := id;
      game_name := name;
      speed_mbps := if active then speed else 0%Q;
      dl_status := status_of active |}, self').

Fixpoint download_entries (fs : filesystem) (now : Q) (root : str)
    (self : SteamDownloadMonitorV2) (ids : list str)
    : list DownloadInfo * SteamDownloadMonitorV2 :=
  match ids with
  | [] => ([], self)
  | id :: rest =>
      let '(d, self') := download_entry fs now root self id in
      let '(ds, self'') := download_entries fs now root self' rest in
      (d :: ds, self'')
  end.

Definition get_download_info (fs : filesystem) (now : Q)
    (self : SteamDownloadMonitorV2)
    : outcome (list DownloadInfo) * SteamDownloadMonitorV2 :=
  match steam_path self with
  | Some root =>
      if truthy (steam_path self)
      then match _get_downloading_apps fs self with
           | Returns ids =>
               let '(ds, self') := download_entries fs now root self ids in
               (Returns ds, self')
           | Raises e => (Raises e, self)
           end
      else (Returns [], self)
  | None => (Returns [], self)
  end.

Definition run : Type := outcome unit * SteamDownloadMonitorV2 * list event.

Definition after (evs : list event) (r : option run) : option run :=
  (fun '(res, self, tr) => (res, self, evs ++ tr)) <$> r.

Definition closing : list event := [EvPrint MsgRule; EvPrint MsgDone].

Definition report (downloads : list DownloadInfo) : list event :=
  match downloads with
  | [] => [EvPrint MsgNoActiveDownloads]
  | _ =>
      map (fun dl =>
             EvPrint (MsgReport (game_name dl)
                        (match dl_status dl with
                         | Downloading => speed_mbps dl
                         | Paused => 0%Q
                         end) (dl_status dl)))
          downloads
  end.

(** The [while] loop of [monitor], with the clock and the fuel of
    Strategy A's loop. *)
Fixpoint monitor_loop (fuel : nat) (fs_at : Q -> filesystem)
    (interval_seconds end_time now : Q) (self : SteamDownloadMonitorV2)
    (check_count : nat) : option run :=
  match fuel with
  | O => None
  | S fuel' =>
      if Qltb now end_time
      then
        let check_count := S check_count in
        let '(res, self) := get_download_info (fs_at now) now self in
        let head :=
          [EvPrint (MsgCheck check_count now); EvPrint MsgRule; EvPoll] in
        match res with
        | Raises e => Some (Raises e, self, head)
        | Returns downloads =>
            let body := head ++ report downloads ++ [EvPrint MsgRule] in
            let remaining_time := (end_time - now)%Q in
            if Qltb interval_seconds remaining_time
            then
              if Qltb interval_seconds 0
              then Some (Raises ValueError, self, body)
              else after (body ++ [EvSleep interval_seconds])
                     (monitor_loop fuel' fs_at interval_seconds end_time
                        (now + interval_seconds)%Q self check_count)
            else if Qltb 0 remaining_time
            then after (body ++ [EvSleep remaining_time])
                   (monitor_loop fuel' fs_at interval_seconds end_time
                      (now + remaining_time)%Q self check_count)
            else Some (Returns tt, self, body ++ closing)
        end
      else Some (Returns tt, self, closing)
  end.

Definition monitor (fuel : nat) (fs_at : Q -> filesystem) (start : Q)
    (self : SteamDownloadMonitorV2) (duration_minutes interval_seconds : Q)
    : option run :=
  if negb (truthy (steam_path self))
  then Some (Returns tt, self, [EvPrint MsgSteamNotFound])
  else
    after [EvPrint MsgBanner]
      (monitor_loop fuel fs_at interval_seconds
         (start + duration_minutes * 60)%Q start self 0).

End V2.

(** ** The words of the specification

    The relations and predicates in which the properties below are stated.
    They describe texts and states; none of them is used by the code. *)

Module Shapes.
Import Text Re.

(** The text matched by a pattern and the groups captured in it, without
    regard to the order in which the matcher tries the alternatives. *)
Inductive matches : regex -> str -> list str -> Prop :=
| M_Lit l : matches (Lit l) l []
| M_Star b p s : forallb p s = true -> matches (Star b p) s []
| M_Plus p c s :
    p c = true -> forallb p s = true -> matches (Plus p) (c :: s) []
| M_Opt_one p c : p c = true -> matches (Opt p) [c] []
| M_Opt_none p : matches (Opt p) [] []
| M_Cat r1 r2 s1 s2 g1 g2 :
    matches r1 s1 g1 -> matches r2 s2 g2 ->
    matches (Cat r1 r2) (s1 ++ s2) (g1 ++ g2)
| M_Group r s g : matches r s g -> matches (Group r) s (g ++ [s]).

Fixpoint group_free (r : regex) : bool :=
  match r with
  | Cat r1 r2 => group_free r1 && group_free r2
  | Group _ => false
  | _ => true
  end.

(** The text [s] does not go on with a character of the class [p]. *)
Definition stops (p : ascii -> bool) (s : str) : bool :=
  match s with
  | [] => true
  | c :: _ => negb (p c)
  end.

(** [preferred r s1 s2 g]: before the text [s2], the first alternative the
    matcher tries for [r] takes exactly [s1] and captures [g].  (A lazy
    repetition prefers the empty run.) *)
Inductive preferred : regex -> str -> str -> list str -> Prop :=
| P_Lit l s2 : preferred (Lit l) l s2 []
| P_Star p s1 s2 :
    forallb p s1 = true -> stops p s2 = true ->
    preferred (Star true p) s1 s2 []
| P_Lazy p s2 : preferred (Star false p) [] s2 []
| P_Plus p s1 s2 :
    s1 <> [] -> forallb p s1 = true -> stops p s2 = true ->
    preferred (Plus p) s1 s2 []
| P_Opt_one p c s2 : p c = true -> preferred (Opt p) [c] s2 []
| P_Opt_none p s2 : stops p s2 = true -> preferred (Opt p) [] s2 []
| P_Cat r1 r2 s1 s2 s3 g1 g2 :
    preferred r1 s1 (s2 ++ s3) g1 -> preferred r2 s2 s3 g2 ->
    preferred (Cat r1 r2) (s1 ++ s2) s3 (g1 ++ g2)
| P_Group r s1 s2 g :
    preferred r s1 s2 g -> preferred (Group r) s1 s2 (g ++ [s1]).

(** Group 2 of the speed pattern, and the pattern from group 2 on. *)
Definition numeral_re : regex :=
  Cat (Plus is_digit) (Cat (Opt (is_char "."%char)) (Star true is_digit)).

Definition speed_tail : regex :=
  Cat (Group numeral_re) (Cat (Star true is_space) (Lit (txt "MB/s"))).

(** *** What the patterns of the source match

    The texts that the speed pattern and the identifier pattern match, said
    with the character classes of the matcher.  The words of the
    specification follow in [Spec], with character classes of their own. *)

(** A non-empty run of characters of the class [\d]. *)
Definition digit_run (s : str) : Prop := s <> [] /\ forallb is_digit s = true.

(** What group 2 of the speed pattern matches. *)
Definition numeral (s : str) : Prop :=
  exists i dot f,
    s = i ++ dot ++ f /\ digit_run i /\ (dot = [] \/ dot = txt ".")
    /\ forallb is_digit f = true.

(** A match of the speed pattern in the line, with its two groups. *)
Definition speed_match (line id num : str) : Prop :=
  exists pre mid ws post,
    line = pre ++ txt "AppID " ++ id ++ mid ++ num ++ ws ++ txt "MB/s" ++ post
    /\ digit_run id /\ forallb is_dot mid = true /\ numeral num
    /\ forallb is_space ws = true.

(** A match of the identifier pattern in the line, with its group. *)
Definition token_match (line id : str) : Prop :=
  exists pre post, line = pre ++ txt "AppID " ++ id ++ post /\ digit_run id.

(** The word [kw] occurs in the line folded to lower case. *)
Definition folded_occurs (kw line : str) : Prop :=
  exists pre w post, line = pre ++ w ++ post /\ lower w = kw.

Definition folded_keyword (line : str) : Prop :=
  folded_occurs (txt "paused") line \/ folded_occurs (txt "suspended") line.

(** [s.find(needle)]: the index of the first occurrence. *)
Fixpoint first_index (needle s : str) : option nat :=
  if startswith s needle then Some 0%nat
  else match s with
       | [] => None
       | _ :: s' => S <$> first_index needle s'
       end.

(** A text between the two groups of the speed pattern that leaves the
    matcher one way only: it stays on the line and holds no slash, it does
    not go on the digits of group 1, and it does not end in a digit or a
    dot, which group 2 would take. *)
Definition gap_match (mid : str) : Prop :=
  forallb (fun c => is_dot c && is_not_char "/"%char c) mid = true
  /\ stops is_digit mid = true
  /\ exists b z, mid = b ++ [z] /\ is_digit z = false
                 /\ is_char "."%char z = false.

End Shapes.

Module Spec.
Import Text Re Patterns Common.

(** *** The lines of the log, in the words of the specification

    The character classes are given by the lists of their characters, the
    value of a number by its decimal digits, and the case of a letter by
    its code: nothing here is taken from the matcher or from the code's
    own [lower] and [float]. *)

Definition decimal_digit (c : ascii) : Prop := c ∈ txt "0123456789".

(** White space: TAB, LF, VT, FF, CR, FS, GS, RS, US and the space. *)
Definition white (c : ascii) : Prop :=
  c ∈ map ascii_of_nat [9; 10; 11; 12; 13; 28; 29; 30; 31; 32]%nat.

Definition line_feed : ascii := ascii_of_nat 10.

(** A non-empty run of decimal digits. *)
Definition digits (s : str) : Prop := s <> [] /\ Forall decimal_digit s.

(** The text does not go on with a digit: a run of digits ends before it. *)
Definition ends_run (rest : str) : Prop :=
  forall c rest', rest = c :: rest' -> ~ decimal_digit c.

(** A numeric value as the log writes it: digits, then possibly a dot and
    further digits. *)
Definition numeric (s : str) : Prop :=
  exists i dot f,
    s = i ++ dot ++ f /\ digits i /\ (dot = [] \/ dot = txt ".")
    /\ Forall decimal_digit f.

(** The place of a digit among the ten digits, and the integer that a run
    of digits writes. *)
Definition digit_number (c : ascii) : Z :=
  match c with
  | "1"%char => 1 | "2"%char => 2 | "3"%char => 3 | "4"%char => 4
  | "5"%char => 5 | "6"%char => 6 | "7"%char => 7 | "8"%char => 8
  | "9"%char => 9 | _ => 0
  end.

Fixpoint written (s : str) : Z :=
  match s with
  | [] => 0
  | c :: s' => digit_number c * 10 ^ Z.of_nat (length s') + written s'
  end.

(** The numeric value [num] writes the number [v]: with the integer part
    [i] and the decimals [f], the integer that [i ++ f] writes, divided by
    10 to the number of decimals. *)
Definition denotes (num : str) (v : Q) : Prop :=
  exists i f,
    ((num = i /\ f = []) \/ num = i ++ txt "." ++ f)
    /\ digits i /\ Forall decimal_digit f
    /\ (v == inject_Z (written (i ++ f))
            / inject_Z (10 ^ Z.of_nat (length f)))%Q.

(** The binary64 numbers: an integer below 2^53 in magnitude, times a
    power of two from 2^-1074 to 2^971. *)
Definition binary64 (x : Q) : Prop :=
  exists m e : Z,
    (x == inject_Z m * 2 ^ e)%Q /\ (Z.abs m < 2 ^ 53)%Z
    /\ (-1074 <= e <= 971)%Z.

(** [x] is the float that Python makes of the number [v], which is not
    negative, as far as that is said here: [v] itself where [v] is a
    binary64 number, and a number within the relative error 2^-53 of
    rounding to nearest where [v] lies in the range of the normal
    numbers. *)
Definition float_of (v x : Q) : Prop :=
  (binary64 v -> (x == v)%Q)
  /\ ((2 ^ (-1022) <= v)%Q /\ (v <= 2 ^ 1023)%Q ->
      (Qabs (x - v) * 2 ^ 53 <= v)%Q).

(** The float that [float] makes of the numeric value [num]. *)
Definition reads (num : str) (x : Q) : Prop :=
  exists v, denotes num v /\ float_of v x.

(** The identifier token [AppID id]: the digits [id] are the whole run. *)
Definition identifier_token (line id : str) : Prop :=
  exists pre post,
    line = pre ++ txt "AppID " ++ id ++ post /\ digits id /\ ends_run post.

(** The first identifier token of the line: no [AppID] with digits starts
    earlier. *)
Definition first_token (line id : str) : Prop :=
  exists pre post,
    line = pre ++ txt "AppID " ++ id ++ post /\ digits id /\ ends_run post
    /\ forall pre' id' post',
         line = pre' ++ txt "AppID " ++ id' ++ post' -> digits id' ->
         (length pre <= length pre')%nat.

(** Shape (a): an identifier token, later on the same line the numeric
    value [num], white space or nothing, and the marker [MB/s]. *)
Definition speed_line (line id num : str) : Prop :=
  exists pre mid ws post,
    line = pre ++ txt "AppID " ++ id ++ mid ++ num ++ ws ++ txt "MB/s" ++ post
    /\ digits id /\ mid <> [] /\ ends_run mid
    /\ (line_feed ∉ pre ++ mid)
    /\ numeric num /\ Forall white ws.

(** A reading of the line as a speed, as loose as the speed pattern is:
    [AppID] and a space, the digits [id], which need not be the whole run,
    any text without a line feed, the numeric value [num], white space or
    nothing, and the marker.  [AppID 123 MB/s] has the reading 12 and 3. *)
Definition speed_reading (line id num : str) : Prop :=
  exists pre mid ws post,
    line = pre ++ txt "AppID " ++ id ++ mid ++ num ++ ws ++ txt "MB/s" ++ post
    /\ digits id /\ (line_feed ∉ mid) /\ numeric num /\ Forall white ws.

(** [AppID] and a space followed by the digits [id], which need not be
    the whole run. *)
Definition token_digits (line id : str) : Prop :=
  exists pre post, line = pre ++ txt "AppID " ++ id ++ post /\ digits id.

(** [c] is the small letter [k] or its capital. *)
Definition same_letter (k c : ascii) : Prop :=
  c = k
  \/ ((97 <= N_of_ascii k <= 122)%N /\ (N_of_ascii c + 32 = N_of_ascii k)%N).

(** The word [kw], written in small letters, occurs in the line in some
    mix of cases. *)
Definition occurs_ci (kw line : str) : Prop :=
  exists pre w post, line = pre ++ w ++ post /\ Forall2 same_letter kw w.

Definition pause_keyword (line : str) : Prop :=
  occurs_ci (txt "paused") line \/ occurs_ci (txt "suspended") line.

(** The throughput marker occurs in the line. *)
Definition has_marker (line : str) : Prop :=
  exists pre post, line = pre ++ txt "MB/s" ++ post.

(** The first occurrence of [needle] in the line comes after [pre]. *)
Definition first_at (needle pre line : str) : Prop :=
  (exists rest, line = pre ++ needle ++ rest)
  /\ forall a b, line = a ++ needle ++ b -> (length pre <= length a)%nat.

(** The text between the identifier and the speed on a line with a single
    reading: it stays on the line and holds no slash, it does not go on the
    identifier's digits, and it does not end in a digit or a dot, which
    would belong to the number. *)
Definition gap (mid : str) : Prop :=
  Forall (fun c => c <> line_feed /\ c <> "/"%char) mid
  /\ ends_run mid
  /\ exists b z, mid = b ++ [z] /\ ~ decimal_digit z /\ z <> "."%char.

(** The monitor of Strategy A after one poll of the log, and the batch of
    lines that the poll returns. *)
Definition polled (fs : filesystem) (self : V1.SteamDownloadMonitor)
    : V1.SteamDownloadMonitor :=
  (V1._read_new_log_entries fs self).1.2.

Definition batch (fs : filesystem) (self : V1.SteamDownloadMonitor)
    : list str :=
  (V1._read_new_log_entries fs self).1.1.

(** The cursors stored after each poll of a run of polls, one file-system
    snapshot per poll. *)
Fixpoint poll_cursors (self : V1.SteamDownloadMonitor)
    (snapshots : list filesystem) : list nat :=
  match snapshots with
  | [] => []
  | fs :: rest =>
      V1.last_position (polled fs self) :: poll_cursors (polled fs self) rest
  end.

(** One step of the walk that computes [latest_mtime]. *)
Definition latest_step (latest : Q) (f : file_stat) : Q :=
  if st_exists f then V2.py_max latest (st_mtime f) else latest.

(** The modification time that the classifier of Strategy B works from, as
    the specification words it: 0 for a missing staging directory. *)
Definition max_mtime (fs : filesystem) (downloading_folder : str) : Q :=
  if path_exists fs downloading_folder
  then V2.latest_mtime_of (walk fs downloading_folder)
  else 0%Q.

(** A manifest file name, the identifier it stands for, and whether the
    manifest makes the identifier a candidate of the discovery. *)
Definition is_manifest (file : str) : bool :=
  startswith file (txt "appmanifest_") && endswith file (txt ".acf").

Definition app_id_of (file : str) : str :=
  replace (replace file (txt "appmanifest_") []) (txt ".acf") [].

Definition flags_active (fs : filesystem) (manifest_path : str) : bool :=
  match read_file fs manifest_path with
  | Returns content =>
      contains (txt "StateFlags") content
      && match search state_flags_pattern content with
         | Some g => bool_decide (group 1 g ∈ [txt "2"; txt "4"; txt "6"])
         | None => false
         end
  | Raises _ => false
  end.

Definition candidate (fs : filesystem) (folder file : str) : bool :=
  is_manifest file
  && (path_exists fs (V2.staging_folder folder (app_id_of file))
      || flags_active fs (path_join folder file)).

(** The quoted key [StateFlags], white space and the quoted digits [value]
    stand in [content] right after [pre]. *)
Definition flags_entry (content pre value : str) : Prop :=
  exists ws post,
    content = pre ++ (dquote :: txt "StateFlags" ++ [dquote]) ++ ws
                  ++ dquote :: value ++ dquote :: post
    /\ ws <> [] /\ Forall white ws /\ digits value.

(** The state flags of a manifest: the digits of its first such entry. *)
Definition state_flags (content value : str) : Prop :=
  exists pre,
    flags_entry content pre value
    /\ forall pre' value', flags_entry content pre' value' ->
         (length pre <= length pre')%nat.

(** The file [file] of the library folder [folder] makes its identifier a
    download: it is named [appmanifest_*.acf], and the folder holds the
    staging directory [downloading\<id>] of the identifier, or the file is
    readable and its state flags are 2, 4 or 6. *)
Definition downloading_manifest (fs : filesystem) (folder file : str)
    : Prop :=
  (exists a b, file = txt "appmanifest_" ++ a /\ file = b ++ txt ".acf")
  /\ (path_exists fs (folder ++ txt "\downloading\" ++ app_id_of file) = true
      \/ exists content value,
           read_file fs (folder ++ txt "\" ++ file) = Returns content
           /\ state_flags content value
           /\ value ∈ [txt "2"; txt "4"; txt "6"]).

(** The number of checks in a trace. *)
Definition is_poll (e : event) : bool :=
  match e with EvPoll => true | _ => false end.

Definition polls (trace : list event) : nat :=
  length (List.filter is_poll trace).

Definition is_sleep (e : event) : bool :=
  match e with EvSleep _ => true | _ => false end.

(** The file-system accesses of a trace: the checks and the probes. *)
Definition touches_files (e : event) : bool :=
  match e with EvPoll | EvProbe _ => true | _ => false end.

(** The text [content] holds the quoted key [key], white space and the
    quoted, non-empty value [value]. *)
Definition quoted_entry (key : string) (content value : str) : Prop :=
  exists pre ws post,
    content = pre ++ (dquote :: txt key ++ [dquote]) ++ ws
                  ++ dquote :: value ++ dquote :: post
    /\ ws <> [] /\ forallb is_space ws = true
    /\ value <> [] /\ forallb (is_not_char dquote) value = true.

(** The time slept in a trace. *)
Definition slept (trace : list event) : Q :=
  fold_right (fun e total =>
                match e with
                | EvSleep d => (d + total)%Q
                | _ => total
                end) 0%Q trace.

(** [n] as a rational. *)
Definition of_nat (n : nat) : Q := inject_Z (Z.of_nat n).

(** The numbers of the grid of 2^-22 that are below 2^31 in magnitude.
    They are binary64 numbers, among them every reading of [time.time()]
    from 2004 to 2038 and every whole number below 2^31; binary64
    arithmetic adds and subtracts two of them, and multiplies one of them by
    60, without rounding as long as the result is below 2^31 in magnitude.
    On such numbers the rational arithmetic of the loops below is the
    arithmetic of the code. *)
Definition on_grid (x : Q) : Prop :=
  exists k : Z,
    (x == inject_Z k / inject_Z (2 ^ 22))%Q /\ (Z.abs k < 2 ^ 53)%Z.

(** A clock reading at which a run of [minutes] minutes, checked every
    [seconds] seconds, computes without rounding; the interval is at most
    2^22 seconds, about 48 days, a length that [time.sleep] accepts. *)
Definition exact_run (start minutes seconds : Q) : Prop :=
  on_grid start /\ on_grid minutes /\ on_grid seconds
  /\ (0 <= start)%Q /\ (0 <= minutes)%Q
  /\ (seconds <= inject_Z (2 ^ 22))%Q
  /\ (start + minutes * 60 < inject_Z (2 ^ 31))%Q.

(** A directory name after which [os.path.join] puts a backslash: it is
    not empty and does not end in a separator or a colon. *)
Definition plain (dir : str) : Prop :=
  exists body c,
    dir = body ++ [c]
    /\ c <> "\"%char /\ c <> "/"%char /\ c <> ":"%char.

(** Every folder of [folders] that exists can be listed. *)
Definition listable (fs : filesystem) (folders : list str) : Prop :=
  forall folder, folder ∈ folders -> path_exists fs folder = true ->
    exists files, listdir fs folder = Returns files.

End Spec.

(** ** Concrete machines

    The registries, file systems and monitors on which the examples below
    run the code. *)

Module Scenario.
Import Text Common.

Definition root : str := txt "C:\Steam".
Definition steamapps : str := path_join root (txt "steamapps").
Definition library_vdf : str :=
  path_join steamapps (txt "libraryfolders.vdf").
Definition manifest_440 : str :=
  path_join steamapps (txt "appmanifest_440.acf").
Definition staging_440 : str := V2.staging_folder steamapps (txt "440").
Definition log_file : str :=
  path_join (path_join root (txt "logs")) (txt "content_log.txt").

(** A registry with Steam under the current user's key, and one without. *)
Definition reg : registry :=
  fun hkey _ =>
    match hkey with
    | HKEY_CURRENT_USER => Some root
    | HKEY_LOCAL_MACHINE => None
    end.

Definition no_steam : registry := fun _ _ => None.

Fixpoint assoc {A : Type} (key : str) (l : list (str * A)) : option A :=
  match l with
  | [] => None
  | (k, v) :: rest => if bool_decide (k = key) then Some v else assoc key rest
  end.

(** A file system given by the paths that exist, the texts of its files,
    the listings of its directories and the files below its directories. *)
Definition fs_of (present : list str) (texts : list (str * str))
    (listings : list (str * list str)) (trees : list (str * list file_stat))
    : filesystem :=
  {| path_exists p := bool_decide (p ∈ present);
     read_file p :=
       match assoc p texts with
       | Some t => Returns t
       | None => Raises OSError
       end;
     listdir p :=
       match assoc p listings with
       | Some l => Returns l
       | None => Raises OSError
       end;
     walk p := default [] (assoc p trees) |}.

Definition one_file (size : Z) (mtime : Q) : list file_stat :=
  [{| st_exists := true; st_size := size; st_mtime := mtime |}].

(** The staging directory of 440 holds one file; no manifest. *)
Definition fs_staged (size : Z) (mtime : Q) : filesystem :=
  fs_of [root; steamapps; staging_440] []
    [(steamapps, [txt "downloading"])]
    [(staging_440, one_file size mtime)].

Definition quoted (key value : str) : str :=
  dquote :: key ++ [dquote] ++ txt "  " ++ [dquote] ++ value ++ [dquote].

(** A library with the manifest of 440 and its staging directory.  With
    [listed], [libraryfolders.vdf] names the install root itself as a
    library, as Steam writes it. *)
Definition fs_library (listed : bool) (size : Z) (mtime : Q) : filesystem :=
  fs_of
    ([root; steamapps; manifest_440; staging_440]
       ++ if listed then [library_vdf] else [])
    ((manifest_440, quoted (txt "name") (txt "Game"))
       :: if listed
          then [(library_vdf, quoted (txt "path") (txt "C:\\Steam"))]
          else [])
    [(steamapps,
      [txt "appmanifest_440.acf"; txt "downloading";
       txt "libraryfolders.vdf"])]
    [(staging_440, one_file size mtime)].

(** The log of Strategy A with a given content. *)
Definition fs_log (content : str) : filesystem :=
  fs_of [root; log_file] [(log_file, content)] [] [].

Definition log_long : str := txt "AppID 440 paused" ++ [V1.LF].
Definition log_short : str := txt "x".

(** A monitor of Strategy B whose samples are kept in a dictionary, with a
    sample of 100 MiB taken at time 1000. *)
Definition dict_monitor : V2.SteamDownloadMonitorV2 :=
  {| V2.steam_path := Some root;
     V2.download_stats :=
       V2.PyDict {[ txt "440" := (104857600, 1000%Q) ]} |}.

End Scenario.

(** ** The entry points: [main] of both files and [example_quick_check]

    An interrupt from the keyboard arrives from outside at any moment and
    is not part of the embedding; every other exception reaches the second
    [except] clause of [main].  The registry values are strings, as Steam
    writes [SteamPath]: a value of another type, which [os.path.join]
    refuses with a [TypeError], is outside the embedding.  The standard
    output is open. *)

Module Entry.
Import Text Common.

(** What an entry point does: the events of the monitor, and the entry
    into the [except] clause with which [main] answers an exception. *)
Inductive main_event : Type :=
| Ran (e : event)
| Critical (e : exn).

Definition report_error (res : outcome unit) : list main_event :=
  match res with
  | Returns _ => []
  | Raises e => [Critical e]
  end.

(** The standard output: [out m] tells whether it can encode the whole
    text that the code prints for the message [m].  A [print] of a text
    that the output cannot encode raises [UnicodeEncodeError], and no
    [print] of the monitors stands in a [try] that catches it: a console in
    the code page 1251 cannot encode the check mark of [MsgSteamFound] or
    the emoji of [MsgReport] and [MsgNoActiveDownloads].  A message counts
    as printed when all its lines were. *)
Definition console : Type := message -> bool.

(** The events of a trace up to the first message that the output cannot
    encode, and whether every message was printed. *)
Fixpoint shown (out : console) (trace : list event) : list event * bool :=
  match trace with
  | [] => ([], true)
  | EvPrint m :: rest =>
      if out m
      then let '(t, ok) := shown out rest in (EvPrint m :: t, ok)
      else ([], false)
  | e :: rest => let '(t, ok) := shown out rest in (e :: t, ok)
  end.

(** How [main] ends on a run with the trace [trace] and the result [res]
    of [monitor]. *)
Definition finish (out : console) (trace : list event) (res : outcome unit)
    : list main_event :=
  let '(t, ok) := shown out trace in
  map Ran t ++ (if ok then report_error res else [Critical UnicodeEncodeError]).

(** [main] of [steam_download_monitor.py]: the monitor is built on the
    file system [fs0] and runs for 5 minutes with a check every 60
    seconds.  [None]: the fuel of the loop ran out. *)
Definition main_v1 (fuel : nat) (out : console) (reg : registry)
    (fs0 : filesystem) (fs_at : Q -> filesystem) (start : Q)
    : option (list main_event) :=
  let '(monitor, printed) := V1.__init__ reg fs0 in
  match shown out printed with
  | (t, false) => Some (map Ran t ++ [Critical UnicodeEncodeError])
  | (t, true) =>
      (fun '(res, _, trace) => map Ran t ++ finish out trace res)
        <$> V1.monitor fuel fs_at start monitor 5 60
  end.

(** [main] of [steam_download_monitor_v2.py]. *)
Definition main_v2 (fuel : nat) (out : console) (reg : registry)
    (fs0 : filesystem) (fs_at : Q -> filesystem) (start : Q)
    : option (list main_event) :=
  (fun '(res, _, trace) => finish out trace res)
    <$> V2.monitor fuel fs_at start (V2.__init__ reg fs0) 5 60.

(** [example_quick_check] of [example_usage.py]: a fresh monitor and, when
    Steam was found, one call of [get_current_download_status]; the result
    is the status that the example prints, if any. *)
Definition example_quick_check (reg : registry) (fs : filesystem) (now : Q)
    : outcome (option V1.DownloadStatus) :=
  let '(monitor, _) := V1.__init__ reg fs in
  if negb (truthy (V1.steam_path monitor))
  then Returns None
  else (V1.get_current_download_status fs now monitor).1.1.

End Entry.

(** ** Tactics *)

(** Inversion of a match of a pattern that is not a single class. *)
Ltac inv_matches :=
  match goal with
  | H : Shapes.matches (Re.Cat _ _) _ _ |- _ => inversion H; subst; clear H
  | H : Shapes.matches (Re.Lit _) _ _ |- _ => inversion H; subst; clear H
  | H : Shapes.matches (Re.Star _ _) _ _ |- _ => inversion H; subst; clear H
  | H : Shapes.matches (Re.Group _) _ _ |- _ => inversion H; subst; clear H
  end.

(** The groups of a match of a pattern without groups are empty; [lem] is
    the lemma that says so. *)
Ltac drop_groups_by lem :=
  repeat match goal with
  | H : Shapes.matches _ _ ?g |- _ =>
      is_var g; pose proof (lem _ _ _ H eq_refl); subst g
  end.

(** Comparison of a text that starts with an unknown prefix [p] with a
    given text, prefix by prefix. *)
Ltac walk_prefix H p :=
  repeat (destruct p as [|? p]; simpl in H;
          [try discriminate H|injection H as ? H; subst]);
  try (by destruct p).

(** * Properties

    ** Texts, the matcher and the patterns *)

(** *** Prefixes, substrings and lower case *)

Section TextFacts.
Import Text Re Patterns Num Common Shapes Spec.

Lemma is_char_true a c : is_char a c = true <-> a = c.
Proof.
  unfold is_char, code. rewrite N.eqb_eq. split; [|congruence].
  intros H. rewrite <- (ascii_N_embedding a), <- (ascii_N_embedding c).
  congruence.
Qed.

Lemma is_char_refl a : is_char a a = true.
Proof. by apply is_char_true. Qed.

Lemma strip_prefix_Some p s r : strip_prefix p s = Some r <-> s = p ++ r.
Proof.
  revert s. induction p as [|a p IH]; intros s; simpl.
  - split; congruence.
  - destruct s as [|c s]; [split; discriminate|].
    destruct (is_char a c) eqn:E.
    + apply is_char_true in E as ->. rewrite IH. split; congruence.
    + split; [discriminate|]. intros [= -> _].
      by rewrite is_char_refl in E.
Qed.

Lemma strip_prefix_app p r : strip_prefix p (p ++ r) = Some r.
Proof. by apply strip_prefix_Some. Qed.

Lemma startswith_true s p : startswith s p = true <-> exists r, s = p ++ r.
Proof.
  unfold startswith. destruct (strip_prefix p s) as [r|] eqn:E.
  - apply strip_prefix_Some in E. split; eauto.
  - split; [discriminate|]. intros [r ->].
    by rewrite strip_prefix_app in E.
Qed.

Lemma contains_true needle s :
  contains needle s = true <-> exists pre post, s = pre ++ needle ++ post.
Proof.
  induction s as [|c s IH]; simpl.
  - rewrite orb_false_r, startswith_true. split.
    + intros [r ->]. by exists [], r.
    + intros (pre & post & H). destruct pre; [by exists post|discriminate].
  - rewrite orb_true_iff, startswith_true, IH. split.
    + intros [[r ->]|(pre & post & ->)]; [by exists [], r|].
      by exists (c :: pre), post.
    + intros (pre & post & H). destruct pre as [|c' pre].
      * left. by exists post.
      * right. injection H as -> ->. by exists pre, post.
Qed.

Lemma lower_app a b : lower (a ++ b) = lower a ++ lower b.
Proof. apply map_app. Qed.
End TextFacts.

(** *** The matcher against the declarative reading of a pattern *)

Section MatcherFacts.
Import Text Re Patterns Num Common Shapes Spec.
Context {R : Type}.
Implicit Types (k : str -> option R) (K : str -> list str -> option R).

Lemma star_greedy_stop p s k :
  is_Some (k s) -> is_Some (star_greedy p s k).
Proof.
  intros Hk. destruct s as [|c s]; simpl; [done|].
  destruct (p c); [|done]. by destruct (star_greedy p s k).
Qed.

Lemma star_greedy_complete p s1 s2 k :
  forallb p s1 = true -> is_Some (k s2) ->
  is_Some (star_greedy p (s1 ++ s2) k).
Proof.
  induction s1 as [|c s1 IH]; simpl; intros Hp Hk.
  - by apply star_greedy_stop.
  - apply andb_true_iff in Hp as [-> Hp].
    destruct (IH Hp Hk) as [x ->]. eauto.
Qed.

Lemma star_greedy_sound p s k x :
  star_greedy p s k = Some x ->
  exists s1 s2, s = s1 ++ s2 /\ forallb p s1 = true /\ k s2 = Some x.
Proof.
  induction s as [|c s IH]; simpl; intros H.
  - by exists [], [].
  - destruct (p c) eqn:Hc; [|by exists [], (c :: s)].
    destruct (star_greedy p s k) as [y|] eqn:E.
    + injection H as ->. destruct (IH eq_refl) as (s1 & s2 & -> & Hp & Hk).
      exists (c :: s1), s2. simpl. by rewrite Hc.
    + by exists [], (c :: s).
Qed.

Lemma star_lazy_complete p s1 s2 k :
  forallb p s1 = true -> is_Some (k s2) ->
  is_Some (star_lazy p (s1 ++ s2) k).
Proof.
  induction s1 as [|c s1 IH]; simpl; intros Hp Hk.
  - destruct Hk as [x Hx]. destruct s2; simpl; rewrite Hx; eauto.
  - apply andb_true_iff in Hp as [-> Hp].
    destruct (k (c :: s1 ++ s2)); eauto.
Qed.

Lemma star_lazy_sound p s k x :
  star_lazy p s k = Some x ->
  exists s1 s2, s = s1 ++ s2 /\ forallb p s1 = true /\ k s2 = Some x.
Proof.
  induction s as [|c s IH]; simpl; intros H.
  - destruct (k []) eqn:E; [|done]. injection H as ->. by exists [], [].
  - destruct (k (c :: s)) eqn:E.
    + injection H as ->. by exists [], (c :: s).
    + destruct (p c) eqn:Hc; [|done].
      destruct (IH H) as (s1 & s2 & -> & Hp & Hk).
      exists (c :: s1), s2. simpl. by rewrite Hc.
Qed.

(** Whatever the matcher returns comes from a match of the pattern at the
    head of the text, followed by a success of the continuation. *)
Lemma rmatch_sound r : forall s g K x,
  rmatch r s g K = Some x ->
  exists s1 s2 g1,
    s = s1 ++ s2 /\ matches r s1 g1 /\ K s2 (g ++ g1) = Some x.
Proof.
  induction r as [l|b p|p|p|r1 IH1 r2 IH2|r IH]; intros s g K x H; simpl in H.
  - destruct (strip_prefix l s) as [s'|] eqn:E; [|done].
    apply strip_prefix_Some in E as ->.
    exists l, s', []. rewrite app_nil_r. split_and!; [done|constructor|done].
  - destruct b.
    + apply star_greedy_sound in H as (s1 & s2 & -> & Hp & Hk).
      exists s1, s2, []. rewrite app_nil_r. split_and!; [done|by constructor|done].
    + apply star_lazy_sound in H as (s1 & s2 & -> & Hp & Hk).
      exists s1, s2, []. rewrite app_nil_r. split_and!; [done|by constructor|done].
  - destruct s as [|c s]; [done|]. destruct (p c) eqn:Hc; [|done].
    apply star_greedy_sound in H as (s1 & s2 & -> & Hp & Hk).
    exists (c :: s1), s2, []. rewrite app_nil_r.
    split_and!; [done|by constructor|done].
  - assert (K s g = Some x -> exists s1 s2 g1,
               s = s1 ++ s2 /\ matches (Opt p) s1 g1 /\ K s2 (g ++ g1) = Some x)
      as Hnone.
    { intros Hk. exists [], s, []. rewrite app_nil_r.
      split_and!; [done|constructor|done]. }
    destruct s as [|c s]; [by apply Hnone|].
    destruct (p c) eqn:Hc; [|by apply Hnone].
    destruct (K s g) eqn:E; [|by apply Hnone].
    injection H as ->. exists [c], s, []. rewrite app_nil_r.
    split_and!; [done|by constructor|done].
  - apply IH1 in H as (s1 & s2 & g1 & -> & M1 & H).
    apply IH2 in H as (s1' & s2' & g2 & -> & M2 & H).
    exists (s1 ++ s1'), s2', (g1 ++ g2).
    rewrite <- !app_assoc. rewrite <- app_assoc in H.
    split_and!; [done|by constructor|done].
  - apply IH in H as (s1 & s2 & g1 & -> & M & H).
    exists s1, s2, (g1 ++ [s1]).
    replace (length (s1 ++ s2) - length s2)%nat with (length s1) in H
      by (rewrite length_app; lia).
    rewrite take_app_length in H. rewrite <- app_assoc in H.
    split_and!; [done|by constructor|done].
Qed.

(** If some match of the pattern lets the continuation succeed, the
    matcher succeeds. *)
Lemma rmatch_complete r s1 g1 :
  matches r s1 g1 ->
  forall s2 g K,
    is_Some (K s2 (g ++ g1)) -> is_Some (rmatch r (s1 ++ s2) g K).
Proof.
  induction 1 as [l|b p s Hp|p c s Hc Hp|p c Hc|p|r1 r2 s1 s2 g1 g2 _ IH1 _ IH2
                 |r s g1 _ IH]; intros t g K HK; simpl.
  - rewrite strip_prefix_app. by rewrite app_nil_r in HK.
  - rewrite app_nil_r in HK.
    destruct b; [by apply star_greedy_complete|by apply star_lazy_complete].
  - rewrite Hc. rewrite app_nil_r in HK. by apply star_greedy_complete.
  - rewrite Hc. rewrite app_nil_r in HK. destruct HK as [x ->]. eauto.
  - rewrite app_nil_r in HK. destruct t as [|c t]; [done|].
    destruct (p c); [|done]. by destruct (K t g).
  - rewrite <- app_assoc. apply IH1, IH2. by rewrite <- app_assoc.
  - apply IH.
    replace (length (s ++ t) - length t)%nat with (length s)
      by (rewrite length_app; lia).
    rewrite take_app_length. by rewrite <- app_assoc.
Qed.
End MatcherFacts.

(** *** [re.search]: what it returns matches, and it finds a match if one
    exists *)

Section SearchFacts.
Import Text Re Patterns Num Common Shapes Spec.

Lemma match_here_sound r s g rest :
  match_here r s = Some (g, rest) ->
  exists m, s = m ++ rest /\ matches r m g.
Proof.
  unfold match_here. intros H.
  apply rmatch_sound in H as (s1 & s2 & g1 & -> & M & [= <- <-]). eauto.
Qed.

Lemma match_here_complete r m g rest :
  matches r m g -> is_Some (match_here r (m ++ rest)).
Proof. intros M. unfold match_here. by eapply rmatch_complete. Qed.

Lemma search_span_sound r s g rest :
  search_span r s = Some (g, rest) ->
  exists pre m, s = pre ++ m ++ rest /\ matches r m g.
Proof.
  induction s as [|c s IH]; simpl; intros H.
  - destruct (match_here r []) as [[g' rest']|] eqn:E; [|done].
    injection H as -> ->. apply match_here_sound in E as (m & -> & M).
    by exists [], m.
  - destruct (match_here r (c :: s)) as [[g' rest']|] eqn:E.
    + injection H as -> ->. apply match_here_sound in E as (m & -> & M).
      by exists [], m.
    + destruct (IH H) as (pre & m & -> & M). by exists (c :: pre), m.
Qed.

Lemma search_span_complete r pre m g rest :
  matches r m g -> is_Some (search_span r (pre ++ m ++ rest)).
Proof.
  intros M. induction pre as [|c pre IH]; simpl.
  - destruct (match_here_complete r m g rest M) as [x Hx].
    destruct (m ++ rest); simpl; rewrite Hx; eauto.
  - destruct (match_here r (c :: pre ++ m ++ rest)); eauto.
Qed.

Lemma search_sound r s g :
  search r s = Some g ->
  exists pre m rest, s = pre ++ m ++ rest /\ matches r m g.
Proof.
  unfold search. destruct (search_span r s) as [[g' rest]|] eqn:E; [|done].
  intros [= <-]. apply search_span_sound in E as (pre & m & -> & M). eauto.
Qed.

Lemma search_complete r pre m g rest :
  matches r m g -> is_Some (search r (pre ++ m ++ rest)).
Proof.
  intros M. unfold search.
  destruct (search_span_complete r pre m g rest M) as [x ->]. by eexists.
Qed.

Lemma search_None r pre m g rest :
  search r (pre ++ m ++ rest) = None -> ~ matches r m g.
Proof.
  intros H M. destruct (search_complete r pre m g rest M) as [x Hx].
  congruence.
Qed.
End SearchFacts.

(** *** Patterns without groups *)

Section GroupFacts.
Import Text Re Patterns Num Common Shapes Spec.

Lemma group_free_matches r s g :
  matches r s g -> group_free r = true -> g = [].
Proof.
  induction 1 as [| | | | |r1 r2 s1 s2 g1 g2 _ IH1 _ IH2|]; simpl; try done.
  intros [H1 H2]%andb_true_iff. by rewrite IH1, IH2.
Qed.
End GroupFacts.

(** *** The texts that the patterns of the source match *)

Section PatternFacts.
Import Text Re Patterns Num Common Shapes Spec.

Lemma digits_plus s : digit_run s <-> matches (Plus is_digit) s [].
Proof.
  split.
  - intros [Hne Hd]. destruct s as [|c s]; [done|].
    simpl in Hd. apply andb_true_iff in Hd as [??]. by constructor.
  - inversion 1; subst. split; [done|]. simpl. by apply andb_true_iff.
Qed.

Lemma numeric_matches s : numeral s <-> matches numeral_re s [].
Proof.
  unfold numeral_re. split.
  - intros (i & dot & f & -> & Hi & Hdot & Hf).
    apply digits_plus in Hi.
    change (@nil str) with (@nil str ++ ([] ++ [])).
    constructor; [done|]. constructor; [|by constructor].
    destruct Hdot as [->| ->]; [constructor|].
    change (txt ".") with ["."%char]. constructor. apply is_char_refl.
  - intros H. repeat inv_matches. drop_groups_by group_free_matches.
    match goal with
    | Hi : matches (Plus _) ?i _, Hd : matches (Opt _) ?dot _,
      Hf : forallb _ ?f = true |- _ =>
        exists i, dot, f; split_and!; [done|by apply digits_plus| |done];
        inversion Hd as [| | |p c Hc|p| |]; subst; [right|by left];
        by apply is_char_true in Hc as <-
    end.
Qed.

Lemma speed_pattern_matches m g :
  matches speed_pattern m g <->
  exists id mid num ws,
    m = txt "AppID " ++ id ++ mid ++ num ++ ws ++ txt "MB/s"
    /\ g = [id; num]
    /\ digit_run id /\ forallb is_dot mid = true /\ numeral num
    /\ forallb is_space ws = true.
Proof.
  unfold speed_pattern. fold numeral_re. split.
  - intros H. repeat inv_matches. drop_groups_by group_free_matches.
    match goal with
    | Hi : matches (Plus _) ?id _, Hn : matches numeral_re ?num _,
      Hm : forallb is_dot ?mid = true, Hw : forallb is_space ?ws = true |- _ =>
        exists id, mid, num, ws; split_and!;
          [done|done|by apply digits_plus|done|by apply numeric_matches|done]
    end.
  - intros (id & mid & num & ws & -> & -> & Hid & Hmid & Hnum & Hws).
    apply digits_plus in Hid. apply numeric_matches in Hnum.
    change [id; num]
      with ([] ++ (([] ++ [id]) ++ ([] ++ (([] ++ [num]) ++ ([] ++ []))))).
    repeat (constructor; try done).
Qed.

Lemma app_pattern_matches m g :
  matches app_pattern m g <->
  exists id, m = txt "AppID " ++ id /\ g = [id] /\ digit_run id.
Proof.
  unfold app_pattern. split.
  - intros H. repeat inv_matches. drop_groups_by group_free_matches.
    match goal with
    | Hi : matches (Plus _) ?id _ |- _ =>
        exists id; split_and!; [done|done|by apply digits_plus]
    end.
  - intros (id & -> & -> & Hid). apply digits_plus in Hid.
    change [id] with ([] ++ ([] ++ [id])).
    repeat (constructor; try done).
Qed.
End PatternFacts.

(** ** The parser of log lines *)

Section ParserFacts.
Import Text Re Patterns Num Common Shapes Spec V1.

Lemma contains_lower kw line :
  contains kw (lower line) = true <-> folded_occurs kw line.
Proof.
  rewrite contains_true. unfold folded_occurs, lower. split.
  - intros (pre & post & H).
    apply map_eq_app in H as (pre' & rest & -> & <- & H).
    apply map_eq_app in H as (w & post' & -> & <- & <-).
    by exists pre', w, post'.
  - intros (pre & w & post & -> & <-).
    exists (map lower_char pre), (map lower_char post).
    by rewrite !map_app.
Qed.

Lemma has_pause_keyword_true line :
  has_pause_keyword line = true <-> folded_keyword line.
Proof.
  unfold has_pause_keyword, folded_keyword.
  by rewrite orb_true_iff, !contains_lower.
Qed.

Lemma digit_not_dot c : is_digit c = true -> is_char "."%char c = false.
Proof.
  intros Hd. destruct (is_char "." c) eqn:E; [|done].
  apply is_char_true in E as <-. done.
Qed.

Lemma split_dot_digits i rest :
  forallb is_digit i = true ->
  split_dot (i ++ rest) = (i ++ (split_dot rest).1, (split_dot rest).2).
Proof.
  induction i as [|c i IH]; simpl; intros H.
  - by destruct (split_dot rest).
  - apply andb_true_iff in H as [Hc Hi].
    rewrite (digit_not_dot c Hc), (IH Hi). done.
Qed.

Lemma numeric_is_numeral s : numeral s -> is_numeral s = true.
Proof.
  intros (i & dot & f & -> & [Hne Hi] & Hdot & Hf). unfold is_numeral.
  destruct Hdot as [->| ->].
  - simpl. rewrite <- (app_nil_r (i ++ f)), split_dot_digits
      by (by rewrite forallb_app, Hi, Hf).
    simpl. rewrite app_nil_r, forallb_app, Hi, Hf.
    destruct i; [done|]. by rewrite bool_decide_eq_false_2.
  - rewrite split_dot_digits by done. simpl.
    rewrite app_nil_r, Hi, Hf. by rewrite bool_decide_eq_false_2.
Qed.

(** [float] accepts every numeric value of the log. *)
Lemma py_float_numeric s : numeral s -> exists v, py_float s = Returns v.
Proof.
  intros H. unfold py_float. rewrite (numeric_is_numeral s H).
  destruct (split_dot s). eauto.
Qed.

Lemma search_speed_sound line g :
  search speed_pattern line = Some g ->
  exists id num, g = [id; num] /\ speed_match line id num.
Proof.
  intros H. apply search_sound in H as (pre & m & rest & -> & M).
  apply speed_pattern_matches in M
    as (id & mid & num & ws & -> & -> & Hid & Hmid & Hnum & Hws).
  exists id, num. split; [done|]. exists pre, mid, ws, rest.
  by rewrite <- !app_assoc.
Qed.

Lemma search_speed_complete line id num :
  speed_match line id num -> is_Some (search speed_pattern line).
Proof.
  intros (pre & mid & ws & post & -> & Hid & Hmid & Hnum & Hws).
  replace (pre ++ txt "AppID " ++ id ++ mid ++ num ++ ws ++ txt "MB/s" ++ post)
    with (pre ++ (txt "AppID " ++ id ++ mid ++ num ++ ws ++ txt "MB/s") ++ post)
    by (by rewrite <- !app_assoc).
  eapply search_complete. apply speed_pattern_matches.
  by exists id, mid, num, ws.
Qed.

Lemma search_app_sound line g :
  search app_pattern line = Some g ->
  exists id, g = [id] /\ token_match line id.
Proof.
  intros H. apply search_sound in H as (pre & m & rest & -> & M).
  apply app_pattern_matches in M as (id & -> & -> & Hid).
  exists id. split; [done|]. exists pre, rest. by rewrite <- !app_assoc.
Qed.

Lemma search_app_complete line id :
  token_match line id -> is_Some (search app_pattern line).
Proof.
  intros (pre & post & -> & Hid).
  replace (pre ++ txt "AppID " ++ id ++ post)
    with (pre ++ (txt "AppID " ++ id) ++ post) by (by rewrite <- !app_assoc).
  eapply search_complete. apply app_pattern_matches. by exists id.
Qed.

Lemma speed_line_has_marker line id num :
  speed_match line id num -> has_marker line.
Proof.
  intros (pre & mid & ws & post & -> & _).
  exists (pre ++ txt "AppID " ++ id ++ mid ++ num ++ ws), post.
  by rewrite <- !app_assoc.
Qed.

Lemma speed_line_token line id num :
  speed_match line id num -> token_match line id.
Proof.
  intros (pre & mid & ws & post & -> & Hid & _).
  by exists pre, (mid ++ num ++ ws ++ txt "MB/s" ++ post).
Qed.

(** The parser on a line of shape (a). *)
Lemma parse_speed_line line id0 num0 :
  speed_match line id0 num0 ->
  exists id num speed,
    speed_match line id num /\ py_float num = Returns speed /\
    _parse_log_line line =
      Returns (Some (id, speed,
                     if has_pause_keyword line then Paused else Downloading)).
Proof.
  intros H. destruct (search_speed_complete _ _ _ H) as [g Hg].
  destruct (search_speed_sound _ _ Hg) as (id & num & -> & Hline).
  destruct Hline as (pre & mid & ws & post & Heq & Hid & Hmid & Hnum & Hws).
  destruct (py_float_numeric num Hnum) as [v Hv].
  exists id, num, v. split_and!; [by exists pre, mid, ws, post|done|].
  unfold _parse_log_line. rewrite Hg. cbn [group nth Nat.sub].
  by rewrite Hv.
Qed.

(** The parser never raises, and what it returns has one of two forms. *)
Lemma parse_cases line :
  (exists id num speed,
     speed_match line id num /\ py_float num = Returns speed /\
     _parse_log_line line =
       Returns (Some (id, speed,
                      if has_pause_keyword line then Paused else Downloading)))
  \/ ((forall id num, ~ speed_match line id num) /\
      has_pause_keyword line = true /\
      exists id, token_match line id /\
        _parse_log_line line = Returns (Some (id, 0%Q, Paused)))
  \/ ((forall id num, ~ speed_match line id num) /\
      (has_pause_keyword line = false \/ forall id, ~ token_match line id)
      /\ _parse_log_line line = Returns None).
Proof.
  destruct (search speed_pattern line) as [g|] eqn:Hg.
  - left. destruct (search_speed_sound _ _ Hg) as (id & num & -> & Hline).
    by apply (parse_speed_line line id num).
  - right.
    assert (forall id num, ~ speed_match line id num) as Hno.
    { intros id num H. destruct (search_speed_complete _ _ _ H). congruence. }
    unfold _parse_log_line. rewrite Hg.
    destruct (has_pause_keyword line) eqn:Hkw; [|right; by eauto].
    destruct (search app_pattern line) as [g|] eqn:Ha.
    + left. destruct (search_app_sound _ _ Ha) as (id & -> & Hid).
      split_and!; [done..|]. by exists id.
    + right. split_and!; [done| |done]. right. intros id Hid.
      destruct (search_app_complete _ _ Hid). congruence.
Qed.
End ParserFacts.

(** *** The order of backtracking *)

Section PriorityFacts.
Import Text Re Patterns Num Common Shapes Spec.
Context {R : Type}.
Implicit Types (k : str -> option R) (K : str -> list str -> option R).

Lemma star_greedy_at_stop p s k : stops p s = true -> star_greedy p s k = k s.
Proof.
  destruct s as [|c s]; simpl; [done|]. by intros ->%negb_true_iff.
Qed.

Lemma star_greedy_max p s1 s2 k x :
  forallb p s1 = true -> stops p s2 = true -> k s2 = Some x ->
  star_greedy p (s1 ++ s2) k = Some x.
Proof.
  intros Hp Hs Hk. induction s1 as [|c s1 IH]; simpl.
  - by rewrite star_greedy_at_stop.
  - simpl in Hp. apply andb_true_iff in Hp as [-> Hp]. by rewrite IH.
Qed.

Lemma star_lazy_first p s1 s2 k x :
  forallb p s1 = true ->
  (forall a b, s1 = a ++ b -> b <> [] -> k (b ++ s2) = None) ->
  k s2 = Some x ->
  star_lazy p (s1 ++ s2) k = Some x.
Proof.
  intros Hp Hnone Hk. induction s1 as [|c s1 IH]; simpl.
  - destruct s2; simpl; by rewrite Hk.
  - simpl in Hp. apply andb_true_iff in Hp as [-> Hp].
    pose proof (Hnone [] (c :: s1) eq_refl) as H0. simpl in H0.
    rewrite H0 by done.
    apply IH; [done|]. intros a b -> Hb. by apply (Hnone (c :: a) b).
Qed.

(** When the continuation accepts the preferred alternative, the matcher
    returns what the continuation returns there. *)
Lemma rmatch_preferred r s1 s2 g1 :
  preferred r s1 s2 g1 ->
  forall g K x, K s2 (g ++ g1) = Some x -> rmatch r (s1 ++ s2) g K = Some x.
Proof.
  induction 1 as [l s2|p s1 s2 Hp Hs|p s2|p s1 s2 Hne Hp Hs|p c s2 Hc|p s2 Hs
                 |r1 r2 s1 s2 s3 g1 g2 _ IH1 _ IH2|r s1 s2 g1 _ IH];
    intros g K x HK; simpl; rewrite ?app_nil_r in HK.
  - by rewrite strip_prefix_app.
  - by apply star_greedy_max.
  - destruct s2; simpl; by rewrite HK.
  - destruct s1 as [|c s1]; [done|]. simpl in *.
    apply andb_true_iff in Hp as [-> Hp]. by apply star_greedy_max.
  - by rewrite Hc, HK.
  - destruct s2 as [|c s2]; [done|]. simpl in Hs.
    apply negb_true_iff in Hs as ->. done.
  - rewrite <- app_assoc. apply IH1, IH2. by rewrite <- app_assoc.
  - apply IH.
    replace (length (s1 ++ s2) - length s2)%nat with (length s1)
      by (rewrite length_app; lia).
    by rewrite take_app_length, <- app_assoc.
Qed.
End PriorityFacts.

(** *** The leftmost match *)

Section LeftmostFacts.
Import Text Re Patterns Num Common Shapes Spec.

Lemma first_index_skip needle pre s :
  first_index needle (pre ++ s) = Some (length pre) ->
  forall a b, pre = a ++ b -> b <> [] -> startswith (b ++ s) needle = false.
Proof.
  induction pre as [|c pre IH]; intros H a b Hab Hb.
  - by destruct a, b.
  - simpl in H. destruct (startswith (c :: pre ++ s) needle) eqn:E; [done|].
    destruct (first_index needle (pre ++ s)) as [n|] eqn:En; [|done].
    injection H as ->. destruct a as [|c' a].
    + simpl in Hab. by subst b.
    + injection Hab as -> ->. by apply (IH eq_refl a b).
Qed.

Lemma search_span_skip r pre s :
  (forall a b, pre = a ++ b -> b <> [] -> match_here r (b ++ s) = None) ->
  search_span r (pre ++ s) = search_span r s.
Proof.
  induction pre as [|c pre IH]; intros H; [done|]. simpl.
  pose proof (H [] (c :: pre) eq_refl) as H0. simpl in H0.
  rewrite H0 by done.
  apply IH. intros a b -> Hb. by apply (H (c :: a) b).
Qed.

Lemma match_here_lit_fail l r s :
  startswith s l = false -> match_here (Cat (Lit l) r) s = None.
Proof.
  unfold startswith, match_here. simpl.
  by destruct (strip_prefix l s).
Qed.

Lemma search_span_here r s m :
  match_here r s = Some m -> search_span r s = Some m.
Proof. intros H. destruct s; simpl; by rewrite H. Qed.

(** A pattern that opens with a literal, searched in a text whose first
    occurrence of the literal starts a preferred match. *)
Lemma search_first_occurrence l r pre m rest g :
  first_index l (pre ++ m ++ rest) = Some (length pre) ->
  preferred (Cat (Lit l) r) m rest g ->
  search (Cat (Lit l) r) (pre ++ m ++ rest) = Some g.
Proof.
  intros Hfirst Hpref. unfold search.
  rewrite search_span_skip.
  - rewrite (search_span_here _ _ (g, rest)); [done|].
    unfold match_here. by apply (rmatch_preferred _ _ _ _ Hpref).
  - intros a b Hab Hb. apply match_here_lit_fail.
    by apply (first_index_skip l pre _ Hfirst a b).
Qed.
End LeftmostFacts.

(** *** Character classes *)

Section CharFacts.
Import Text Re Patterns Num Common Shapes Spec.

Lemma digit_not_space c : is_digit c = true -> is_space c = false.
Proof.
  unfold is_digit, is_space.
  intros [H1 H2]%andb_true_iff. apply N.leb_le in H1, H2.
  apply orb_false_iff. split; apply andb_false_iff; right;
    apply N.leb_gt; lia.
Qed.

Lemma space_not_digit c : is_space c = true -> is_digit c = false.
Proof.
  intros Hs. destruct (is_digit c) eqn:E; [|done].
  apply digit_not_space in E. congruence.
Qed.

Lemma class_excludes_char (p : ascii -> bool) a c :
  p a = false -> p c = true -> is_char a c = false.
Proof.
  intros Ha Hc. destruct (is_char a c) eqn:E; [|done].
  apply is_char_true in E as <-. congruence.
Qed.
End CharFacts.

(** *** The match that the parser reports on a line with a single reading *)

Section SpeedFacts.
Import Text Re Patterns Num Common Shapes Spec V1.

Lemma speed_tail_matches m g :
  matches speed_tail m g ->
  exists num ws,
    m = num ++ ws ++ txt "MB/s" /\ numeral num /\ forallb is_space ws = true.
Proof.
  unfold speed_tail. intros H. repeat inv_matches. drop_groups_by group_free_matches.
  match goal with
  | Hn : matches numeral_re ?num _, Hw : forallb is_space ?ws = true |- _ =>
      exists num, ws; split_and!; [done|by apply numeric_matches|done]
  end.
Qed.

Lemma stops_before_marker (p : ascii -> bool) ws post :
  (forall c, is_space c = true -> p c = false) -> p "M"%char = false ->
  forallb is_space ws = true ->
  stops p (ws ++ txt "MB/s" ++ post) = true.
Proof.
  intros Hsp HM Hws. destruct ws as [|c ws]; simpl.
  - by rewrite HM.
  - simpl in Hws. apply andb_true_iff in Hws as [Hc _]. by rewrite Hsp.
Qed.

Lemma numeric_preferred num rest :
  numeral num -> stops is_digit rest = true ->
  stops (is_char "."%char) rest = true ->
  preferred numeral_re num rest [].
Proof.
  intros (i & dot & f & -> & [Hne Hi] & Hdot & Hf) Hd Hp. unfold numeral_re.
  change (@nil str) with (@nil str ++ ([] ++ [])).
  destruct Hdot as [->| ->].
  - replace (i ++ [] ++ f) with ((i ++ f) ++ ([] ++ [])) by
      (by rewrite !app_nil_r).
    constructor; [|constructor]; try by constructor.
    constructor; [by destruct i|by rewrite forallb_app, Hi, Hf|done].
  - change (txt ".") with ["."%char].
    constructor; [by constructor|].
    constructor; [constructor; apply is_char_refl|by constructor].
Qed.

Lemma speed_tail_preferred num ws post :
  numeral num -> forallb is_space ws = true ->
  preferred speed_tail (num ++ ws ++ txt "MB/s") post [num].
Proof.
  intros Hnum Hws. unfold speed_tail.
  change [num] with (([] ++ [num]) ++ ([] ++ [])).
  constructor; [constructor|constructor; constructor].
  - rewrite <- app_assoc. apply numeric_preferred; [done|..].
    + apply stops_before_marker; [apply space_not_digit|done..].
    + apply stops_before_marker; [|done..].
      intros c Hc. by apply (class_excludes_char is_space).
  - done.
  - done.
Qed.

Lemma first_split (c : ascii) x y x' y' :
  x ++ c :: y = x' ++ c :: y' -> c ∉ x -> c ∉ x' -> x = x'.
Proof.
  revert x'. induction x as [|a x IH]; intros [|a' x'] H Hx Hx'; simpl in *.
  - done.
  - injection H as <- _. set_solver.
  - injection H as -> _. set_solver.
  - injection H as <- H. f_equal. apply (IH x' H); set_solver.
Qed.

Lemma numeric_chars num c :
  numeral num -> c ∈ num -> is_digit c = true \/ c = "."%char.
Proof.
  intros (i & dot & f & -> & [_ Hi] & Hdot & Hf) Hc.
  rewrite forallb_forall in Hi, Hf. setoid_rewrite <- list_elem_of_In in Hi.
  setoid_rewrite <- list_elem_of_In in Hf.
  apply elem_of_app in Hc as [Hc|Hc]; [left; auto|].
  apply elem_of_app in Hc as [Hc|Hc]; [|left; auto].
  destruct Hdot as [->| ->]; [set_solver|]. right.
  change (txt ".") with ["."%char] in Hc. set_solver.
Qed.

Lemma forallb_elem (p : ascii -> bool) s c :
  forallb p s = true -> c ∈ s -> p c = true.
Proof.
  rewrite forallb_forall. intros H Hc. by apply H, list_elem_of_In.
Qed.

(** After the gap, no shorter lazy run lets the rest of the pattern match. *)
Lemma gap_blocks_tail {R} mid num ws post g (K : str -> list str -> option R) :
  gap_match mid -> numeral num -> forallb is_space ws = true ->
  forall a b, mid = a ++ b -> b <> [] ->
    rmatch speed_tail (b ++ num ++ ws ++ txt "MB/s" ++ post) g K = None.
Proof.
  intros (Hmid & _ & b0 & z & Hz & Hzd & Hzp) Hnum Hws a b Hab Hb.
  destruct (rmatch speed_tail _ g K) as [x|] eqn:E; [exfalso|done].
  apply rmatch_sound in E as (m & rest & g1 & Heq & M & _).
  apply speed_tail_matches in M as (d & sp & -> & Hd & Hsp).
  assert (forall c, c ∈ b -> c <> "/"%char) as Hb_slash.
  { intros c Hc Hslash. subst c.
    assert ("/"%char ∈ mid) as Hin by (rewrite Hab; set_solver).
    by pose proof (forallb_elem _ _ _ Hmid Hin). }
  assert (forall s, numeral s -> "/"%char ∉ s) as Hnum_slash.
  { intros s Hs Hin. by destruct (numeric_chars _ _ Hs Hin). }
  assert (forall s, forallb is_space s = true -> "/"%char ∉ s) as Hsp_slash.
  { intros s Hs Hin. by pose proof (forallb_elem _ _ _ Hs Hin). }
  assert (b ++ num ++ ws = d ++ sp) as Hcore.
  { apply (app_inv_tail (txt "MB")).
    apply (first_split "/"%char _ (txt "s" ++ post) _ (txt "s" ++ rest)).
    - rewrite <- !app_assoc. rewrite <- !app_assoc in Heq. exact Heq.
    - rewrite !elem_of_app. intros [[?|[?|?]]|?].
      + by apply (Hb_slash "/"%char).
      + by apply (Hnum_slash num).
      + by apply (Hsp_slash ws).
      + set_solver.
    - rewrite !elem_of_app. intros [[?|?]|?].
      + by apply (Hnum_slash d).
      + by apply (Hsp_slash sp).
      + set_solver. }
  assert (exists b', b = b' ++ [z]) as [b' ->].
  { destruct (decide (b = [])) as [|_]; [done|].
    destruct (exists_last Hb) as (b' & z' & ->).
    rewrite Hz, app_assoc in Hab. apply app_inj_tail in Hab as [_ ->]. eauto. }
  destruct Hnum as (i & dot & f & -> & [Hne Hi] & _).
  destruct i as [|n0 i]; [done|]. simpl in Hi.
  apply andb_true_iff in Hi as [Hn0 _].
  apply app_eq_app in Hcore as [k [[H1 H2]|[H1 H2]]].
  - assert (n0 ∈ sp) as Hin.
    { rewrite H2, !elem_of_app. right. left. left. by left. }
    pose proof (forallb_elem _ _ _ Hsp Hin) as Hs.
    apply digit_not_space in Hn0. congruence.
  - assert (z ∈ d) as Hin.
    { rewrite H1, !elem_of_app. left. right. by left. }
    destruct (numeric_chars _ _ Hd Hin) as [?| ->]; [congruence|].
    by rewrite is_char_refl in Hzp.
Qed.

(** The speed pattern on a line with a single reading. *)
Lemma search_speed_first pre id mid num ws post :
  let line :=
    pre ++ txt "AppID " ++ id ++ mid ++ num ++ ws ++ txt "MB/s" ++ post in
  first_index (txt "AppID ") line = Some (length pre) ->
  digit_run id -> gap_match mid -> numeral num -> forallb is_space ws = true ->
  search speed_pattern line = Some [id; num].
Proof.
  intros line Hfirst [Hne Hid] Hgap Hnum Hws. unfold search, line.
  rewrite search_span_skip.
  2:{ intros a b Hab Hb. apply match_here_lit_fail.
      by apply (first_index_skip _ pre _ Hfirst a b). }
  rewrite (search_span_here _ _ ([id; num], post)); [done|].
  unfold match_here, speed_pattern. fold numeral_re.
  cbn [rmatch]. rewrite strip_prefix_app.
  destruct id as [|c id]; [done|]. simpl in Hid.
  apply andb_true_iff in Hid as [Hc Hid].
  cbn [app]. rewrite Hc.
  destruct Hgap as (Hmid & Hstop & Hlast).
  apply star_greedy_max; [done| |].
  { destruct mid; [|done]. destruct Hlast as (b & z & Hb & _). by destruct b. }
  match goal with
  | |- context [take ?n ?l] => assert (take n l = c :: id) as ->
  end.
  { etrans; [|apply (take_app_length (c :: id)
                       (mid ++ num ++ ws ++ txt "MB/s" ++ post))].
    f_equal. simpl. rewrite !length_app. lia. }
  cbn [app].
  apply star_lazy_first.
  - apply forallb_forall. intros x Hx%list_elem_of_In.
    pose proof (forallb_elem _ _ _ Hmid Hx) as H. simpl in H.
    by apply andb_true_iff in H as [? _].
  - intros a b Hab Hb.
    by apply (gap_blocks_tail mid num ws post [c :: id]
                (fun rest g => Some (g, rest)) (conj Hmid (conj Hstop Hlast))
                Hnum Hws a b).
  - pose proof (rmatch_preferred speed_tail _ post _
                  (speed_tail_preferred num ws post Hnum Hws)
                  [c :: id] (fun rest g => Some (g, rest))
                  ([c :: id; num], post) eq_refl) as H.
    rewrite <- !app_assoc in H. exact H.
Qed.

Lemma search_app_first pre id post :
  let line := pre ++ txt "AppID " ++ id ++ post in
  first_index (txt "AppID ") line = Some (length pre) ->
  digit_run id -> stops is_digit post = true ->
  search app_pattern line = Some [id].
Proof.
  intros line Hfirst [Hne Hid] Hstop. unfold line, app_pattern.
  replace (pre ++ txt "AppID " ++ id ++ post)
    with (pre ++ (txt "AppID " ++ id) ++ post) in *
    by (by rewrite <- !app_assoc).
  apply search_first_occurrence; [done|].
  change [id] with ([] ++ ([] ++ [id])).
  constructor; [constructor|]. constructor. by constructor.
Qed.
End SpeedFacts.

(** ** The cursor of the log reader *)

Section CursorFacts.
Import Text Re Patterns Num Common Shapes Spec V1.

Lemma readlines_nil : readlines [] = [].
Proof. done. Qed.

Lemma cursor_after_read (pos : nat) (content : str) :
  (pos + length (drop pos content) = pos `max` length content)%nat.
Proof. rewrite length_drop. lia. Qed.

Lemma polled_cases fs self :
  (_read_new_log_entries fs self = ([], self, [])
   \/ _read_new_log_entries fs self = ([], self, [EvPrint MsgLogReadError]))
  \/ exists path content,
       log_path self = Some path /\ truthy (log_path self) = true
       /\ path_exists fs path = true /\ read_file fs path = Returns content
       /\ _read_new_log_entries fs self =
            (readlines (drop (last_position self) content),
             {| steam_path := steam_path self;
                log_path := log_path self;
                last_position :=
                  (last_position self `max` length content)%nat |}, []).
Proof.
  unfold _read_new_log_entries.
  destruct (log_path self) as [path|] eqn:Hp; [|by left; left].
  destruct (truthy (Some path)) eqn:Ht; simpl; [|by left; left].
  destruct (path_exists fs path) eqn:He; simpl; [|by left; left].
  destruct (read_file fs path) as [content|e] eqn:Hr; [|by left; right].
  right. exists path, content. by rewrite cursor_after_read.
Qed.

Lemma polled_monotone fs self :
  (last_position self <= last_position (polled fs self))%nat.
Proof.
  unfold polled.
  destruct (polled_cases fs self) as [[-> | ->]|(p & c & _ & _ & _ & _ & ->)];
    simpl; lia.
Qed.

Lemma poll_cursors_sorted snapshots : forall self,
  Sorted le (last_position self :: poll_cursors self snapshots).
Proof.
  induction snapshots as [|fs rest IH]; intros self; simpl.
  - repeat constructor.
  - constructor; [apply IH|]. constructor. apply polled_monotone.
Qed.

Lemma polled_readable fs self path content :
  log_path self = Some path -> truthy (log_path self) = true ->
  path_exists fs path = true -> read_file fs path = Returns content ->
  last_position (polled fs self)
    = (last_position self `max` length content)%nat
  /\ batch fs self = readlines (drop (last_position self) content).
Proof.
  intros Hp Ht He Hr. unfold polled, batch, _read_new_log_entries.
  rewrite Hp in *. rewrite Ht, He, Hr. simpl.
  by rewrite cursor_after_read.
Qed.

Lemma polled_missing fs self :
  (forall path, log_path self = Some path -> path_exists fs path = false) ->
  _read_new_log_entries fs self = ([], self, []).
Proof.
  intros H. unfold _read_new_log_entries.
  destruct (log_path self) as [path|]; [|done].
  rewrite (H path eq_refl). by rewrite orb_true_r.
Qed.

Lemma batch_empty_at_end fs self path content :
  log_path self = Some path -> read_file fs path = Returns content ->
  (length content <= last_position self)%nat ->
  batch fs self = [].
Proof.
  intros Hp Hr Hlen. unfold batch, _read_new_log_entries. rewrite Hp.
  destruct (_ || _); [done|]. rewrite Hr. simpl.
  by rewrite drop_ge.
Qed.

Lemma polled_keeps_path fs self : log_path (polled fs self) = log_path self.
Proof.
  unfold polled.
  by destruct (polled_cases fs self)
    as [[-> | ->]|(p & c & _ & _ & _ & _ & ->)].
Qed.
End CursorFacts.

(** ** Rationals *)

Section NumberFacts.
Import Text Re Patterns Num Common Shapes Spec.

Lemma Qltb_true x y : Qltb x y = true <-> (x < y)%Q.
Proof.
  unfold Qltb. rewrite Qlt_alt. destruct (x ?= y)%Q; split; congruence.
Qed.

Lemma Qltb_false x y : Qltb x y = false <-> (y <= x)%Q.
Proof.
  rewrite <- not_true_iff_false, Qltb_true. split.
  - apply Qnot_lt_le.
  - intros H1 H2. by apply (Qlt_not_le _ _ H2).
Qed.

Lemma max0_nonneg x : (0 <= max0 x)%Q.
Proof.
  unfold max0. destruct (Qltb 0 x) eqn:E.
  - apply Qltb_true in E. by apply Qlt_le_weak.
  - apply Qle_refl.
Qed.
End NumberFacts.

(** ** The size sampler *)

Section SamplerFacts.
Import Text Re Patterns Num Common Shapes Spec V2.

(** With a list for [download_stats], indexing by the identifier raises,
    whether or not the identifier is an element of the list. *)
Lemma estimate_body_on_list items id total now :
  estimate_body (PyList items) id total now = Raises TypeError.
Proof. unfold estimate_body. simpl. by destruct (existsb _ items). Qed.

Lemma estimate_on_list fs now self id folder items :
  download_stats self = PyList items ->
  _estimate_download_speed fs now self id folder = (0%Q, self).
Proof.
  intros H. unfold _estimate_download_speed. rewrite H.
  destruct (negb _); [done|]. by rewrite estimate_body_on_list.
Qed.

(** With a dictionary the same code computes the rate of the size change
    and stores the new sample. *)
Lemma estimate_body_on_dict entries id total now last_size last_time :
  entries !! id = Some (last_size, last_time) ->
  (last_time < now)%Q ->
  estimate_body (PyDict entries) id total now =
    Returns (max0 (inject_Z (total - last_size) / (now - last_time)
                   / inject_Z 1048576)%Q,
             PyDict (<[id := (total, now)]> entries)).
Proof.
  intros Hl Ht. unfold estimate_body. simpl.
  rewrite bool_decide_eq_true_2 by (by rewrite Hl). rewrite Hl. simpl.
  assert (Qltb 0 (now - last_time) = true) as ->; [|done].
  apply Qltb_true. unfold Qminus. rewrite <- (Qplus_opp_r last_time).
  by apply Qplus_lt_l.
Qed.
End SamplerFacts.

(** ** The activity classifier *)

Section ClassifierFacts.
Import Text Re Patterns Num Common Shapes Spec V2.

Lemma py_max_l a b : (a <= py_max a b)%Q.
Proof.
  unfold py_max. destruct (Qltb a b) eqn:E.
  - apply Qltb_true in E. by apply Qlt_le_weak.
  - apply Qle_refl.
Qed.

Lemma py_max_r a b : (b <= py_max a b)%Q.
Proof.
  unfold py_max. destruct (Qltb a b) eqn:E.
  - apply Qle_refl.
  - by apply Qltb_false.
Qed.

Lemma latest_fold_ge files : forall acc,
  (acc <= fold_left latest_step files acc)%Q.
Proof.
  induction files as [|f files IH]; intros acc; simpl; [apply Qle_refl|].
  eapply Qle_trans; [|apply IH]. unfold latest_step.
  destruct (st_exists f); [apply py_max_l|apply Qle_refl].
Qed.

Lemma latest_fold_bound files f : forall acc,
  f ∈ files -> st_exists f = true ->
  (st_mtime f <= fold_left latest_step files acc)%Q.
Proof.
  induction files as [|f' files IH]; intros acc Hin Hex; [by inversion Hin|].
  simpl. apply elem_of_cons in Hin as [->|Hin]; [|by apply IH].
  eapply Qle_trans; [|apply latest_fold_ge]. unfold latest_step.
  rewrite Hex. apply py_max_r.
Qed.

Lemma latest_fold_attained files : forall acc,
  fold_left latest_step files acc = acc
  \/ exists f, f ∈ files /\ st_exists f = true
               /\ fold_left latest_step files acc = st_mtime f.
Proof.
  induction files as [|f files IH]; intros acc; simpl; [by left|].
  destruct (IH (latest_step acc f)) as [H|(f' & Hin & Hex & H)].
  - rewrite H. unfold latest_step. destruct (st_exists f) eqn:Hex; [|by left].
    unfold py_max. destruct (Qltb acc (st_mtime f)); [|by left].
    right. exists f. split_and!; [by left|done..].
  - right. exists f'. split_and!; [by right|done..].
Qed.

(** [latest_mtime] is the largest modification time of the files of the
    walk that exist, and 0 when none is later than the epoch. *)
Lemma latest_mtime_is_max files :
  (0 <= latest_mtime_of files)%Q
  /\ (forall f, f ∈ files -> st_exists f = true ->
        (st_mtime f <= latest_mtime_of files)%Q)
  /\ (latest_mtime_of files = 0%Q
      \/ exists f, f ∈ files /\ st_exists f = true
                   /\ latest_mtime_of files = st_mtime f).
Proof.
  unfold latest_mtime_of. change (fun latest f => _) with latest_step.
  split_and!.
  - apply latest_fold_ge.
  - intros f. apply latest_fold_bound.
  - apply latest_fold_attained.
Qed.

Lemma status_of_downloading b : status_of b = Downloading <-> b = true.
Proof. destruct b; simpl; split; congruence. Qed.

Lemma is_active_present fs now folder :
  path_exists fs folder = true ->
  is_active fs now folder = true
  <-> (now - latest_mtime_of (walk fs folder) < 120)%Q.
Proof. intros H. unfold is_active. rewrite H. apply Qltb_true. Qed.

Lemma is_active_missing fs now folder :
  path_exists fs folder = false -> is_active fs now folder = false.
Proof. intros H. unfold is_active. by rewrite H. Qed.
End ClassifierFacts.

(** ** The discovery of the active set *)

Section DiscoveryFacts.
Import Text Re Patterns Num Common Shapes Spec V2.

Lemma scan_file_elem fs folder acc file x :
  x ∈ scan_file fs folder acc file
  <-> x ∈ acc \/ (candidate fs folder file = true /\ x = app_id_of file).
Proof.
  unfold scan_file, candidate, flags_active, is_manifest, app_id_of,
    staging_folder.
  destruct (startswith file _ && endswith file _); simpl; [|naive_solver].
  destruct (path_exists fs _); simpl.
  - assert (forall l : list str,
              (x ∈ l <-> x ∈ acc ++ [replace (replace file (txt "appmanifest_") [])
                                        (txt ".acf") []]) ->
              (x ∈ l <-> x ∈ acc \/ (true = true /\
                 x = replace (replace file (txt "appmanifest_") []) (txt ".acf") [])))
      as Hgen.
    { intros l ->. rewrite elem_of_app, list_elem_of_singleton. naive_solver. }
    apply Hgen.
    repeat case_match; try done.
    rewrite elem_of_app, list_elem_of_singleton.
    case_bool_decide; naive_solver.
  - destruct (read_file fs _); [|naive_solver].
    destruct (contains _ _); simpl; [|naive_solver].
    destruct (search _ _); [|naive_solver].
    destruct (bool_decide (group 1 _ ∈ _)); [|naive_solver].
    case_bool_decide.
    + naive_solver.
    + rewrite elem_of_app, list_elem_of_singleton. naive_solver.
Qed.

Lemma scan_files_elem fs folder files x : forall acc,
  x ∈ fold_left (scan_file fs folder) files acc
  <-> x ∈ acc
      \/ exists file, file ∈ files /\ candidate fs folder file = true
                      /\ x = app_id_of file.
Proof.
  induction files as [|file files IH]; intros acc; simpl.
  - split; [by left|]. intros [H|(f & Hf & _)]; [done|by inversion Hf].
  - rewrite IH, scan_file_elem. split.
    + intros [[H|[Hc ->]]|(f & Hf & Hc & ->)].
      * by left.
      * right. exists file. split_and!; [by left|done..].
      * right. exists f. split_and!; [by right|done..].
    + intros [H|(f & Hf & Hc & ->)]; [by left; left|].
      apply elem_of_cons in Hf as [->|Hf].
      * left. by right.
      * right. by exists f.
Qed.

(** What the scan of the library folders returns: the identifiers it
    started with, and those of the candidates found in a folder. *)
Lemma scan_folders_elem fs folders x : forall acc l,
  scan_folders fs folders acc = Returns l ->
  x ∈ l
  <-> x ∈ acc
      \/ exists folder files file,
           folder ∈ folders /\ path_exists fs folder = true
           /\ listdir fs folder = Returns files /\ file ∈ files
           /\ candidate fs folder file = true /\ x = app_id_of file.
Proof.
  induction folders as [|folder folders IH]; intros acc l H; simpl in H.
  - injection H as ->. split; [by left|].
    intros [?|(f & ? & ? & Hf & _)]; [done|by inversion Hf].
  - destruct (path_exists fs folder) eqn:He; simpl in H.
    + destruct (listdir fs folder) as [files|] eqn:Hl; [|done]. simpl in H.
      rewrite (IH _ _ H), scan_files_elem. split.
      * intros [[?|(file & Hf & Hc & ->)]|(fo & fi & file & Hfo & ?)].
        -- by left.
        -- right. exists folder, files, file. split_and!; [by left|done..].
        -- right. exists fo, fi, file. split; [by right|done].
      * intros [?|(fo & fi & file & Hfo & Hex & Hli & Hfi & Hc & ->)];
          [by left; left|].
        apply elem_of_cons in Hfo as [->|Hfo].
        -- left. right. exists file. rewrite Hl in Hli. injection Hli as <-.
           done.
        -- right. by exists fo, fi, file.
    + rewrite (IH _ _ H). split.
      * intros [?|(fo & fi & file & Hfo & ?)]; [by left|].
        right. exists fo, fi, file. split; [by right|done].
      * intros [?|(fo & fi & file & Hfo & Hex & ?)]; [by left|].
        apply elem_of_cons in Hfo as [->|Hfo]; [congruence|].
        right. by exists fo, fi, file.
Qed.

Lemma scan_folders_returns fs folders : forall acc,
  (forall folder, folder ∈ folders -> path_exists fs folder = true ->
     exists files, listdir fs folder = Returns files) ->
  exists l, scan_folders fs folders acc = Returns l.
Proof.
  induction folders as [|folder folders IH]; intros acc H; simpl; [eauto|].
  destruct (path_exists fs folder) eqn:He; simpl.
  - destruct (H folder) as [files ->]; [by left|done|]. simpl.
    apply IH. intros fo Hfo. apply H. by right.
  - apply IH. intros fo Hfo. apply H. by right.
Qed.
End DiscoveryFacts.

(** ** The status records *)

Section RecordFacts.
Import Text Re Patterns Num Common Shapes Spec V2.

Lemma download_entry_paused fs now root self id :
  dl_status (download_entry fs now root self id).1 = Paused ->
  speed_mbps (download_entry fs now root self id).1 = 0%Q.
Proof.
  unfold download_entry.
  destruct (_estimate_download_speed fs now self id _) as [speed self'].
  simpl. by destruct (is_active fs now _).
Qed.

Lemma download_entries_paused fs now root ids : forall self d,
  d ∈ (download_entries fs now root self ids).1 ->
  dl_status d = Paused -> speed_mbps d = 0%Q.
Proof.
  induction ids as [|id ids IH]; intros self d; simpl; [by inversion 1|].
  pose proof (download_entry_paused fs now root self id) as Hd.
  destruct (download_entry fs now root self id) as [d0 self'].
  specialize (IH self' d).
  destruct (download_entries fs now root self' ids) as [ds self''].
  simpl in *. intros [->|Hin]%elem_of_cons; auto.
Qed.
End RecordFacts.

(** ** The monitor loops *)

Section LoopFacts.
Import Text Re Patterns Num Common Shapes Spec.

Lemma init_unresolved_v1 reg fs :
  probe_registry reg fs registry_paths = None ->
  V1.steam_path (V1.__init__ reg fs).1 = None.
Proof.
  intros H. unfold V1.__init__, V1._find_steam_path. by rewrite H.
Qed.

Lemma init_unresolved_v2 reg fs :
  probe_registry reg fs registry_paths = None ->
  V2.steam_path (V2.__init__ reg fs) = None.
Proof. intros H. unfold V2.__init__, V2._find_steam_path. by rewrite H. Qed.

Lemma monitor_v1_not_found fuel fs_at start self minutes seconds :
  truthy (V1.steam_path self) = false ->
  V1.monitor fuel fs_at start self minutes seconds
    = Some (Returns tt, self, [EvPrint MsgSteamNotFound]).
Proof. intros H. unfold V1.monitor. by rewrite H. Qed.

Lemma monitor_v2_not_found fuel fs_at start self minutes seconds :
  truthy (V2.steam_path self) = false ->
  V2.monitor fuel fs_at start self minutes seconds
    = Some (Returns tt, self, [EvPrint MsgSteamNotFound]).
Proof. intros H. unfold V2.monitor. by rewrite H. Qed.

(** A run of one minute with checks 90 seconds apart: one check, then a
    sleep of the 60 seconds that remain. *)
Example monitor_one_minute_one_check :
  let self := (V1.__init__ Scenario.reg (Scenario.fs_log Scenario.log_long)).1 in
  exists self' trace,
    V1.monitor 5 (fun _ => Scenario.fs_log Scenario.log_long) 1000 self 1 90
      = Some (Returns tt, self', trace)
    /\ polls trace = 1%nat
    /\ List.filter is_sleep trace = [EvSleep 60%Q].
Proof. vm_compute. eexists _, _. split_and!; reflexivity. Qed.
End LoopFacts.

(** ** The words of the specification and the classes of the matcher *)

Section WordFacts.
Import Text Re Patterns Num Common Shapes Spec.

Lemma decimal_digit_class c : decimal_digit c <-> is_digit c = true.
Proof.
  unfold decimal_digit.
  assert (bool_decide (c ∈ txt "0123456789") = is_digit c) as <-
    by (by destruct c as [[] [] [] [] [] [] [] []]).
  symmetry. apply bool_decide_eq_true.
Qed.

Lemma white_class c : white c <-> is_space c = true.
Proof.
  unfold white.
  assert (bool_decide
            (c ∈ map ascii_of_nat [9; 10; 11; 12; 13; 28; 29; 30; 31; 32]%nat)
          = is_space c) as <-
    by (by destruct c as [[] [] [] [] [] [] [] []]).
  symmetry. apply bool_decide_eq_true.
Qed.

Lemma line_feed_class c : c <> line_feed <-> is_dot c = true.
Proof.
  assert (bool_decide (c <> line_feed) = is_dot c) as <-
    by (by destruct c as [[] [] [] [] [] [] [] []]).
  symmetry. apply bool_decide_eq_true.
Qed.

Lemma Forall_class (P : ascii -> Prop) (p : ascii -> bool) s :
  (forall c, P c <-> p c = true) -> Forall P s <-> forallb p s = true.
Proof.
  intros H. induction s as [|c s IH]; simpl; [by split|].
  rewrite Forall_cons, andb_true_iff, IH. by rewrite H.
Qed.

Lemma digits_run s : digits s <-> digit_run s.
Proof.
  unfold digits, digit_run.
  by rewrite (Forall_class _ _ s decimal_digit_class).
Qed.

Lemma numeric_numeral s : numeric s <-> numeral s.
Proof.
  unfold numeric, numeral. split.
  - intros (i & dot & f & -> & Hi & Hdot & Hf). exists i, dot, f.
    split_and!; [done|by apply digits_run|done|].
    by apply (Forall_class _ _ f decimal_digit_class).
  - intros (i & dot & f & -> & Hi & Hdot & Hf). exists i, dot, f.
    split_and!; [done|by apply digits_run|done|].
    by apply (Forall_class _ _ f decimal_digit_class).
Qed.

Lemma ends_run_stops s : ends_run s <-> stops is_digit s = true.
Proof.
  unfold ends_run. destruct s as [|c s]; simpl.
  - split; [done|]. by intros _ c rest.
  - rewrite negb_true_iff, <- not_true_iff_false, <- decimal_digit_class.
    split; [intros H; by apply (H c s)|by intros H c' s' [= <- <-]].
Qed.

Lemma no_line_feed s : line_feed ∉ s <-> forallb is_dot s = true.
Proof.
  rewrite <- (Forall_class (fun c => c <> line_feed) is_dot s line_feed_class).
  rewrite Forall_forall. split.
  - intros H c Hc ->. done.
  - intros H Hin. by apply (H line_feed).
Qed.

Lemma speed_reading_match line id num :
  speed_reading line id num <-> speed_match line id num.
Proof.
  unfold speed_reading, speed_match. split.
  - intros (pre & mid & ws & post & -> & Hid & Hmid & Hnum & Hws).
    exists pre, mid, ws, post.
    split_and!; [done|by apply digits_run|by apply no_line_feed
                |by apply numeric_numeral|].
    by apply (Forall_class _ _ ws white_class).
  - intros (pre & mid & ws & post & -> & Hid & Hmid & Hnum & Hws).
    exists pre, mid, ws, post.
    split_and!; [done|by apply digits_run|by apply no_line_feed
                |by apply numeric_numeral|].
    by apply (Forall_class _ _ ws white_class).
Qed.

Lemma speed_line_reading line id num :
  speed_line line id num -> speed_reading line id num.
Proof.
  intros (pre & mid & ws & post & -> & Hid & _ & _ & Hlf & Hnum & Hws).
  exists pre, mid, ws, post. split_and!; try done.
  intros H. apply Hlf, elem_of_app. by right.
Qed.

Lemma token_digits_match line id : token_digits line id <-> token_match line id.
Proof.
  unfold token_digits, token_match. split.
  - intros (pre & post & -> & Hid). exists pre, post.
    split; [done|by apply digits_run].
  - intros (pre & post & -> & Hid). exists pre, post.
    split; [done|by apply digits_run].
Qed.

Lemma identifier_token_digits line id :
  identifier_token line id -> token_digits line id.
Proof. intros (pre & post & -> & Hid & _). by exists pre, post. Qed.

(** A small letter and the characters that [lower] maps to it. *)
Lemma lower_char_same k c :
  (97 <= N_of_ascii k <= 122)%N -> lower_char c = k <-> same_letter k c.
Proof.
  intros Hk. unfold lower_char, same_letter, code.
  destruct ((65 <=? N_of_ascii c)%N && (N_of_ascii c <=? 90)%N) eqn:Hup.
  - apply andb_true_iff in Hup as [Hlo Hhi].
    apply N.leb_le in Hlo, Hhi. split.
    + intros <-. right. rewrite N_ascii_embedding by lia. lia.
    + intros [->|[_ Hc]]; [lia|].
      rewrite Hc. apply ascii_N_embedding.
  - split; [by left|]. intros [->|[_ Hc]]; [done|].
    apply andb_false_iff in Hup as [Hlo|Hhi].
    + apply N.leb_gt in Hlo. lia.
    + apply N.leb_gt in Hhi. lia.
Qed.

Lemma lower_same kw : forall w,
  Forall (fun k => (97 <= N_of_ascii k <= 122)%N) kw ->
  lower w = kw <-> Forall2 same_letter kw w.
Proof.
  unfold lower. induction kw as [|k kw IH]; intros w Hkw.
  - destruct w as [|c w]; simpl.
    + split; [constructor|done].
    + split; [done|by inversion 1].
  - apply Forall_cons in Hkw as [Hk Hkw]. destruct w as [|c w]; simpl.
    + split; [done|by inversion 1].
    + split.
      * intros [= Hc Hw]. constructor; [by apply lower_char_same|by apply IH].
      * inversion 1; subst. f_equal; [by apply lower_char_same|by apply IH].
Qed.

Lemma occurs_ci_folded kw line :
  Forall (fun k => (97 <= N_of_ascii k <= 122)%N) kw ->
  occurs_ci kw line <-> folded_occurs kw line.
Proof.
  intros Hkw. unfold occurs_ci, folded_occurs. split.
  - intros (pre & w & post & -> & Hw). exists pre, w, post.
    split; [done|by apply lower_same].
  - intros (pre & w & post & -> & Hw). exists pre, w, post.
    split; [done|by apply lower_same].
Qed.

Lemma pause_keyword_folded line : pause_keyword line <-> folded_keyword line.
Proof.
  assert (forall kw, Forall (fun k => (97 <=? N_of_ascii k)%N
                                       && (N_of_ascii k <=? 122)%N = true) kw ->
                     Forall (fun k => (97 <= N_of_ascii k <= 122)%N) kw) as Hsmall.
  { intros kw H. eapply Forall_impl; [exact H|].
    intros k [H1 H2]%andb_true_iff.
    apply N.leb_le in H1, H2. lia. }
  unfold pause_keyword, folded_keyword.
  rewrite !occurs_ci_folded by (apply Hsmall; by repeat constructor).
  done.
Qed.

Lemma pause_keyword_code line :
  V1.has_pause_keyword line = true <-> pause_keyword line.
Proof. by rewrite pause_keyword_folded, has_pause_keyword_true. Qed.

End WordFacts.

(** *** The choices of the matcher: the longest run and the leftmost start *)

Section ChoiceFacts.
Import Text Re Patterns Num Common Shapes Spec.
Context {R : Type}.
Implicit Types (k : str -> option R).

(** What a greedy repetition returns comes from the longest run that the
    continuation accepts. *)
Lemma star_greedy_longest p s k x :
  star_greedy p s k = Some x ->
  exists s1 s2,
    s = s1 ++ s2 /\ forallb p s1 = true /\ k s2 = Some x
    /\ forall a b, s2 = a ++ b -> a <> [] -> forallb p a = true -> k b = None.
Proof.
  induction s as [|c s IH]; simpl; intros H.
  - exists [], []. split_and!; try done. intros a b Hab Ha. by destruct a.
  - assert (p c = false -> exists s1 s2,
              c :: s = s1 ++ s2 /\ forallb p s1 = true /\ k s2 = k (c :: s)
              /\ forall a b, s2 = a ++ b -> a <> [] -> forallb p a = true ->
                   k b = None) as Hstop.
    { intros Hc. exists [], (c :: s). split_and!; try done.
      intros a b Hab Ha Hp. destruct a as [|c' a]; [done|].
      injection Hab as <- _. simpl in Hp. by rewrite Hc in Hp. }
    destruct (p c) eqn:Hc.
    + destruct (star_greedy p s k) as [y|] eqn:E.
      * injection H as ->. destruct (IH eq_refl) as (s1 & s2 & -> & Hp & Hk & Hmax).
        exists (c :: s1), s2. simpl. rewrite Hc. by split_and!.
      * exists [], (c :: s). split_and!; try done.
        intros a b Hab Ha Hp. destruct a as [|c' a]; [done|].
        injection Hab as <- ->. simpl in Hp. apply andb_true_iff in Hp as [_ Hp].
        destruct (k b) as [z|] eqn:Hb; [|done].
        destruct (star_greedy_complete p a b k Hp) as [w Hw]; [by rewrite Hb|].
        congruence.
    + destruct (Hstop eq_refl) as (s1 & s2 & ? & ? & Hk & ?).
      exists s1, s2. split_and!; try done. by rewrite Hk.
Qed.
End ChoiceFacts.

Section LeftmostLongest.
Import Text Re Patterns Num Common Shapes Spec.

(** [re.search] returns the match at the leftmost start: no match starts
    earlier. *)
Lemma search_span_leftmost r s g rest :
  search_span r s = Some (g, rest) ->
  exists pre m,
    s = pre ++ m ++ rest /\ match_here r (m ++ rest) = Some (g, rest)
    /\ matches r m g
    /\ forall a b, pre = a ++ b -> b <> [] ->
         match_here r (b ++ m ++ rest) = None.
Proof.
  induction s as [|c s IH]; simpl; intros H.
  - destruct (match_here r []) as [[g' rest']|] eqn:E; [|done].
    injection H as -> ->. pose proof E as E'.
    apply match_here_sound in E' as (m & Hm & M).
    exists [], m. simpl. rewrite <- Hm. split_and!; try done.
    intros a b Hab Hb. by destruct a, b.
  - destruct (match_here r (c :: s)) as [[g' rest']|] eqn:E.
    + injection H as -> ->. pose proof E as E'.
      apply match_here_sound in E' as (m & Hm & M).
      exists [], m. simpl. rewrite <- Hm. split_and!; try done.
      intros a b Hab Hb. by destruct a, b.
    + destruct (IH H) as (pre & m & -> & Hhere & M & Hleft).
      exists (c :: pre), m. split_and!; try done.
      intros a b Hab Hb. destruct a as [|c' a].
      * simpl in Hab. subst b. exact E.
      * injection Hab as <- ->. by apply (Hleft a b).
Qed.

Lemma match_here_None r m g rest :
  match_here r (m ++ rest) = None -> ~ matches r m g.
Proof.
  intros H M. destruct (match_here_complete r m g rest M) as [x Hx]. congruence.
Qed.

(** A pattern that opens with a literal and a group of one or more
    characters of a class: among the matches at the start, the matcher
    returns one with the longest group 1. *)
Lemma longest_head_group l p r' id2 m2 g2 rest2 g rest :
  match_here (Cat (Lit l) (Cat (Group (Plus p)) r'))
    (l ++ id2 ++ m2 ++ rest2) = Some (g, rest) ->
  id2 <> [] -> forallb p id2 = true -> matches r' m2 g2 ->
  (length id2 <= length (group 1 g))%nat.
Proof.
  unfold match_here. cbn [rmatch]. rewrite strip_prefix_app.
  intros H Hne Hp M. destruct id2 as [|c t2]; [done|]. clear Hne.
  simpl in Hp. apply andb_true_iff in Hp as [Hc Hp].
  cbn [app] in H. rewrite Hc in H.
  apply star_greedy_longest in H as (s1 & s2 & Heq & Hs1 & Hk & Hmax).
  apply rmatch_sound in Hk as (m1 & rest1 & g1 & -> & M1 & [= <- <-]).
  rewrite Heq.
  assert (take (S (length (s1 ++ m1 ++ rest1)) - length (m1 ++ rest1))
            (c :: s1 ++ m1 ++ rest1) = c :: s1) as ->.
  { apply (take_app_length' (c :: s1) (m1 ++ rest1)).
    simpl. rewrite !length_app. lia. }
  cbn [app group nth Nat.sub]. simpl.
  destruct (decide (length t2 <= length s1)%nat) as [|Hlong]; [lia|].
  exfalso.
  apply app_eq_app in Heq as [x [[-> Hx]|[-> Hx]]];
    [|rewrite length_app in Hlong; lia].
  - destruct x as [|d x]; [rewrite app_nil_r in Hlong; lia|].
    rewrite forallb_app in Hp. apply andb_true_iff in Hp as [_ Hx'].
    specialize (Hmax (d :: x) (m2 ++ rest2) Hx ltac:(done) Hx').
    simpl in Hmax.
    match type of Hmax with
    | rmatch r' _ ?g0 ?K = None =>
        destruct (rmatch_complete r' m2 g2 M rest2 g0 K) as [y Hy];
          [done|congruence]
    end.
Qed.
End LeftmostLongest.

(** *** The identifier token and the number that the parser reports *)

Section TokenFacts.
Import Text Re Patterns Num Common Shapes Spec.

(** The longest run of a class at the head of a text. *)
Lemma class_prefix (p : ascii -> bool) s :
  exists run tail, s = run ++ tail /\ forallb p run = true /\ stops p tail = true.
Proof.
  induction s as [|c s (run & tail & -> & Hrun & Htail)].
  - by exists [], [].
  - destruct (p c) eqn:Hc.
    + exists (c :: run), tail. simpl. by rewrite Hc.
    + exists [], (c :: run ++ tail). simpl. by rewrite Hc.
Qed.

Lemma class_prefix_le (p : ascii -> bool) a x run tail :
  a ++ x = run ++ tail -> forallb p a = true -> stops p tail = true ->
  exists b, run = a ++ b.
Proof.
  revert run. induction a as [|c a IH]; intros run Heq Ha Htail; [by eexists|].
  simpl in Ha. apply andb_true_iff in Ha as [Hc Ha].
  destruct run as [|d run].
  - simpl in Heq. subst tail. simpl in Htail. by rewrite Hc in Htail.
  - injection Heq as <- Heq. destruct (IH run Heq Ha Htail) as [b ->].
    by exists b.
Qed.

Lemma class_prefix_unique (p : ascii -> bool) run1 tail1 run2 tail2 :
  run1 ++ tail1 = run2 ++ tail2 ->
  forallb p run1 = true -> stops p tail1 = true ->
  forallb p run2 = true -> stops p tail2 = true ->
  run1 = run2 /\ tail1 = tail2.
Proof.
  intros Heq H1 Ht1 H2 Ht2.
  destruct (class_prefix_le p run1 tail1 run2 tail2 Heq H1 Ht2) as [b ->].
  symmetry in Heq.
  destruct (class_prefix_le p (run1 ++ b) tail2 run1 tail1 Heq H2 Ht1) as [b' Hb].
  assert (b = []) as ->.
  { apply (f_equal length) in Hb. rewrite !length_app in Hb.
    destruct b; [done|simpl in Hb; lia]. }
  rewrite app_nil_r in *. split; [done|]. by apply app_inv_head in Heq.
Qed.

(** Two starts of [AppID] and a space lie apart: the second one comes
    after the digits that follow the first. *)
Lemma token_start_apart run y restT tail :
  forallb is_digit run = true -> y <> [] ->
  y ++ txt "AppID " ++ restT = txt "AppID " ++ run ++ tail ->
  exists x, y = txt "AppID " ++ run ++ x /\ tail = x ++ txt "AppID " ++ restT.
Proof.
  intros Hrun Hy Heq.
  rewrite (app_assoc (txt "AppID ") run tail) in Heq.
  apply app_eq_app in Heq as [k [[-> Hk]|[Hk Hk']]].
  - exists k. by rewrite <- app_assoc.
  - destruct k as [|c k].
    + exists []. rewrite app_nil_r in Hk. rewrite app_nil_r. by split.
    + exfalso. cbn [app txt String.list_ascii_of_string] in Hk'.
      injection Hk' as <- _.
      destruct y as [|d y]; [done|].
      cbn [app txt String.list_ascii_of_string] in Hk.
      injection Hk as _ Hk.
      assert ("A"%char ∈ txt "ppID " ++ run) as Hin.
      { change (String.list_ascii_of_string "ppID ") with (txt "ppID ") in Hk.
        cbn [txt String.list_ascii_of_string app]. rewrite Hk.
        apply elem_of_app. right. apply list_elem_of_here. }
      apply elem_of_app in Hin as [Hin|Hin].
      * vm_compute in Hin.
        by repeat (apply elem_of_cons in Hin as [Hin|Hin]; [discriminate Hin|]);
          inversion Hin.
      * by pose proof (forallb_elem _ _ _ Hrun Hin).
Qed.

(** On a line of shape (a) the speed pattern matches, and the match that
    [re.search] returns is a reading of the line in shape (a): group 1 is a
    whole identifier token. *)
Lemma search_speed_strict line id0 num0 :
  speed_line line id0 num0 ->
  exists id num,
    search speed_pattern line = Some [id; num] /\ speed_line line id num.
Proof.
  intros Hstrict.
  destruct (search_speed_complete line id0 num0) as [g Hg];
    [by apply speed_reading_match, speed_line_reading|].
  destruct Hstrict
    as (preT & midT & wsT & postT & Hline & HidT & HmidT & HendT & HlfT
        & HnumT & HwsT).
  apply digits_run in HidT. apply ends_run_stops in HendT.
  apply numeric_numeral in HnumT.
  apply (Forall_class _ _ wsT white_class) in HwsT.
  apply no_line_feed in HlfT. rewrite forallb_app in HlfT.
  apply andb_true_iff in HlfT as [HpreT HmidTd].
  pose proof Hg as Hs. unfold search in Hs.
  destruct (search_span speed_pattern line) as [[g' rest]|] eqn:Hspan; [|done].
  injection Hs as ->.
  apply search_span_leftmost in Hspan as (pre & m & Hline' & Hhere & M & Hleft).
  apply speed_pattern_matches in M
    as (id & mid & num & ws & -> & -> & Hid & Hmid & Hnum & Hws).
  exists id, num. split; [done|].
  (* the strict reading does not start before the match *)
  set (restT := id0 ++ midT ++ num0 ++ wsT ++ txt "MB/s" ++ postT) in *.
  set (after := id ++ mid ++ num ++ ws ++ txt "MB/s" ++ rest).
  assert (exists y, preT = pre ++ y
                    /\ y ++ txt "AppID " ++ restT = txt "AppID " ++ after)
    as (y & -> & Hy).
  { assert (matches speed_pattern
              (txt "AppID " ++ id0 ++ midT ++ num0 ++ wsT ++ txt "MB/s")
              [id0; num0]) as MT.
    { apply speed_pattern_matches. by exists id0, midT, num0, wsT. }
    rewrite Hline in Hline'.
    apply app_eq_app in Hline' as [k [[-> Hk]|[-> Hk]]].
    - exists k. split; [done|]. rewrite <- Hk. unfold after.
      by rewrite <- !app_assoc.
    - destruct k as [|c k].
      + exists []. rewrite !app_nil_r. split; [done|]. simpl in Hk.
        simpl. rewrite Hk. unfold after. by rewrite <- !app_assoc.
      + exfalso. apply (match_here_None _ _ _ postT) in MT; [done|].
        rewrite <- (Hleft preT (c :: k) eq_refl ltac:(done)).
        f_equal. rewrite <- Hk. unfold restT. by rewrite <- !app_assoc. }
  (* the whole run of digits after the start of the match *)
  destruct (class_prefix is_digit after) as (run & tail & Hafter & Hrun & Htail).
  destruct Hid as [Hidne Hidd].
  destruct (class_prefix_le is_digit id
              (mid ++ num ++ ws ++ txt "MB/s" ++ rest) run tail Hafter Hidd Htail)
    as [more Hmore].
  (* a match at the same start whose group 1 is the whole run *)
  assert (exists mid2,
            tail = mid2 ++ num0 ++ wsT ++ txt "MB/s" ++ postT
            /\ forallb is_dot mid2 = true)
    as (mid2 & Htail2 & Hmid2).
  { destruct y as [|c y].
    - cbn [app] in Hy. apply (app_inv_head (txt "AppID ")) in Hy.
      rewrite Hafter in Hy.
      unfold restT in Hy. destruct HidT as [_ HidTd].
      destruct (class_prefix_unique is_digit id0
                  (midT ++ num0 ++ wsT ++ txt "MB/s" ++ postT) run tail Hy)
        as [_ <-]; try done.
      + destruct midT; [done|]. exact HendT.
      + by exists midT.
    - rewrite Hafter in Hy.
      destruct (token_start_apart run (c :: y) restT tail Hrun ltac:(done) Hy)
        as (x & Hx & ->).
      exists (x ++ txt "AppID " ++ id0 ++ midT). split.
      + unfold restT. by rewrite <- !app_assoc.
      + rewrite Hx in HpreT. rewrite !forallb_app in HpreT.
        apply andb_true_iff in HpreT as [_ [_ [_ Hxd]%andb_true_iff]%andb_true_iff].
        rewrite !forallb_app, Hxd, HmidTd. simpl.
        destruct HidT as [_ HidTd]. rewrite andb_true_r.
        apply forallb_forall. intros d Hd%list_elem_of_In.
        pose proof (forallb_elem _ _ _ HidTd Hd) as Hdd.
        apply line_feed_class. intros ->. done. }
  assert (run <> []) as Hrunne by (rewrite Hmore; by destruct id).
  assert (length run <= length id)%nat as Hlen.
  { assert (matches (Cat (Star false is_dot) speed_tail)
              (mid2 ++ num0 ++ wsT ++ txt "MB/s") ([] ++ ([] ++ [num0]) ++ []))
      as M2.
    { constructor; [by constructor|]. unfold speed_tail.
      change (([] ++ [num0]) ++ []) with (([] ++ [num0]) ++ ([] ++ [])).
      constructor; [constructor; by apply numeric_matches|].
      constructor; [by constructor|constructor]. }
    pose proof (longest_head_group (txt "AppID ") is_digit
                  (Cat (Star false is_dot) speed_tail) run
                  (mid2 ++ num0 ++ wsT ++ txt "MB/s")
                  ([] ++ ([] ++ [num0]) ++ []) postT
                  [id; num] rest) as Hlong.
    cbn [group nth Nat.sub] in Hlong. apply Hlong; try done.
    rewrite <- Hhere. f_equal.
    rewrite <- !app_assoc. f_equal.
    fold after. rewrite Hafter, Htail2. by rewrite <- ?app_assoc. }
  assert (more = []) as ->.
  { apply (f_equal length) in Hmore. rewrite length_app in Hmore.
    destruct more; [done|simpl in Hmore; lia]. }
  rewrite app_nil_r in Hmore. subst run.
  unfold after in Hafter. apply app_inv_head in Hafter.
  (* the reading returned *)
  exists pre, mid, ws, rest. split_and!.
  - rewrite Hline'. by rewrite <- !app_assoc.
  - by apply digits_run.
  - intros ->. simpl in Hafter. subst tail.
    destruct Hnum as (i & dot & f & -> & [Hine Hi] & _).
    destruct i as [|d i]; [done|]. simpl in Hi, Htail.
    apply andb_true_iff in Hi as [Hd _]. by rewrite Hd in Htail.
  - apply ends_run_stops. destruct mid as [|d mid]; [done|].
    rewrite <- Hafter in Htail. exact Htail.
  - apply no_line_feed. rewrite forallb_app, Hmid, andb_true_r.
    rewrite forallb_app in HpreT. by apply andb_true_iff in HpreT as [? _].
  - by apply numeric_numeral.
  - by apply (Forall_class _ _ ws white_class).
Qed.
End TokenFacts.

Section FirstTokenFacts.
Import Text Re Patterns Num Common Shapes Spec.

(** The identifier pattern returns the first identifier token of the
    line. *)
Lemma search_app_first_token line id0 :
  token_digits line id0 ->
  exists id, search app_pattern line = Some [id] /\ first_token line id.
Proof.
  intros Htok. apply token_digits_match in Htok.
  destruct (search_app_complete line id0 Htok) as [g Hg].
  pose proof Hg as Hs. unfold search in Hs.
  destruct (search_span app_pattern line) as [[g' rest]|] eqn:Hspan; [|done].
  injection Hs as ->.
  apply search_span_leftmost in Hspan as (pre & m & Hline & Hhere & M & Hleft).
  apply app_pattern_matches in M as (id & -> & -> & Hid).
  exists id. split; [done|]. exists pre, rest. split_and!.
  - rewrite Hline. by rewrite <- !app_assoc.
  - by apply digits_run.
  - apply ends_run_stops. destruct rest as [|d rest]; [done|]. simpl.
    destruct (is_digit d) eqn:Hd; [|done]. exfalso.
    unfold match_here, app_pattern in Hhere. cbn [rmatch] in Hhere.
    rewrite <- app_assoc, strip_prefix_app in Hhere.
    destruct Hid as [Hne Hidd]. destruct id as [|c t]; [done|].
    simpl in Hidd. apply andb_true_iff in Hidd as [Hc Ht].
    cbn [app] in Hhere. rewrite Hc in Hhere.
    apply star_greedy_longest in Hhere as (s1 & s2 & Heq & Hs1 & Hk & Hmax).
    injection Hk as _ ->.
    apply app_inv_tail in Heq as <-.
    by specialize (Hmax [d] rest eq_refl ltac:(done) ltac:(by simpl; rewrite Hd)).
  - intros pre' id' post' Hline' Hid'. apply digits_run in Hid'.
    destruct (decide (length pre <= length pre')%nat) as [|Hlt]; [done|].
    exfalso. rewrite Hline in Hline'.
    apply app_eq_app in Hline' as [k [[-> Hk]|[-> Hk]]];
      [|rewrite length_app in Hlt; lia].
    + destruct k as [|c k]; [rewrite app_nil_r in Hlt; lia|].
      assert (matches app_pattern (txt "AppID " ++ id') [id']) as M'
        by (apply app_pattern_matches; by exists id').
      apply (match_here_None _ _ _ post') in M'; [done|].
      rewrite <- (Hleft pre' (c :: k) eq_refl ltac:(done)).
      f_equal. rewrite <- Hk. by rewrite <- !app_assoc.
Qed.

(** The first occurrence of a text, as [str.find] computes it. *)
Lemma first_at_index needle pre line :
  first_at needle pre line -> first_index needle line = Some (length pre).
Proof.
  revert line. induction pre as [|c pre IH]; intros line [[rest ->] Hmin].
  - destruct (needle ++ rest) eqn:E; simpl;
      rewrite (proj2 (startswith_true _ needle)); try done;
      exists rest; by rewrite E.
  - cbn [app first_index].
    destruct (startswith (c :: pre ++ needle ++ rest) needle) eqn:Hs.
    + apply startswith_true in Hs as [r Hr].
      specialize (Hmin [] r Hr). simpl in Hmin. lia.
    + rewrite (IH (pre ++ needle ++ rest)); [done|].
      split; [by eexists|]. intros a b Hab.
      specialize (Hmin (c :: a) b). simpl in Hmin.
      rewrite Hab in Hmin. specialize (Hmin eq_refl). lia.
Qed.

Lemma gap_gap_match mid : gap mid -> gap_match mid.
Proof.
  intros (Hmid & Hend & b & z & -> & Hz & Hdot). split_and!.
  - apply forallb_forall. intros c Hc%list_elem_of_In.
    rewrite Forall_forall in Hmid. destruct (Hmid c Hc) as [Hlf Hsl].
    apply andb_true_iff. split; [by apply line_feed_class|].
    unfold is_not_char. apply negb_true_iff.
    destruct (is_char "/" c) eqn:E; [|done].
    apply is_char_true in E. by subst c.
  - by apply ends_run_stops.
  - exists b, z. split_and!; [done| |].
    + destruct (is_digit z) eqn:E; [|done]. by apply decimal_digit_class in E.
    + destruct (is_char "." z) eqn:E; [|done].
      apply is_char_true in E. by subst z.
Qed.
End FirstTokenFacts.

(** *** The number that a numeric value writes *)

Section DecimalFacts.
Import Text Re Patterns Num Common Shapes Spec.

Lemma digit_value_number c : is_digit c = true -> digit_value c = digit_number c.
Proof. by destruct c as [[] [] [] [] [] [] [] []]. Qed.

Lemma digits_value_fold s : forall acc,
  forallb is_digit s = true ->
  fold_left (fun acc c => 10 * acc + digit_value c) s acc
  = acc * 10 ^ Z.of_nat (length s) + written s.
Proof.
  induction s as [|c s IH]; intros acc Hs; simpl written; cbn [fold_left length].
  - simpl. lia.
  - simpl in Hs. apply andb_true_iff in Hs as [Hc Hs].
    rewrite IH by done. rewrite (digit_value_number c Hc).
    rewrite Nat2Z.inj_succ, Z.pow_succ_r by lia. ring.
Qed.

Lemma digits_value_written s :
  forallb is_digit s = true -> digits_value s = written s.
Proof.
  intros Hs. unfold digits_value. rewrite digits_value_fold by done. lia.
Qed.

(** [float] returns the number that the numeric value writes. *)
Lemma py_float_denotes num :
  numeral num -> exists v, py_float num = Returns v /\ denotes num v.
Proof.
  intros Hnum. pose proof (numeric_is_numeral num Hnum) as Hok.
  unfold py_float. rewrite Hok.
  destruct Hnum as (i & dot & f & -> & [Hne Hi] & Hdot & Hf).
  destruct Hdot as [->| ->].
  - cbn [app] in *. rewrite <- (app_nil_r (i ++ f)).
    rewrite split_dot_digits by (by rewrite forallb_app, Hi, Hf).
    simpl. eexists. split; [done|].
    exists (i ++ f), []. split_and!.
    + left. by rewrite app_nil_r.
    + apply digits_run. split; [by destruct i|by rewrite forallb_app, Hi, Hf].
    + constructor.
    + rewrite Qred_correct, !app_nil_r.
      by rewrite digits_value_written by (by rewrite forallb_app, Hi, Hf).
  - rewrite split_dot_digits by done. simpl.
    eexists. split; [done|]. exists i, f. split_and!.
    + by right.
    + by apply digits_run.
    + by apply (Forall_class _ _ f decimal_digit_class).
    + rewrite Qred_correct, app_nil_r.
      by rewrite digits_value_written by (by rewrite forallb_app, Hi, Hf).
Qed.

Lemma written_nonneg s : 0 <= written s.
Proof.
  induction s as [|c s IH]; simpl written; [done|].
  assert (0 <= digit_number c) by (by destruct c as [[] [] [] [] [] [] [] []]).
  assert (0 <= 10 ^ Z.of_nat (length s)) by (apply Z.pow_nonneg; lia).
  nia.
Qed.

Lemma denotes_nonneg num v : denotes num v -> (0 <= v)%Q.
Proof.
  intros (i & f & _ & _ & _ & ->).
  apply Qle_shift_div_l.
  - pose proof (Z.pow_pos_nonneg 10 (Z.of_nat (length f))).
    unfold Qlt. cbn [Qnum Qden inject_Z]. lia.
  - rewrite Qmult_0_l. pose proof (written_nonneg (i ++ f)).
    unfold Qle. cbn [Qnum Qden inject_Z]. lia.
Qed.

(** The code's floats are exact here, so they are the floats of the
    numbers they stand for. *)
Lemma float_of_exact v : (0 <= v)%Q -> float_of v v.
Proof.
  intros Hv. split; [done|]. intros _.
  assert (v - v == 0)%Q as -> by ring.
  by rewrite Qmult_0_l.
Qed.

Lemma py_float_reads num :
  numeral num ->
  exists x, py_float num = Returns x /\ reads num x /\ (0 <= x)%Q.
Proof.
  intros Hnum. destruct (py_float_denotes num Hnum) as (v & Hv & Hden).
  pose proof (denotes_nonneg num v Hden) as Hnn.
  exists v. split_and!; [done| |done]. exists v.
  split; [done|by apply float_of_exact].
Qed.
End DecimalFacts.

Section ParserShapes.
Import Text Re Patterns Num Common Shapes Spec.

(** The parser on a line that the speed pattern matches. *)
Lemma parse_speed_found line id num :
  search speed_pattern line = Some [id; num] -> numeral num ->
  exists speed st,
    V1._parse_log_line line = Returns (Some (id, speed, st))
    /\ reads num speed /\ (st = Paused <-> pause_keyword line).
Proof.
  intros Hs Hnum. destruct (py_float_reads num Hnum) as (v & Hv & Hden & _).
  exists v, (if V1.has_pause_keyword line then Paused else Downloading).
  split_and!; [|done|].
  - unfold V1._parse_log_line. rewrite Hs. cbn [group nth Nat.sub].
    by rewrite Hv.
  - rewrite <- pause_keyword_code.
    by destruct (V1.has_pause_keyword line).
Qed.

Lemma no_reading_no_match line :
  (forall id num, ~ speed_reading line id num) ->
  search speed_pattern line = None.
Proof.
  intros Hno. destruct (search speed_pattern line) as [g|] eqn:Hg; [|done].
  destruct (search_speed_sound _ _ Hg) as (id & num & _ & Hm).
  by destruct (Hno id num); apply speed_reading_match.
Qed.

Lemma no_marker_no_reading line :
  ~ has_marker line -> forall id num, ~ speed_reading line id num.
Proof.
  intros Hm id num (pre & mid & ws & post & -> & _). apply Hm.
  exists (pre ++ txt "AppID " ++ id ++ mid ++ num ++ ws), post.
  by rewrite <- !app_assoc.
Qed.

Lemma token_exists line :
  (exists id, identifier_token line id) <-> (exists id, token_match line id).
Proof.
  split.
  - intros [id Hid]. exists id.
    by apply token_digits_match, identifier_token_digits.
  - intros [id Hid]. apply token_digits_match in Hid.
    destruct (search_app_first_token line id Hid)
      as (id' & _ & pre & post & ? & ? & ? & _).
    exists id', pre, post. by split_and!.
Qed.
End ParserShapes.

(** * The claims *)

Section Claims.
Import Text Re Patterns Num Common Shapes Spec.

(** Every poll of the size sampler of a monitor as [__init__] builds it
    reports 0 and leaves the monitor as it was. *)
Lemma estimate_after_init reg fs0 fs now id folder :
  V2._estimate_download_speed fs now (V2.__init__ reg fs0) id folder
    = (0%Q, V2.__init__ reg fs0).
Proof. by apply (estimate_on_list _ _ _ _ _ []). Qed.

(** C1 (SizeSampler rate computation), evaluated on the code: with the
    staging directory at 100 MiB at time 1000 and at 150 MiB at time 1010,
    both polls of a fresh monitor report 0, not 5.0 MB/s on the second.
    [download_stats] is a list, and indexing it by the identifier raises the
    exception that the sampler swallows.  The same body run on a dictionary
    that holds the first sample does report 5 MB/s. *)
Theorem size_sampler_second_sample_reports_zero :
  let self0 := V2.__init__ Scenario.reg (Scenario.fs_staged 104857600 999) in
  let first :=
    V2._estimate_download_speed (Scenario.fs_staged 104857600 999) 1000
      self0 (txt "440") Scenario.steamapps in
  let second :=
    V2._estimate_download_speed (Scenario.fs_staged 157286400 1009) 1010
      first.2 (txt "440") Scenario.steamapps in
  path_exists (Scenario.fs_staged 157286400 1009) Scenario.staging_440 = true
  /\ V2.total_size_of (walk (Scenario.fs_staged 157286400 1009)
                         Scenario.staging_440) = 157286400
  /\ first.1 = 0%Q /\ second.1 = 0%Q
  /\ exists speed stats,
       V2.estimate_body
         (V2.PyDict {[ txt "440" := (104857600, 1000%Q) ]})
         (txt "440") 157286400 1010 = Returns (speed, stats)
       /\ (speed == 5)%Q.
Proof.
  cbv zeta. rewrite !estimate_after_init. split_and!; try reflexivity.
  eexists _, _. split.
  - apply (estimate_body_on_dict _ _ _ _ 104857600 1000%Q); [|done].
    apply lookup_singleton_eq.
  - reflexivity.
Qed.

(** C2 (SizeSample state update), evaluated on the code: after a poll of
    the sampler on an existing, readable staging directory no sample is
    stored for the identifier.  On every file system and at every time the
    monitor is left as [__init__] built it, with the empty list for
    [download_stats]. *)
Theorem size_sample_is_never_stored :
  (forall reg fs0 fs now id folder,
     V2.download_stats
       (V2._estimate_download_speed fs now (V2.__init__ reg fs0) id folder).2
     = V2.PyList [])
  /\ let fs := Scenario.fs_staged 104857600 999 in
     let self1 :=
       (V2._estimate_download_speed fs 1000 (V2.__init__ Scenario.reg fs)
          (txt "440") Scenario.steamapps).2 in
     path_exists fs Scenario.staging_440 = true
     /\ V2.py_contains (V2.download_stats self1) (txt "440") = false.
Proof.
  split.
  - intros. by rewrite estimate_after_init.
  - cbv zeta. by rewrite estimate_after_init.
Qed.

(** C3, against the claim as stated: the log held 17 bytes when it was
    first polled and was cut to 1 byte before the second poll; after the
    second poll the cursor is 17, beyond the end of the file. *)
Lemma cursor_exceeds_truncated_log :
  let self0 := (V1.__init__ Scenario.reg (Scenario.fs_log Scenario.log_long)).1 in
  let self1 := polled (Scenario.fs_log Scenario.log_long) self0 in
  let self2 := polled (Scenario.fs_log Scenario.log_short) self1 in
  read_file (Scenario.fs_log Scenario.log_short) Scenario.log_file
    = Returns Scenario.log_short
  /\ length Scenario.log_short = 1%nat
  /\ V1.last_position self1 = 17%nat
  /\ V1.last_position self2 = 17%nat.
Proof. vm_compute. split_and!; reflexivity. Qed.

(** C3 (LogCursor invariant), amended: over every run of polls the stored
    cursor never decreases; a poll of a readable log that is at least as
    long as the cursor moves the cursor to the end of the file, so that it
    does not exceed the file's length; a poll of a readable log that is
    shorter than the cursor leaves the cursor where it was. *)
Theorem cursor_monotone_and_bounded_unless_truncated :
  (forall self snapshots,
     Sorted le (V1.last_position self :: poll_cursors self snapshots))
  /\ (forall fs self path content,
        V1.log_path self = Some path -> truthy (V1.log_path self) = true ->
        path_exists fs path = true -> read_file fs path = Returns content ->
        (V1.last_position self <= length content)%nat ->
        V1.last_position (polled fs self) = length content)
  /\ (forall fs self path content,
        V1.log_path self = Some path -> truthy (V1.log_path self) = true ->
        path_exists fs path = true -> read_file fs path = Returns content ->
        (length content < V1.last_position self)%nat ->
        V1.last_position (polled fs self) = V1.last_position self).
Proof.
  split_and!.
  - intros self snapshots. apply poll_cursors_sorted.
  - intros fs self path content Hp Ht He Hr Hle.
    destruct (polled_readable fs self path content Hp Ht He Hr) as [-> _].
    lia.
  - intros fs self path content Hp Ht He Hr Hlt.
    destruct (polled_readable fs self path content Hp Ht He Hr) as [-> _].
    lia.
Qed.

Lemma cursor_monotone_and_bounded_witness :
  let fs := Scenario.fs_log Scenario.log_long in
  let self0 := (V1.__init__ Scenario.reg fs).1 in
  Sorted le (V1.last_position self0 :: poll_cursors self0 [fs; fs])
  /\ V1.last_position (polled fs self0) = length Scenario.log_long.
Proof.
  split.
  - apply (proj1 cursor_monotone_and_bounded_unless_truncated).
  - apply (proj1 (proj2 cursor_monotone_and_bounded_unless_truncated)
             _ _ Scenario.log_file); [reflexivity..|].
    vm_compute. lia.
Defined.

(** C4 (empty polls of the log-cursor reader): when the monitor has no log
    path or the log file does not exist, a poll returns no line and leaves
    the monitor, cursor included, as it was; and a poll that follows a poll
    of a readable log returns no line when the log is no longer than it was
    at that poll. *)
Theorem empty_poll_behaviour :
  (forall fs self,
     (forall path, V1.log_path self = Some path -> path_exists fs path = false) ->
     V1._read_new_log_entries fs self = ([], self, []))
  /\ (forall fs fs' self path content content',
        V1.log_path self = Some path -> truthy (V1.log_path self) = true ->
        path_exists fs path = true -> read_file fs path = Returns content ->
        read_file fs' path = Returns content' ->
        (length content' <= length content)%nat ->
        batch fs' (polled fs self) = []).
Proof.
  split.
  - apply polled_missing.
  - intros fs fs' self path content content' Hp Ht He Hr Hr' Hlen.
    apply (batch_empty_at_end fs' _ path content'); [|done|].
    + by rewrite polled_keeps_path.
    + destruct (polled_readable fs self path content Hp Ht He Hr) as [-> _].
      lia.
Qed.

Lemma empty_poll_witness :
  let fs := Scenario.fs_log Scenario.log_long in
  let gone := Scenario.fs_of [] [] [] [] in
  let self0 := (V1.__init__ Scenario.reg fs).1 in
  V1._read_new_log_entries gone self0 = ([], self0, [])
  /\ batch fs self0 = [Scenario.log_long]
  /\ batch fs (polled fs self0) = [].
Proof.
  split_and!.
  - apply (proj1 empty_poll_behaviour). intros path [= <-]. reflexivity.
  - reflexivity.
  - apply (proj2 empty_poll_behaviour _ _ _ Scenario.log_file
             Scenario.log_long Scenario.log_long); try reflexivity.
Defined.

(** C5 (LogEventParser, shape (a)): on every line that holds an identifier
    token followed later, on the same line, by a numeric value right before
    the marker, the parser returns the identifier of a token and the float
    of a numeric value, which the line holds in this shape, and the status
    is paused exactly when the line holds a pause keyword in some mix of
    cases.  The float of a numeric value is the number that the value
    writes, up to the rounding of a float.  Where the line has a single such
    reading (the token is at the first [AppID] of the line, and the text
    between the token and the number holds no slash and borders on no digit
    or dot) the parser returns that identifier and that number.  The line of
    the example yields 123, 5.50 and downloading. *)
Theorem parser_speed_shape :
  (forall line id0 num0,
     speed_line line id0 num0 ->
     exists id num speed st,
       V1._parse_log_line line = Returns (Some (id, speed, st))
       /\ speed_line line id num /\ reads num speed
       /\ (st = Paused <-> pause_keyword line))
  /\ (forall pre id mid num ws post,
        let line :=
          pre ++ txt "AppID " ++ id ++ mid ++ num ++ ws ++ txt "MB/s" ++ post in
        first_at (txt "AppID ") pre line ->
        digits id -> gap mid -> numeric num -> Forall white ws ->
        exists speed st,
          V1._parse_log_line line = Returns (Some (id, speed, st))
          /\ reads num speed /\ (st = Paused <-> pause_keyword line))
  /\ V1._parse_log_line
       (txt "AppID 123 update, downloaded 10 MB at 5.50 MB/s")
     = Returns (Some (txt "123", (11 # 2)%Q, Downloading)).
Proof.
  split_and!.
  - intros line id0 num0 H.
    destruct (search_speed_strict line id0 num0 H) as (id & num & Hs & Hline).
    assert (numeral num) as Hnum.
    { destruct Hline as (? & ? & ? & ? & _ & _ & _ & _ & _ & Hn & _).
      by apply numeric_numeral. }
    destruct (parse_speed_found line id num Hs Hnum) as (speed & st & ? & ? & ?).
    by exists id, num, speed, st.
  - intros pre id mid num ws post line Hfirst Hid Hgap Hnum Hws.
    apply parse_speed_found; [|by apply numeric_numeral].
    apply search_speed_first.
    + by apply first_at_index.
    + by apply digits_run.
    + by apply gap_gap_match.
    + by apply numeric_numeral.
    + by apply (Forall_class _ _ ws white_class).
  - reflexivity.
Qed.

Lemma parser_speed_shape_witness :
  let line :=
    txt "[2024-01-28 10:30:45] " ++ txt "AppID " ++ txt "1234567"
      ++ txt " update, downloaded 1024.5 MB at " ++ txt "50.2"
      ++ txt " " ++ txt "MB/s" ++ [] in
  exists speed st,
    V1._parse_log_line line = Returns (Some (txt "1234567", speed, st))
    /\ reads (txt "50.2") speed /\ (st = Paused <-> pause_keyword line).
Proof.
  apply (proj1 (proj2 parser_speed_shape)
           (txt "[2024-01-28 10:30:45] ") (txt "1234567")
           (txt " update, downloaded 1024.5 MB at ") (txt "50.2") (txt " ") []).
  - split; [by eexists|]. intros a b Hab.
    destruct (decide (length (txt "[2024-01-28 10:30:45] ") <= length a)%nat)
      as [|Hlt]; [done|exfalso].
    simpl in Hlt. walk_prefix Hab a; simpl in Hlt; lia.
  - split; [discriminate|]. by repeat (constructor; [by vm_compute; set_solver|]).
  - split_and!.
    + repeat (constructor; [split; discriminate|]). constructor.
    + intros c rest [= <- _]. vm_compute. set_solver.
    + exists (txt " update, downloaded 1024.5 MB at"), " "%char.
      split_and!; [reflexivity| |discriminate]. vm_compute. set_solver.
  - exists (txt "50"), (txt "."), (txt "2").
    split_and!; [reflexivity| |by right|].
    + split; [discriminate|]. by repeat (constructor; [by vm_compute; set_solver|]).
    + by repeat (constructor; [by vm_compute; set_solver|]).
  - repeat (constructor; [by vm_compute; set_solver|]). constructor.
Defined.

(** C6, against the claim as stated: the line holds the marker ahead of the
    identifier token, so that it has neither shape (a), for want of a number
    and marker after the token, nor shape (b), which allows no marker; the
    parser returns the identifier, 0.0 and paused all the same. *)
Lemma marker_before_token_parses_as_paused :
  let line := txt "limit 10 MB/s, AppID 440 paused" in
  has_marker line
  /\ (forall id num, ~ speed_line line id num)
  /\ V1._parse_log_line line = Returns (Some (txt "440", 0%Q, Paused)).
Proof.
  cbv zeta. split_and!.
  - by exists (txt "limit 10 "), (txt ", AppID 440 paused").
  - intros id num H%speed_line_reading%speed_reading_match.
    by destruct (search_speed_complete _ _ _ H).
  - reflexivity.
Qed.

(** C6 (LogEventParser, shape (b) and rejection), amended: on a line that
    holds an identifier token and a pause keyword, and that has no marker
    or, more generally, no reading as a speed, the parser returns the first
    identifier token of the line, 0.0 and paused.  The line of the example
    yields 123, 0.0 and paused.  The parser returns nothing exactly on the
    lines that have no reading as a speed and lack a pause keyword or an
    identifier token; a reading as a speed may split the digits of the
    token, so that [AppID 123 MB/s Suspended], which has not shape (a),
    yields 12, 3.0 and paused.  The parser never raises. *)
Theorem parser_pause_shape_and_rejection :
  (forall line id0,
     identifier_token line id0 -> pause_keyword line ->
     (~ has_marker line \/ forall id num, ~ speed_reading line id num) ->
     exists id,
       first_token line id
       /\ V1._parse_log_line line = Returns (Some (id, 0%Q, Paused)))
  /\ V1._parse_log_line (txt "AppID 123 paused")
     = Returns (Some (txt "123", 0%Q, Paused))
  /\ (forall line,
        V1._parse_log_line line = Returns None
        <-> (forall id num, ~ speed_reading line id num)
            /\ ~ (pause_keyword line /\ exists id, identifier_token line id))
  /\ (let line := txt "AppID 123 MB/s Suspended" in
      has_marker line
      /\ (forall id num, ~ speed_line line id num)
      /\ speed_reading line (txt "12") (txt "3")
      /\ V1._parse_log_line line = Returns (Some (txt "12", 3%Q, Paused)))
  /\ (forall line e, V1._parse_log_line line <> Raises e).
Proof.
  split_and!.
  - intros line id0 Hid Hkw Hno.
    assert (forall id num, ~ speed_reading line id num) as Hnone.
    { destruct Hno as [Hm|?]; [by apply no_marker_no_reading|done]. }
    destruct (search_app_first_token line id0) as (id & Hs & Hfirst);
      [by apply identifier_token_digits|].
    exists id. split; [done|]. unfold V1._parse_log_line.
    rewrite (no_reading_no_match line Hnone).
    rewrite (proj2 (pause_keyword_code line) Hkw). by rewrite Hs.
  - reflexivity.
  - intros line. rewrite <- pause_keyword_code, token_exists. split.
    + intros Hnone.
      destruct (parse_cases line)
        as [(id & num & v & _ & _ & Hp)|[(_ & _ & id & _ & Hp)
           |(Hs & Hor & _)]]; [congruence..|].
      split.
      * intros id num H%speed_reading_match. by apply (Hs id num).
      * intros [Hkw [id Hid]].
        destruct Hor as [Hk|Hn]; [congruence|by destruct (Hn id)].
    + intros [Hs Hnot].
      destruct (parse_cases line)
        as [(id & num & v & Hl & _)|[(_ & Hkw & id & Hid & _)|(_ & _ & Hp)]].
      * by destruct (Hs id num); apply speed_reading_match.
      * destruct Hnot. eauto.
      * done.
  - cbv zeta. split_and!.
    + by exists (txt "AppID 123 "), (txt " Suspended").
    + intros id num H.
      destruct (search_speed_strict _ id num H) as (id' & num' & Hs & Hline).
      vm_compute in Hs. injection Hs as <- <-.
      destruct Hline as (pre & mid & ws & post & Heq & _ & Hne & Hend & _).
      symmetry in Heq. walk_prefix Heq pre.
      destruct mid as [|c mid]; [done|]. simpl in Heq. injection Heq as -> _.
      apply (Hend _ _ eq_refl). vm_compute. set_solver.
    + exists [], [], (txt " "), (txt " Suspended"). split_and!; try done.
      * split; [discriminate|]. by repeat (constructor; [by vm_compute; set_solver|]).
      * by inversion 1.
      * exists (txt "3"), [], []. split_and!; [done| |by left|constructor].
        split; [discriminate|]. by repeat (constructor; [by vm_compute; set_solver|]).
      * repeat (constructor; [by vm_compute; set_solver|]). constructor.
    + reflexivity.
  - intros line e.
    destruct (parse_cases line)
      as [(id & num & v & _ & _ & ->)|[(_ & _ & id & _ & ->)|(_ & _ & ->)]];
      discriminate.
Qed.

Lemma parser_pause_shape_witness :
  let line :=
    txt "[10:30] " ++ txt "AppID " ++ txt "440" ++ txt " download Suspended" in
  exists id,
    first_token line id
    /\ V1._parse_log_line line = Returns (Some (id, 0%Q, Paused)).
Proof.
  apply (proj1 parser_pause_shape_and_rejection _ (txt "440")).
  - exists (txt "[10:30] "), (txt " download Suspended"). split_and!; [done| |].
    + split; [discriminate|]. by repeat (constructor; [by vm_compute; set_solver|]).
    + intros c rest [= <- _]. vm_compute. set_solver.
  - right. exists (txt "[10:30] AppID 440 download "), (txt "Suspended"), [].
    split; [done|].
    repeat (constructor;
            [first [by left|right; split; [vm_compute; split; discriminate|done]]|]).
    constructor.
  - left. intros Hm.
    assert (contains (txt "MB/s")
              (txt "[10:30] AppID 440 download Suspended") = true) as H
      by (by apply contains_true).
    discriminate H.
Defined.

(** C7 (ActivityClassifier boundary): the modification time that the
    classifier works from is the largest one of the files of the staging
    directory that exist, and 0 when there is none; for a staging directory
    that exists the record is downloading exactly when the clock is less
    than 120 seconds past that time, a missing directory is paused, and at
    exactly 120 seconds the record is paused.  With the clock at 120 seconds
    or more past the epoch, as [time.time()] is from the third minute of
    1970 on, the missing directory falls under the same rule with the
    time 0. *)
Theorem activity_classifier_boundary fs now folder :
  ((0 <= V2.latest_mtime_of (walk fs folder))%Q
   /\ (forall f, f ∈ walk fs folder -> st_exists f = true ->
         (st_mtime f <= V2.latest_mtime_of (walk fs folder))%Q)
   /\ (V2.latest_mtime_of (walk fs folder) = 0%Q
       \/ exists f, f ∈ walk fs folder /\ st_exists f = true
                    /\ V2.latest_mtime_of (walk fs folder) = st_mtime f))
  /\ (path_exists fs folder = true ->
        (V2.status_of (V2.is_active fs now folder) = Downloading
         <-> (now - max_mtime fs folder < 120)%Q))
  /\ (path_exists fs folder = false ->
        V2.status_of (V2.is_active fs now folder) = Paused)
  /\ ((now - max_mtime fs folder == 120)%Q ->
        V2.status_of (V2.is_active fs now folder) = Paused)
  /\ ((120 <= now)%Q ->
        (V2.status_of (V2.is_active fs now folder) = Downloading
         <-> (now - max_mtime fs folder < 120)%Q)).
Proof.
  assert (path_exists fs folder = true ->
          (V2.status_of (V2.is_active fs now folder) = Downloading
           <-> (now - max_mtime fs folder < 120)%Q)) as Hpresent.
  { intros He. rewrite status_of_downloading, (is_active_present _ _ _ He).
    unfold max_mtime. by rewrite He. }
  assert (path_exists fs folder = false ->
          V2.status_of (V2.is_active fs now folder) = Paused) as Hmissing.
  { intros He. by rewrite (is_active_missing _ _ _ He). }
  split; [apply latest_mtime_is_max|].
  split; [done|]. split; [done|]. split.
  - intros Heq. destruct (path_exists fs folder) eqn:He; [|by apply Hmissing].
    pose proof (proj1 (Hpresent eq_refl)) as Hlt.
    destruct (V2.is_active fs now folder); [|done]. exfalso.
    specialize (Hlt eq_refl). rewrite Heq in Hlt.
    by apply Qlt_irrefl in Hlt.
  - intros Hclock. destruct (path_exists fs folder) eqn:He; [by apply Hpresent|].
    rewrite (Hmissing eq_refl). unfold max_mtime. rewrite He. split; [done|].
    intros Hlt. exfalso. apply (Qlt_not_le _ _ Hlt).
    unfold Qminus. by rewrite Qplus_0_r.
Qed.

Lemma activity_classifier_witness :
  let fs := Scenario.fs_staged 104857600 880 in
  V2.status_of (V2.is_active fs 1000 Scenario.staging_440) = Paused
  /\ V2.status_of (V2.is_active fs 999 Scenario.staging_440) = Downloading
  /\ V2.status_of (V2.is_active fs 1000 (txt "C:\nowhere")) = Paused.
Proof.
  split_and!.
  - apply (proj1 (proj2 (proj2 (proj2
             (activity_classifier_boundary _ 1000 Scenario.staging_440))))).
    reflexivity.
  - apply (proj1 (proj2
             (activity_classifier_boundary _ 999 Scenario.staging_440)));
      reflexivity.
  - apply (proj1 (proj2 (proj2
             (activity_classifier_boundary _ 1000 (txt "C:\nowhere"))))).
    reflexivity.
Defined.

(** The identifiers that the discovery returns are those of the manifests
    of a library folder whose staging directory exists in that folder or
    whose state flag is 2, 4 or 6. *)
Lemma discovery_membership fs self root ids x :
  V2.steam_path self = Some root -> truthy (Some root) = true ->
  V2._get_downloading_apps fs self = Returns ids ->
  x ∈ ids
  <-> exists folder files file,
        folder ∈ library_folders fs root /\ path_exists fs folder = true
        /\ listdir fs folder = Returns files /\ file ∈ files
        /\ candidate fs folder file = true /\ x = app_id_of file.
Proof.
  intros Hp Ht H. unfold V2._get_downloading_apps in H.
  rewrite Hp, Ht in H. rewrite (scan_folders_elem _ _ x _ _ H).
  split; [|by right]. intros [Hin|?]; [by inversion Hin|done].
Qed.

(** C8 (ActiveSetDiscovery), evaluated on the code: [libraryfolders.vdf]
    names the install root as a library, so that the one [steamapps] folder
    is scanned twice; 440 has a manifest and a staging directory there, and
    the list returned holds 440 twice.  (The append for an existing staging
    directory does not look whether the identifier is in the list; the
    append for the state flags does.) *)
Theorem discovery_lists_identifier_twice :
  let fs := Scenario.fs_library true 104857600 999 in
  library_folders fs Scenario.root = [Scenario.steamapps; Scenario.steamapps]
  /\ V2._get_downloading_apps fs (V2.__init__ Scenario.reg fs)
     = Returns [txt "440"; txt "440"].
Proof. vm_compute. split; reflexivity. Qed.

(** C9 (MonitorLoop setup failure): when no probe of the registry resolves
    the install root, [monitor] of either strategy, with whatever fuel,
    duration and interval, prints the not-found message and returns; its
    trace holds no check of the downloads and no probe of the file system. *)
Theorem monitor_without_install_root reg fs :
  probe_registry reg fs registry_paths = None ->
  forall fuel fs_at start minutes seconds,
    V1.monitor fuel fs_at start (V1.__init__ reg fs).1 minutes seconds
      = Some (Returns tt, (V1.__init__ reg fs).1, [EvPrint MsgSteamNotFound])
    /\ V2.monitor fuel fs_at start (V2.__init__ reg fs) minutes seconds
       = Some (Returns tt, V2.__init__ reg fs, [EvPrint MsgSteamNotFound])
    /\ List.filter touches_files [EvPrint MsgSteamNotFound] = [].
Proof.
  intros H fuel fs_at start minutes seconds. split_and!.
  - apply monitor_v1_not_found. by rewrite (init_unresolved_v1 _ _ H).
  - apply monitor_v2_not_found. by rewrite (init_unresolved_v2 _ _ H).
  - reflexivity.
Qed.

Lemma monitor_without_install_root_witness :
  let fs := Scenario.fs_library true 104857600 999 in
  V1.monitor 0 (fun _ => fs) 1000 (V1.__init__ Scenario.no_steam fs).1 5 60
    = Some (Returns tt, (V1.__init__ Scenario.no_steam fs).1,
            [EvPrint MsgSteamNotFound])
  /\ V2.monitor 0 (fun _ => fs) 1000 (V2.__init__ Scenario.no_steam fs) 5 60
     = Some (Returns tt, V2.__init__ Scenario.no_steam fs,
             [EvPrint MsgSteamNotFound])
  /\ List.filter touches_files [EvPrint MsgSteamNotFound] = [].
Proof.
  apply (monitor_without_install_root Scenario.no_steam). reflexivity.
Defined.

(** C10 (paused records carry zero speed): in every record that
    [get_download_info] returns with the status paused, the speed is 0,
    whatever the speed estimator computed for the identifier. *)
Theorem paused_records_carry_zero_speed fs now self downloads self' d :
  V2.get_download_info fs now self = (Returns downloads, self') ->
  d ∈ downloads -> V2.dl_status d = Paused -> V2.speed_mbps d = 0%Q.
Proof.
  unfold V2.get_download_info. intros H Hin Hst.
  destruct (V2.steam_path self) as [root|]; [|injection H as <- _; by inversion Hin].
  destruct (truthy (Some root)); [|injection H as <- _; by inversion Hin].
  destruct (V2._get_downloading_apps fs self) as [ids|]; [|done].
  pose proof (download_entries_paused fs now root ids self d) as Hd.
  destruct (V2.download_entries fs now root self ids) as [ds self''].
  injection H as <- _. by apply Hd.
Qed.

Lemma paused_records_witness :
  let fs := Scenario.fs_library false 157286400 800 in
  let d := {| V2.app_id := txt "440"; V2.game_name := txt "Game";
              V2.speed_mbps := 0%Q; V2.dl_status := Paused |} in
  ((V2._estimate_download_speed fs 1010 Scenario.dict_monitor (txt "440")
      Scenario.steamapps).1 == 5)%Q
  /\ (V2.get_download_info fs 1010 Scenario.dict_monitor).1 = Returns [d]
  /\ V2.speed_mbps d = 0%Q.
Proof.
  cbv zeta. split_and!.
  - vm_compute. reflexivity.
  - vm_compute. reflexivity.
  - apply (paused_records_carry_zero_speed
             (Scenario.fs_library false 157286400 800) 1010
             Scenario.dict_monitor
             [{| V2.app_id := txt "440"; V2.game_name := txt "Game";
                 V2.speed_mbps := 0%Q; V2.dl_status := Paused |}]
             (V2.get_download_info (Scenario.fs_library false 157286400 800)
                1010 Scenario.dict_monitor).2).
    + vm_compute. reflexivity.
    + by left.
    + reflexivity.
Defined.
End Claims.

(** * Further properties of the code

    The resolution of the install root, the library folders, the names,
    the log reader, the loops of [monitor], the records of Strategy B and
    the entry points. *)

(** ** The resolution of the install root *)

Section ResolverFacts.
Import Text Re Patterns Num Common Shapes Spec.

Lemma probe_registry_some reg fs probes p :
  probe_registry reg fs probes = Some p ->
  exists before hkey subkey after,
    probes = before ++ (hkey, subkey) :: after
    /\ reg hkey subkey = Some p /\ p <> [] /\ path_exists fs p = true
    /\ forall h k v, (h, k) ∈ before -> reg h k = Some v ->
         v = [] \/ path_exists fs v = false.
Proof.
  induction probes as [|[hkey subkey] rest IH]; cbn [probe_registry]; [done|].
  destruct (reg hkey subkey) as [v|] eqn:Hv.
  - destruct (truthy (Some v) && path_exists fs v) eqn:Hok.
    + intros [= ->]. apply andb_true_iff in Hok as [Ht He].
      exists [], hkey, subkey, rest. split_and!; try done.
      * by destruct p.
      * intros h k v Hin. by inversion Hin.
    + intros (before & h & k & after & -> & Hr & Hne & He & Hb)%IH.
      exists ((hkey, subkey) :: before), h, k, after.
      split_and!; try done.
      intros h' k' v' [[= -> ->]|Hin]%elem_of_cons Hv'; [|by eapply Hb].
      rewrite Hv in Hv'. injection Hv' as <-.
      apply andb_false_iff in Hok as [Ht|He']; [left; by destruct v|by right].
  - intros (before & h & k & after & -> & Hr & Hne & He & Hb)%IH.
    exists ((hkey, subkey) :: before), h, k, after. split_and!; try done.
    intros h' k' v' [[= -> ->]|Hin]%elem_of_cons Hv'; [congruence|by eapply Hb].
Qed.

Lemma probe_registry_none reg fs probes :
  probe_registry reg fs probes = None
  <-> forall h k v, (h, k) ∈ probes -> reg h k = Some v ->
        v = [] \/ path_exists fs v = false.
Proof.
  induction probes as [|[hkey subkey] rest IH]; cbn [probe_registry].
  - split; [|done]. intros _ h k v Hin. by inversion Hin.
  - destruct (reg hkey subkey) as [v|] eqn:Hv.
    + destruct (truthy (Some v) && path_exists fs v) eqn:Hok.
      * split; [done|]. intros H. apply andb_true_iff in Hok as [Ht He].
        destruct (H hkey subkey v) as [->|?]; [by left|done|done|congruence].
      * rewrite IH. split.
        -- intros H h k v' [[= -> ->]|Hin]%elem_of_cons Hv'; [|by eapply H].
           rewrite Hv in Hv'. injection Hv' as <-.
           apply andb_false_iff in Hok as [Ht|He'];
             [left; by destruct v|by right].
        -- intros H h k v' Hin. apply H. by right.
    + rewrite IH. split.
      * intros H h k v' [[= -> ->]|Hin]%elem_of_cons Hv'; [congruence|].
        by eapply H.
      * intros H h k v' Hin. apply H. by right.
Qed.

(** X1.  [_find_steam_path] returns the value of the first of its three
    registry keys, in the order written, whose value is a non-empty string
    naming an existing path: what it returns exists on disk, every key
    before the one it was read from had no such value, and it returns
    nothing exactly when no key has one. *)
Theorem find_steam_path_first_valid reg fs :
  (forall p,
     V2._find_steam_path reg fs = Some p ->
     exists before hkey subkey after,
       registry_paths = before ++ (hkey, subkey) :: after
       /\ reg hkey subkey = Some p /\ p <> [] /\ path_exists fs p = true
       /\ forall h k v, (h, k) ∈ before -> reg h k = Some v ->
            v = [] \/ path_exists fs v = false)
  /\ (V2._find_steam_path reg fs = None
      <-> forall h k v, (h, k) ∈ registry_paths -> reg h k = Some v ->
            v = [] \/ path_exists fs v = false)
  /\ (V1._find_steam_path reg fs).1 = V2._find_steam_path reg fs.
Proof.
  split_and!.
  - apply probe_registry_some.
  - apply probe_registry_none.
  - unfold V1._find_steam_path, V2._find_steam_path.
    by destruct (probe_registry reg fs registry_paths).
Qed.

Lemma find_steam_path_witness :
  exists before hkey subkey after,
    registry_paths = before ++ (hkey, subkey) :: after
    /\ Scenario.reg hkey subkey = Some Scenario.root
    /\ Scenario.root <> []
    /\ path_exists (Scenario.fs_staged 1 0) Scenario.root = true
    /\ forall h k v, (h, k) ∈ before -> Scenario.reg h k = Some v ->
         v = [] \/ path_exists (Scenario.fs_staged 1 0) v = false.
Proof.
  apply (proj1 (find_steam_path_first_valid Scenario.reg
                  (Scenario.fs_staged 1 0)) Scenario.root).
  reflexivity.
Defined.
End ResolverFacts.

(** ** The names of the manifests and the library folders *)

Section NameFacts.
Import Text Re Patterns Num Common Shapes Spec.

Lemma plus_matches p s g :
  matches (Plus p) s g -> g = [] /\ s <> [] /\ forallb p s = true.
Proof.
  inversion 1; subst. split_and!; [done..|]. simpl. by apply andb_true_iff.
Qed.

Lemma quoted_value_matches key m g :
  matches (quoted_value_pattern key) m g ->
  exists ws value,
    m = (dquote :: txt key ++ [dquote]) ++ ws ++ dquote :: value ++ [dquote]
    /\ g = [value] /\ ws <> [] /\ forallb is_space ws = true
    /\ value <> [] /\ forallb (is_not_char dquote) value = true.
Proof.
  unfold quoted_value_pattern. intros H. repeat inv_matches.
  repeat match goal with
  | H : matches (Plus _) _ _ |- _ =>
      apply plus_matches in H as (-> & ? & ?)
  end.
  eexists _, _. split_and!; try done.
Qed.

Lemma search_name_sound content g :
  search name_pattern content = Some g ->
  quoted_entry "name" content (group 1 g).
Proof.
  intros H. apply search_sound in H as (pre & m & rest & -> & M).
  apply quoted_value_matches in M as (ws & v & -> & -> & ? & ? & ? & ?).
  exists pre, ws, rest. split_and!; try done.
  cbn [group nth Nat.sub]. rewrite <- !app_assoc. cbn [app].
  by rewrite <- !app_assoc.
Qed.

Lemma find_name_some fs id folders name :
  find_name fs id folders = Some name ->
  exists folder content,
    folder ∈ folders
    /\ path_exists fs (path_join folder (manifest_name id)) = true
    /\ read_file fs (path_join folder (manifest_name id)) = Returns content
    /\ quoted_entry "name" content name.
Proof.
  induction folders as [|folder rest IH]; simpl; [done|].
  assert (find_name fs id rest = Some name ->
          exists folder0 content,
            folder0 ∈ folder :: rest
            /\ path_exists fs (path_join folder0 (manifest_name id)) = true
            /\ read_file fs (path_join folder0 (manifest_name id))
               = Returns content
            /\ quoted_entry "name" content name) as Hrest.
  { intros (f & c & Hin & ?)%IH. exists f, c. split; [by right|done]. }
  destruct (path_exists fs _) eqn:He; [|done].
  destruct (read_file fs _) as [content|e] eqn:Hr; [|done].
  destruct (search name_pattern content) as [g|] eqn:Hs; [|done].
  intros [= <-]. exists folder, content.
  split_and!; [by left|done..|by apply search_name_sound].
Qed.

Lemma find_name_missing fs id folders :
  (forall folder, folder ∈ folders ->
     path_exists fs (path_join folder (manifest_name id)) = false) ->
  find_name fs id folders = None.
Proof.
  induction folders as [|folder rest IH]; simpl; intros H; [done|].
  rewrite (H folder) by by left. apply IH. intros f Hf. apply H. by right.
Qed.

(** X3.  [_get_app_name] answers with the fallback name "AppID " followed
    by the identifier when the install root is unknown and when no library
    folder holds a manifest file for the identifier; and any other answer is
    a non-empty text without a double quote that a readable manifest of the
    identifier, in one of the library folders, holds in quotes after the
    quoted key [name]. *)
Theorem app_name_fallback_or_manifest fs steam_path id :
  (truthy steam_path = false ->
     _get_app_name fs steam_path id = txt "AppID " ++ id)
  /\ (forall root,
        steam_path = Some root ->
        (forall folder, folder ∈ library_folders fs root ->
           path_exists fs (path_join folder (txt "appmanifest_" ++ id
                                               ++ txt ".acf")) = false) ->
        _get_app_name fs steam_path id = txt "AppID " ++ id)
  /\ (_get_app_name fs steam_path id = txt "AppID " ++ id
      \/ exists root folder content,
           steam_path = Some root /\ folder ∈ library_folders fs root
           /\ read_file fs (path_join folder (txt "appmanifest_" ++ id
                                                ++ txt ".acf"))
              = Returns content
           /\ quoted_entry "name" content (_get_app_name fs steam_path id)).
Proof.
  unfold _get_app_name. fold (manifest_name id). fold (fallback_name id).
  split_and!.
  - intros Ht. destruct steam_path; [|done]. by rewrite Ht.
  - intros root -> H. rewrite (find_name_missing _ _ _ H).
    by destruct (truthy _).
  - destruct steam_path as [root|]; [|by left].
    destruct (truthy (Some root)); [|by left].
    destruct (find_name fs id (library_folders fs root)) as [name|] eqn:Hf;
      [|by left].
    right. apply find_name_some in Hf as (folder & content & ? & ? & ? & ?).
    by exists root, folder, content.
Qed.

Lemma app_name_witness :
  _get_app_name (Scenario.fs_staged 1 0) (Some Scenario.root) (txt "999")
  = txt "AppID " ++ txt "999".
Proof.
  apply (proj1 (proj2 (app_name_fallback_or_manifest
                         (Scenario.fs_staged 1 0) (Some Scenario.root)
                         (txt "999"))) Scenario.root eq_refl).
  intros folder Hin. vm_compute in Hin.
  apply list_elem_of_singleton in Hin as ->. reflexivity.
Defined.
End NameFacts.

Section LibraryFacts.
Import Text Re Patterns Num Common Shapes Spec.

(** Whatever [re.findall] returns is group 1 of a match in the text. *)
Lemma findall_go_sound r x fuel : forall s,
  x ∈ findall_go fuel r s ->
  exists pre m rest g,
    s = pre ++ m ++ rest /\ matches r m g /\ x = group 1 g.
Proof.
  induction fuel as [|fuel IH]; intros s Hx; cbn [findall_go] in Hx;
    [by inversion Hx|].
  destruct (search_span r s) as [[g rest]|] eqn:Hs; [|by inversion Hx].
  apply search_span_sound in Hs as (pre & m & -> & M).
  apply elem_of_cons in Hx as [->|Hx]; [by exists pre, m, rest, g|].
  assert (forall tail skipped,
            rest = skipped ++ tail -> x ∈ findall_go fuel r tail ->
            exists pre' m' rest' g',
              pre ++ m ++ rest = pre' ++ m' ++ rest'
              /\ matches r m' g' /\ x = group 1 g') as Hrec.
  { intros tail skipped -> Hin.
    destruct (IH tail Hin) as (pre' & m' & rest' & g' & -> & M' & ->).
    exists (pre ++ m ++ skipped ++ pre'), m', rest', g'.
    split_and!; [|done..]. by rewrite <- !app_assoc. }
  destruct (length rest <? length (pre ++ m ++ rest))%nat.
  - by apply (Hrec rest []).
  - destruct rest as [|c rest']; [by inversion Hx|].
    by apply (Hrec rest' [c]).
Qed.

Lemma findall_path_sound content path :
  path ∈ findall path_pattern content -> quoted_entry "path" content path.
Proof.
  intros (pre & m & rest & g & -> & M & ->)%findall_go_sound.
  apply quoted_value_matches in M as (ws & v & -> & -> & ? & ? & ? & ?).
  exists pre, ws, rest. split_and!; try done.
  cbn [group nth Nat.sub]. rewrite <- !app_assoc. cbn [app].
  by rewrite <- !app_assoc.
Qed.

(** X2.  For an install root that does not end in a separator or a colon,
    the list of library folders starts with [steamapps] under the install
    root, whether or not that folder exists.  Every further folder exists
    on disk and is the [steamapps] folder of a path that
    [libraryfolders.vdf] holds in quotes after the quoted key [path] and
    white space, with its doubled backslashes undone; this is said for the
    paths that, so undone, do not end in a separator or a colon.  Without a
    readable [libraryfolders.vdf] the list is the one folder. *)
Theorem library_folders_shape fs root :
  let vdf := root ++ txt "\steamapps\libraryfolders.vdf" in
  plain root ->
  (forall content path,
     read_file fs vdf = Returns content ->
     path ∈ findall path_pattern content ->
     plain (replace path (txt "\\") (txt "\"))) ->
  (exists more,
     library_folders fs root = (root ++ txt "\steamapps") :: more
     /\ forall folder, folder ∈ more ->
          path_exists fs folder = true
          /\ exists content path,
               read_file fs vdf = Returns content
               /\ quoted_entry "path" content path
               /\ plain (replace path (txt "\\") (txt "\"))
               /\ folder = replace path (txt "\\") (txt "\")
                             ++ txt "\steamapps")
  /\ (path_exists fs vdf = false \/ (exists e, read_file fs vdf = Raises e) ->
      library_folders fs root = [root ++ txt "\steamapps"]).
Proof.
  cbv zeta. intros _ Hplain.
  assert (path_join (path_join root (txt "steamapps"))
            (txt "libraryfolders.vdf")
          = root ++ txt "\steamapps\libraryfolders.vdf") as Hvdf
    by (unfold path_join; by rewrite <- !app_assoc).
  unfold library_folders. rewrite Hvdf.
  change (path_join root (txt "steamapps")) with (root ++ txt "\steamapps").
  split.
  - eexists. split; [reflexivity|]. intros folder Hin.
    destruct (path_exists fs _); [|by inversion Hin].
    destruct (read_file fs _) as [content|e] eqn:Hread; [|by inversion Hin].
    apply list_elem_of_In, filter_In in Hin as [Hin He].
    split; [done|]. apply in_map_iff in Hin as (path & <- & Hp).
    apply list_elem_of_In in Hp.
    exists content, path. split_and!; [done| | |done].
    + by apply findall_path_sound.
    + by apply (Hplain content).
  - intros [->|[e ->]]; [done|]. by destruct (path_exists fs _).
Qed.

Lemma library_folders_witness :
  exists more,
    library_folders (Scenario.fs_library true 104857600 999) Scenario.root
    = (Scenario.root ++ txt "\steamapps") :: more
    /\ forall folder, folder ∈ more ->
         path_exists (Scenario.fs_library true 104857600 999) folder = true
         /\ exists content path,
              read_file (Scenario.fs_library true 104857600 999)
                (Scenario.root ++ txt "\steamapps\libraryfolders.vdf")
              = Returns content
              /\ quoted_entry "path" content path
              /\ plain (replace path (txt "\\") (txt "\"))
              /\ folder = replace path (txt "\\") (txt "\")
                            ++ txt "\steamapps".
Proof.
  apply (proj1 (library_folders_shape
                  (Scenario.fs_library true 104857600 999) Scenario.root
                  ltac:(by exists (txt "C:\Stea"), "m"%char)
                  ltac:(intros content path [= <-] Hin; vm_compute in Hin;
                        apply list_elem_of_singleton in Hin; subst path;
                        by exists (txt "C:\Stea"), "m"%char))).
Defined.
End LibraryFacts.

(** ** The log reader *)

Section ReaderFacts.
Import Text Re Patterns Num Common Shapes Spec V1.

Lemma elem_of_rev (x : ascii) (l : str) : x ∈ rev l <-> x ∈ l.
Proof. rewrite !list_elem_of_In. symmetry. apply in_rev. Qed.

Lemma elem_of_rev_lines (x : str) (l : list str) : x ∈ rev l <-> x ∈ l.
Proof. rewrite !list_elem_of_In. symmetry. apply in_rev. Qed.

Lemma readlines_go_concat s : forall cur,
  CR ∉ s -> concat (readlines_go cur s) = rev cur ++ s.
Proof.
  induction s as [|c s IH]; intros cur Hcr; simpl.
  - destruct cur; [done|]. simpl. by rewrite !app_nil_r.
  - assert (CR ∉ s) as Hs by set_solver.
    destruct (is_char LF c) eqn:Hlf.
    + apply is_char_true in Hlf as <-. simpl.
      rewrite (IH [] Hs). simpl. by rewrite <- app_assoc.
    + destruct (is_char CR c) eqn:Hc.
      * apply is_char_true in Hc as <-. set_solver.
      * rewrite (IH (c :: cur) Hs). simpl. by rewrite <- app_assoc.
Qed.

Lemma readlines_go_lines n : forall s cur line,
  (length s <= n)%nat -> LF ∉ cur -> CR ∉ cur ->
  line ∈ readlines_go cur s ->
  exists body,
    ((line = body ++ [LF]) \/ (line = body /\ body <> []))
    /\ (LF ∉ body) /\ (CR ∉ body).
Proof.
  assert (forall cur : str, LF ∉ cur -> CR ∉ cur ->
            exists body, ((rev (LF :: cur) = body ++ [LF])
                          \/ (rev (LF :: cur) = body /\ body <> []))
                         /\ (LF ∉ body) /\ (CR ∉ body)) as Hend.
  { intros cur H1 H2. exists (rev cur). split_and!; [by left|..];
      by rewrite elem_of_rev. }
  assert ((LF ∉ @nil ascii) /\ (CR ∉ @nil ascii)) as [Hnil1 Hnil2]
    by (split; by inversion 1).
  induction n as [|n IH]; intros s cur line Hlen Hlf Hcr;
    (destruct s as [|c s]; simpl in Hlen; [|try lia]); simpl.
  1,2: destruct cur as [|a cur]; [by inversion 1|];
       intros ->%list_elem_of_singleton; exists (rev (a :: cur));
       (split_and!; [right; split; [done|]|..]; try by rewrite elem_of_rev);
       simpl; by destruct (rev cur).
  destruct (is_char LF c) eqn:Hc.
  - intros [->|Hin]%elem_of_cons; [by apply Hend|].
    apply (IH s [] line); [lia|done..].
  - destruct (is_char CR c) eqn:Hc'.
    + destruct s as [|d s].
      * intros ->%list_elem_of_singleton. by apply Hend.
      * simpl in Hlen. destruct (is_char LF d).
        -- intros [->|Hin]%elem_of_cons; [by apply Hend|].
           apply (IH s [] line); [lia|done..].
        -- intros [->|Hin]%elem_of_cons; [by apply Hend|].
           apply (IH (d :: s) [] line); [simpl; lia|done..].
    + apply IH; [lia|..].
      * intros [Heq|?]%elem_of_cons; [|done].
        rewrite <- Heq in Hc. by rewrite is_char_refl in Hc.
      * intros [Heq|?]%elem_of_cons; [|done].
        rewrite <- Heq in Hc'. by rewrite is_char_refl in Hc'.
Qed.

(** X4.  [readlines] loses nothing of a text without carriage returns:
    the lines put together again are the text.  In every text, no line it
    returns is empty, and a line feed stands only at the end of a line: a
    line is a text free of line ends, followed by a line feed or, for the
    last line of a text that does not end in a line end, by nothing. *)
Theorem readlines_partitions_text s :
  (CR ∉ s -> concat (readlines s) = s)
  /\ (forall line, line ∈ readlines s ->
        line <> []
        /\ exists body,
             ((line = body ++ [LF]) \/ (line = body))
             /\ (LF ∉ body) /\ (CR ∉ body)).
Proof.
  split.
  - intros H. unfold readlines. by rewrite readlines_go_concat.
  - intros line Hin. unfold readlines in Hin.
    apply (readlines_go_lines (length s)) in Hin
      as (body & Hshape & ? & ?); [|lia|by inversion 1..].
    split.
    + destruct Hshape as [->|[-> ?]]; [by destruct body|done].
    + exists body. split_and!; [|done..]. destruct Hshape as [?|[? _]]; auto.
Qed.

Lemma readlines_partitions_witness :
  concat (readlines (txt "first" ++ [LF] ++ txt "second"))
  = txt "first" ++ [LF] ++ txt "second".
Proof.
  apply (proj1 (readlines_partitions_text _)).
  intros Hin. vm_compute in Hin. by repeat (apply elem_of_cons in Hin as [Hin|Hin]; [discriminate Hin|]); inversion Hin.
Defined.

Lemma latest_parsed_skip older rest :
  (forall line, line ∈ older -> _parse_log_line line = Returns None) ->
  latest_parsed (older ++ rest) = latest_parsed rest.
Proof.
  induction older as [|l older IH]; intros H; simpl; [done|].
  rewrite (H l) by by left. simpl. apply IH. intros x Hx. apply H. by right.
Qed.

Lemma latest_parsed_total lines :
  exists found,
    latest_parsed lines = Returns found
    /\ (found = None
        <-> forall line, line ∈ lines -> _parse_log_line line = Returns None).
Proof.
  induction lines as [|l lines (found & IH & Hnone)]; simpl.
  - exists None. split; [done|]. split; [|done]. intros _ x Hx. by inversion Hx.
  - destruct (parse_cases l)
      as [(id & num & v & _ & _ & Hp)|[(_ & _ & id & _ & Hp)|(_ & _ & Hp)]];
      rewrite Hp; simpl.
    + eexists. split; [done|]. split; [done|]. intros H.
      specialize (H l). rewrite Hp in H. discriminate H. by left.
    + eexists. split; [done|]. split; [done|]. intros H.
      specialize (H l). rewrite Hp in H. discriminate H. by left.
    + exists found. split; [done|]. rewrite Hnone. split.
      * intros H x [->|Hx]%elem_of_cons; auto.
      * intros H x Hx. apply H. by right.
Qed.

(** X5.  [get_current_download_status] never raises and moves the cursor
    as a poll of the log does, whether or not a line parses.  It reports
    the newest line of the batch that parses, with the name that
    [_get_app_name] gives its identifier and the time of the call, and it
    reports nothing exactly when no line of the batch parses; what older
    lines of the batch say is dropped. *)
Theorem status_is_newest_parsable_line fs now self :
  (get_current_download_status fs now self).1.2 = polled fs self
  /\ (exists found,
        (get_current_download_status fs now self).1.1 = Returns found
        /\ (found = None
            <-> forall line, line ∈ batch fs self ->
                  _parse_log_line line = Returns None))
  /\ (forall older line newer id speed st,
        batch fs self = older ++ line :: newer ->
        (forall l, l ∈ newer -> _parse_log_line l = Returns None) ->
        _parse_log_line line = Returns (Some (id, speed, st)) ->
        (get_current_download_status fs now self).1.1
        = Returns (Some {| app_id := id;
                           game_name :=
                             _get_app_name fs (steam_path (polled fs self)) id;
                           speed_mbps := speed;
                           dl_status := st;
                           timestamp := now |})).
Proof.
  unfold get_current_download_status, polled, batch.
  destruct (_read_new_log_entries fs self) as [[entries self'] printed].
  simpl. split_and!; [done| |].
  - destruct (latest_parsed_total (rev entries)) as (found & -> & Hnone).
    simpl. eexists. split; [done|].
    destruct found as [[[id speed] st]|]; simpl.
    + split; [done|]. intros H. exfalso.
      assert (Some (id, speed, st) = None) as Habs; [|done].
      apply Hnone. intros l Hl. apply H. by apply elem_of_rev_lines.
    + split; [|done]. intros _ l Hl.
      apply (proj1 Hnone eq_refl). by apply elem_of_rev_lines.
  - intros older line newer id speed st -> Hnewer Hline.
    rewrite rev_app_distr. simpl. rewrite <- app_assoc.
    rewrite latest_parsed_skip
      by (intros l Hl; apply Hnewer; by apply elem_of_rev_lines).
    simpl. by rewrite Hline.
Qed.

Lemma status_is_newest_witness :
  let fs := Scenario.fs_log (txt "AppID 440 at 3 MB/s" ++ [LF]
                               ++ txt "AppID 570 paused" ++ [LF]
                               ++ txt "idle" ++ [LF]) in
  let self := (V1.__init__ Scenario.reg fs).1 in
  (get_current_download_status fs 1000 self).1.1
  = Returns (Some {| app_id := txt "570";
                     game_name :=
                       _get_app_name fs (steam_path (polled fs self))
                                     (txt "570");
                     speed_mbps := 0%Q;
                     dl_status := Paused;
                     timestamp := 1000%Q |}).
Proof.
  apply (proj2 (proj2 (status_is_newest_parsable_line _ 1000 _))
           [txt "AppID 440 at 3 MB/s" ++ [LF]]
           (txt "AppID 570 paused" ++ [LF])
           [txt "idle" ++ [LF]]).
  - reflexivity.
  - intros l ->%list_elem_of_singleton. reflexivity.
  - reflexivity.
Defined.

(** X6.  A poll reads the bytes appended since the last poll and no
    others: after a poll of a log with the text [c], with the cursor not
    beyond it, the next poll of the log grown to [c ++ d] returns the lines
    of [d] and leaves the cursor at the end of the file. *)
Theorem poll_reads_appended_bytes fs fs' self path c d :
  log_path self = Some path -> truthy (log_path self) = true ->
  path_exists fs path = true -> read_file fs path = Returns c ->
  path_exists fs' path = true -> read_file fs' path = Returns (c ++ d) ->
  (last_position self <= length c)%nat ->
  batch fs' (polled fs self) = readlines d
  /\ last_position (polled fs' (polled fs self)) = length (c ++ d).
Proof.
  intros Hp Ht He Hr He' Hr' Hle.
  destruct (polled_readable fs self path c Hp Ht He Hr) as [Hpos _].
  assert (last_position (polled fs self) = length c) as Hc by lia.
  destruct (polled_readable fs' (polled fs self) path (c ++ d))
    as [-> ->]; try done; try by rewrite polled_keeps_path.
  rewrite Hc, drop_app_length, length_app. split; [done|lia].
Qed.

Lemma poll_reads_appended_witness :
  let c := txt "AppID 440 paused" ++ [LF] in
  let d := txt "AppID 440 at 3 MB/s" ++ [LF] in
  let self := (V1.__init__ Scenario.reg (Scenario.fs_log c)).1 in
  batch (Scenario.fs_log (c ++ d)) (polled (Scenario.fs_log c) self)
  = readlines d
  /\ last_position (polled (Scenario.fs_log (c ++ d))
                      (polled (Scenario.fs_log c) self))
     = length (c ++ d).
Proof.
  apply (poll_reads_appended_bytes _ _ _ Scenario.log_file);
    try reflexivity.
  vm_compute. lia.
Defined.
End ReaderFacts.

(** ** The loop of [monitor] *)

Section TraceFacts.
Import Text Re Patterns Num Common Shapes Spec.

(** Whole numbers below 2^31 lie on the grid. *)
Lemma whole_on_grid z : (Z.abs z < 2 ^ 31)%Z -> on_grid (inject_Z z).
Proof.
  intros Hz. exists (z * 2 ^ 22)%Z. split.
  - rewrite inject_Z_mult. field. discriminate.
  - rewrite Z.abs_mul. change (2 ^ 53)%Z with (2 ^ 31 * 2 ^ 22)%Z.
    rewrite (Z.abs_eq (2 ^ 22)) by lia. lia.
Qed.

Lemma exact_run_whole start minutes seconds :
  (0 <= start)%Z -> (0 <= minutes)%Z -> (Z.abs seconds <= 2 ^ 22)%Z ->
  (start + minutes * 60 < 2 ^ 31)%Z ->
  exact_run (inject_Z start) (inject_Z minutes) (inject_Z seconds).
Proof.
  intros Hs Hm Hsec Hend. unfold exact_run.
  split_and!; try (apply whole_on_grid; lia).
  - change 0%Q with (inject_Z 0). by rewrite <- Zle_Qle.
  - change 0%Q with (inject_Z 0). by rewrite <- Zle_Qle.
  - rewrite <- Zle_Qle. lia.
  - change 60%Q with (inject_Z 60).
    rewrite <- inject_Z_mult, <- inject_Z_plus. by rewrite <- Zlt_Qlt.
Qed.

Lemma polls_app a b : polls (a ++ b) = (polls a + polls b)%nat.
Proof. unfold polls. by rewrite List.filter_app, length_app. Qed.

Lemma slept_app a b : (slept (a ++ b) == slept a + slept b)%Q.
Proof.
  induction a as [|e a IH]; simpl; [lra|].
  destruct e; try done. rewrite IH. lra.
Qed.

Lemma of_nat_S n : (of_nat (S n) == of_nat n + 1)%Q.
Proof.
  unfold of_nat. rewrite Nat2Z.inj_succ, <- Z.add_1_r, inject_Z_plus.
  reflexivity.
Qed.

Lemma of_nat_nonneg n : (0 <= of_nat n)%Q.
Proof.
  unfold of_nat. change 0%Q with (inject_Z 0). rewrite <- Zle_Qle. lia.
Qed.

Lemma status_call fs now self :
  exists found printed,
    V1.get_current_download_status fs now self
    = (Returns found, polled fs self, printed)
    /\ polls printed = 0%nat /\ slept printed = 0%Q.
Proof.
  unfold V1.get_current_download_status, polled.
  pose proof (polled_cases fs self) as Hcases.
  destruct (V1._read_new_log_entries fs self) as [[entries self'] printed].
  destruct (latest_parsed_total (rev entries)) as (found & -> & _).
  simpl. eexists _, printed. split; [done|].
  destruct Hcases as [[[= -> -> ->]|[= -> -> ->]]|(p & c & _ & _ & _ & _ & [= -> -> ->])];
    done.
Qed.

Lemma report_v1_quiet found last_status :
  polls (V1.report found last_status) = 0%nat
  /\ slept (V1.report found last_status) = 0%Q.
Proof. unfold V1.report. by destruct found, last_status. Qed.
End TraceFacts.

Section LoopV1.
Import Text Re Patterns Num Common Shapes Spec.
Variables (fs_at : Q -> filesystem) (interval_seconds end_time : Q).
Hypothesis positive_interval : (0 < interval_seconds)%Q.

Lemma loop_v1_terminates n : forall fuel now self check_count last_status,
  (n < fuel)%nat ->
  (end_time - now <= of_nat n * interval_seconds)%Q ->
  exists self' trace,
    V1.monitor_loop fuel fs_at interval_seconds end_time now self
      check_count last_status = Some (Returns tt, self', trace)
    /\ (polls trace <= n)%nat
    /\ V1.steam_path self' = V1.steam_path self
    /\ V1.log_path self' = V1.log_path self
    /\ (V1.last_position self <= V1.last_position self')%nat
    /\ ((now < end_time)%Q -> (slept trace == end_time - now)%Q)
    /\ ((end_time <= now)%Q -> trace = V1.closing).
Proof.
  assert (forall fuel now self check_count last_status,
            (0 < fuel)%nat -> (end_time <= now)%Q ->
            exists self' trace,
              V1.monitor_loop fuel fs_at interval_seconds end_time now self
                check_count last_status = Some (Returns tt, self', trace)
              /\ (polls trace <= 0)%nat
              /\ V1.steam_path self' = V1.steam_path self
              /\ V1.log_path self' = V1.log_path self
              /\ (V1.last_position self <= V1.last_position self')%nat
              /\ ((now < end_time)%Q -> (slept trace == end_time - now)%Q)
              /\ ((end_time <= now)%Q -> trace = V1.closing)) as Hdone.
  { intros fuel now self cc last Hfuel Hpast.
    destruct fuel as [|fuel]; [lia|]. cbn [V1.monitor_loop].
    rewrite (proj2 (Qltb_false now end_time) Hpast).
    exists self, V1.closing. split_and!; try done. intros. lra. }
  induction n as [|n IH]; intros fuel now self cc last Hfuel Hleft.
  - rewrite Qmult_0_l in Hleft. apply Hdone; [lia|lra].
  - destruct (Qlt_le_dec now end_time) as [Hnow|Hpast].
    2:{ destruct (Hdone fuel now self cc last) as (s & t & ? & ? & ?);
          [lia|done|]. exists s, t. split_and!; try tauto. lia. }
    destruct fuel as [|fuel]; [lia|]. cbn [V1.monitor_loop].
    rewrite (proj2 (Qltb_true now end_time) Hnow).
    destruct (status_call (fs_at now) now self)
      as (found & printed & -> & Hp0 & Hs0).
    pose proof (polled_monotone (fs_at now) self) as Hmono.
    pose proof (polled_keeps_path (fs_at now) self) as Hpath.
    assert (V1.steam_path (polled (fs_at now) self) = V1.steam_path self)
      as Hroot.
    { unfold polled.
      by destruct (polled_cases (fs_at now) self)
        as [[-> | ->]|(p & c & _ & _ & _ & _ & ->)]. }
    set (last' := match found with Some st => Some st | None => last end).
    destruct (report_v1_quiet found last') as [Hrp Hrs].
    rewrite of_nat_S in Hleft.
    destruct (Qltb interval_seconds (end_time - now)) eqn:Hlong.
    + apply Qltb_true in Hlong.
      rewrite (proj2 (Qltb_false interval_seconds 0))
        by (by apply Qlt_le_weak).
      destruct (IH fuel (now + interval_seconds)%Q (polled (fs_at now) self)
                  (S cc) last') as (self' & tr & -> & Hpolls & ? & ? & ? & Hsl & _);
        [lia|lra|].
      cbn [V1.after fmap option_fmap option_map]. eexists _, _.
      split; [done|].
      split_and!; try congruence; try lia.
      * rewrite !polls_app, Hp0, Hrp. simpl. lia.
      * intros _. rewrite !slept_app, Hs0, Hrs. simpl.
        rewrite Hsl by lra. lra.
      * intros. lra.
    + apply Qltb_false in Hlong.
      rewrite (proj2 (Qltb_true 0 (end_time - now))) by lra.
      destruct (Hdone fuel (now + (end_time - now))%Q
                  (polled (fs_at now) self) (S cc) last')
        as (self' & tr & -> & Hpolls & ? & ? & ? & _ & Htr); [lia|lra|].
      cbn [V1.after fmap option_fmap option_map]. eexists _, _.
      split; [done|].
      split_and!; try congruence; try lia.
      * rewrite !polls_app, Hp0, Hrp. simpl. lia.
      * intros _. rewrite !slept_app, Hs0, Hrs, Htr by lra. simpl. lra.
      * intros. lra.
Qed.
End LoopV1.

Section MonitorV1.
Import Text Re Patterns Num Common Shapes Spec.

Lemma monitor_v1_terminates_helper fuel fs_at start self path minutes seconds n :
  truthy (V1.steam_path self) = true -> V1.log_path self = Some path ->
  (0 < seconds)%Q -> (minutes * 60 <= of_nat n * seconds)%Q ->
  (n < fuel)%nat ->
  exists self' trace,
    V1.monitor fuel fs_at start self minutes seconds
    = Some (Returns tt, self', trace)
    /\ (polls trace <= n)%nat
    /\ (V1.last_position self <= V1.last_position self')%nat
    /\ ((0 < minutes)%Q -> (slept trace == minutes * 60)%Q).
Proof.
  intros Ht Hp Hsec Hn Hfuel. unfold V1.monitor. rewrite Ht, Hp.
  cbn [negb].
  destruct (loop_v1_terminates fs_at seconds (start + minutes * 60)%Q Hsec n
              fuel start self 0%nat None Hfuel)
    as (self' & tr & -> & Hpolls & _ & _ & Hpos & Hsl & _); [lra|].
  cbn [V1.after fmap option_fmap option_map]. eexists _, _.
  split; [done|]. split_and!; [|done|].
  - rewrite polls_app.
    assert (polls ((EvProbe path ::
                     (if path_exists (fs_at start) path then []
                      else [EvPrint (MsgLogMissing path)]))
                    ++ [EvPrint MsgBanner]) = 0%nat) as ->; [|done].
    by destruct (path_exists (fs_at start) path).
  - intros Hmin. rewrite slept_app, Hsl by lra.
    assert (slept ((EvProbe path ::
                     (if path_exists (fs_at start) path then []
                      else [EvPrint (MsgLogMissing path)]))
                    ++ [EvPrint MsgBanner]) = 0%Q) as ->; [|lra].
    by destruct (path_exists (fs_at start) path).
Qed.

(** X7.  [monitor] of Strategy A, started with a known install root and a
    positive interval, at a clock reading, a duration and an interval with
    which the loop computes without rounding, comes to its end: with enough
    fuel for [n] checks, where [n] intervals cover the duration, it returns
    normally after at most [n] checks, the cursor has not moved back, and
    the time it slept adds up to the duration exactly; it does not sleep
    past the deadline. *)
Theorem monitor_v1_runs_to_deadline fuel fs_at start self path minutes seconds n :
  exact_run start minutes seconds ->
  truthy (V1.steam_path self) = true -> V1.log_path self = Some path ->
  (0 < seconds)%Q -> (minutes * 60 <= of_nat n * seconds)%Q ->
  (n < fuel)%nat ->
  exists self' trace,
    V1.monitor fuel fs_at start self minutes seconds
    = Some (Returns tt, self', trace)
    /\ (polls trace <= n)%nat
    /\ (V1.last_position self <= V1.last_position self')%nat
    /\ ((0 < minutes)%Q -> (slept trace == minutes * 60)%Q).
Proof. intros _. apply monitor_v1_terminates_helper. Qed.

Lemma monitor_v1_runs_witness :
  exists self' trace,
    V1.monitor 6 (fun _ => Scenario.fs_log Scenario.log_long) 1000
      (V1.__init__ Scenario.reg (Scenario.fs_log Scenario.log_long)).1 5 60
    = Some (Returns tt, self', trace)
    /\ (polls trace <= 5)%nat
    /\ (V1.last_position
          (V1.__init__ Scenario.reg (Scenario.fs_log Scenario.log_long)).1
        <= V1.last_position self')%nat
    /\ ((0 < 5)%Q -> (slept trace == 5 * 60)%Q).
Proof.
  apply (monitor_v1_runs_to_deadline 6 _ 1000 _ Scenario.log_file 5 60 5);
    try reflexivity.
  - apply (exact_run_whole 1000 5 60); [lia|lia|by vm_compute|reflexivity].
  - vm_compute. discriminate.
  - lia.
Defined.
End MonitorV1.

(** ** The records of Strategy B *)

Section InfoFacts.
Import Text Re Patterns Num Common Shapes Spec V2.

Lemma estimate_body_value stats id total now v stats' :
  estimate_body stats id total now = Returns (v, stats') ->
  (0 <= v)%Q /\ (py_contains stats id = false -> v = 0%Q).
Proof.
  unfold estimate_body.
  destruct (py_contains stats id).
  - destruct (py_getitem stats id) as [[last_size last_time]|]; [|done].
    simpl. destruct (Qltb 0 (now - last_time)).
    + destruct (py_setitem stats id _); [|done]. simpl. intros [= <- _].
      split; [apply max0_nonneg|done].
    + destruct (py_setitem stats id _); [|done]. simpl. intros [= <- _].
      split; [apply Qle_refl|done].
  - destruct (py_setitem stats id _); [|done]. simpl. intros [= <- _].
    split; [apply Qle_refl|done].
Qed.

Lemma estimate_facts fs now self id folder :
  (0 <= (_estimate_download_speed fs now self id folder).1)%Q
  /\ steam_path (_estimate_download_speed fs now self id folder).2
     = steam_path self
  /\ (py_contains (download_stats self) id = false ->
      (_estimate_download_speed fs now self id folder).1 = 0%Q).
Proof.
  unfold _estimate_download_speed.
  destruct (negb _); [by split_and!; try apply Qle_refl|].
  destruct (estimate_body _ _ _ _) as [[v stats']|e] eqn:E;
    [|by split_and!; try apply Qle_refl].
  apply estimate_body_value in E as [? ?]. by split_and!.
Qed.

(** X8.  The size sampler never reports a negative speed, whatever
    [download_stats] holds; the first observation of an identifier, one
    that [download_stats] does not hold yet, reports 0 whatever the size of
    the directory; and for a missing staging directory the sampler reports
    0 and leaves the monitor untouched. *)
Theorem sampler_never_negative fs now self id folder :
  (0 <= (_estimate_download_speed fs now self id folder).1)%Q
  /\ (py_contains (download_stats self) id = false ->
      (_estimate_download_speed fs now self id folder).1 = 0%Q)
  /\ (path_exists fs (path_join (path_join folder (txt "downloading")) id)
      = false ->
      _estimate_download_speed fs now self id folder = (0%Q, self)).
Proof.
  destruct (estimate_facts fs now self id folder) as (Hnn & _ & Hfirst).
  split_and!; [done..|].
  intros H. unfold _estimate_download_speed, staging_folder. by rewrite H.
Qed.

Lemma sampler_never_negative_witness :
  (V2._estimate_download_speed (Scenario.fs_library false 157286400 800)
     1010 Scenario.dict_monitor (txt "570") Scenario.steamapps)
  = (0%Q, Scenario.dict_monitor)
  /\ (V2._estimate_download_speed (Scenario.fs_library false 157286400 800)
        1010 (V2.__init__ Scenario.reg (Scenario.fs_staged 1 0)) (txt "440")
        Scenario.steamapps).1 = 0%Q.
Proof.
  split.
  - apply (proj2 (proj2 (sampler_never_negative _ _ _ _ _))). reflexivity.
  - apply (proj1 (proj2 (sampler_never_negative _ _ _ _ _))). reflexivity.
Defined.

Lemma download_entry_facts fs now root self id :
  let d := (download_entry fs now root self id).1 in
  app_id d = id
  /\ game_name d = _get_app_name fs (steam_path self) id
  /\ dl_status d
     = status_of (is_active fs now
                    (staging_folder (path_join root (txt "steamapps")) id))
  /\ (0 <= speed_mbps d)%Q
  /\ steam_path (download_entry fs now root self id).2 = steam_path self
  /\ (forall items, download_stats self = PyList items ->
        speed_mbps d = 0%Q
        /\ (download_entry fs now root self id).2 = self).
Proof.
  unfold download_entry.
  pose proof (estimate_facts fs now self id (path_join root (txt "steamapps")))
    as (Hnn & Hroot & _).
  pose proof (fun items =>
                estimate_on_list fs now self id
                  (path_join root (txt "steamapps")) items) as Hlist.
  destruct (_estimate_download_speed fs now self id _) as [speed self'].
  simpl in *. split_and!; try done.
  - destruct (is_active fs now _); [done|apply Qle_refl].
  - intros items Hi. injection (Hlist items Hi) as -> ->.
    split; [|done]. by destruct (is_active fs now _).
Qed.

Lemma download_entries_facts fs now root ids : forall self,
  let ds := (download_entries fs now root self ids).1 in
  map app_id ds = ids
  /\ steam_path (download_entries fs now root self ids).2 = steam_path self
  /\ (forall d, d ∈ ds ->
        game_name d = _get_app_name fs (steam_path self) (app_id d)
        /\ dl_status d
           = status_of (is_active fs now
                          (staging_folder (path_join root (txt "steamapps"))
                                          (app_id d)))
        /\ (0 <= speed_mbps d)%Q)
  /\ (forall items, download_stats self = PyList items ->
        (forall d, d ∈ ds -> speed_mbps d = 0%Q)
        /\ (download_entries fs now root self ids).2 = self).
Proof.
  induction ids as [|id ids IH]; intros self; simpl.
  - split_and!; try done; try by inversion 1.
    intros items _. split; [by inversion 1|done].
  - pose proof (download_entry_facts fs now root self id)
      as (Hid & Hname & Hst & Hnn & Hroot & Hlist).
    destruct (download_entry fs now root self id) as [d0 self1].
    specialize (IH self1). simpl in *.
    destruct IH as (Hids & Hroot' & Hall & Hlist').
    destruct (download_entries fs now root self1 ids) as [ds self2].
    simpl in *. split_and!.
    + by rewrite Hid, Hids.
    + congruence.
    + intros d [->|Hd]%elem_of_cons.
      * by rewrite Hid.
      * rewrite <- Hroot. by apply Hall.
    + intros items Hi. destruct (Hlist items Hi) as [H0 ->].
      destruct (Hlist' items Hi) as [Hz ->]. split; [|done].
      intros d [->|Hd]%elem_of_cons; auto.
Qed.

(** X9.  [get_download_info] returns one record for each identifier of
    the discovery, in its order, duplicates included.  A record bears the
    name that [_get_app_name] gives, a speed that is not negative, and the
    status downloading exactly when the staging directory of the identifier
    under [steamapps] of the install root is active; so an identifier whose
    staging directory lies in another library only is reported paused, with
    speed 0.  The install root is never changed, and an exception of the
    discovery is passed on with the monitor untouched. *)
Theorem download_info_follows_discovery fs now self :
  (forall e,
     _get_downloading_apps fs self = Raises e ->
     get_download_info fs now self = (Raises e, self))
  /\ (forall ids,
        _get_downloading_apps fs self = Returns ids ->
        exists downloads self',
          get_download_info fs now self = (Returns downloads, self')
          /\ map app_id downloads = ids
          /\ steam_path self' = steam_path self
          /\ forall d, d ∈ downloads ->
               game_name d = _get_app_name fs (steam_path self) (app_id d)
               /\ (0 <= speed_mbps d)%Q
               /\ forall root, steam_path self = Some root ->
                    (dl_status d = Downloading
                     <-> is_active fs now
                           (path_join (path_join
                                         (path_join root (txt "steamapps"))
                                         (txt "downloading")) (app_id d))
                         = true)
                    /\ (path_exists fs
                          (path_join (path_join
                                        (path_join root (txt "steamapps"))
                                        (txt "downloading")) (app_id d))
                        = false ->
                        dl_status d = Paused /\ speed_mbps d = 0%Q)).
Proof.
  unfold get_download_info, _get_downloading_apps.
  destruct (steam_path self) as [root|] eqn:Hroot.
  2:{ split; [done|]. intros ids [= <-]. eexists [], self.
      split_and!; try done. by inversion 1. }
  destruct (truthy (Some root)).
  2:{ split; [done|]. intros ids [= <-]. eexists [], self.
      split_and!; try done. by inversion 1. }
  split.
  - by intros e ->.
  - intros ids ->.
    pose proof (download_entries_facts fs now root ids self)
      as (Hids & Hr & Hall & _).
    pose proof (download_entries_paused fs now root ids self) as Hpaused.
    destruct (download_entries fs now root self ids) as [ds self'].
    cbn [fst snd] in *. exists ds, self'.
    split_and!; try done; [congruence|].
    intros d Hd. destruct (Hall d Hd) as (Hname & Hst & Hnn).
    rewrite Hroot in Hname. split_and!; try done.
    intros root' [= <-]. unfold staging_folder in Hst.
    rewrite Hst. split; [apply status_of_downloading|].
    intros He.
    assert (dl_status d = Paused) as Hp
      by (by rewrite Hst, (is_active_missing _ _ _ He)).
    split; [by rewrite (is_active_missing _ _ _ He)|]. by apply Hpaused.
Qed.

Lemma download_info_witness :
  exists downloads self',
    get_download_info (Scenario.fs_library true 104857600 999) 1000
      (V2.__init__ Scenario.reg (Scenario.fs_staged 1 0))
    = (Returns downloads, self')
    /\ map app_id downloads = [txt "440"; txt "440"].
Proof.
  destruct (proj2 (download_info_follows_discovery
                     (Scenario.fs_library true 104857600 999) 1000
                     (V2.__init__ Scenario.reg (Scenario.fs_staged 1 0)))
              [txt "440"; txt "440"] eq_refl)
    as (downloads & self' & H & Hids & _).
  by exists downloads, self'.
Defined.

(** X10.  As long as [download_stats] is a list, which is what
    [__init__] makes it, [get_download_info] leaves the monitor as it was
    and every record it returns has the speed 0: a monitor of Strategy B
    never reports a speed other than 0. *)
Theorem download_info_speeds_are_zero fs now self items downloads self' :
  download_stats self = PyList items ->
  get_download_info fs now self = (Returns downloads, self') ->
  self' = self /\ forall d, d ∈ downloads -> speed_mbps d = 0%Q.
Proof.
  intros Hi. unfold get_download_info.
  destruct (steam_path self) as [root|];
    [|intros [= <- <-]; split; [done|by inversion 1]].
  destruct (truthy (Some root));
    [|intros [= <- <-]; split; [done|by inversion 1]].
  destruct (_get_downloading_apps fs self) as [ids|]; [|done].
  pose proof (download_entries_facts fs now root ids self)
    as (_ & _ & _ & Hlist).
  destruct (Hlist items Hi) as [Hz Hs].
  destruct (download_entries fs now root self ids) as [ds self2].
  simpl in *. intros [= <- <-]. by split.
Qed.

Lemma download_info_speeds_witness :
  let fs := Scenario.fs_library false 157286400 1009 in
  let self := V2.__init__ Scenario.reg fs in
  (get_download_info fs 1010 self).2 = self
  /\ forall d, d ∈ match (get_download_info fs 1010 self).1 with
                   | Returns ds => ds
                   | Raises _ => []
                   end -> speed_mbps d = 0%Q.
Proof.
  cbv zeta.
  destruct (download_info_speeds_are_zero
              (Scenario.fs_library false 157286400 1009) 1010
              (V2.__init__ Scenario.reg
                 (Scenario.fs_library false 157286400 1009)) []
              (match (get_download_info
                        (Scenario.fs_library false 157286400 1009) 1010
                        (V2.__init__ Scenario.reg
                           (Scenario.fs_library false 157286400 1009))).1 with
               | Returns ds => ds
               | Raises _ => []
               end)
              (get_download_info
                 (Scenario.fs_library false 157286400 1009) 1010
                 (V2.__init__ Scenario.reg
                    (Scenario.fs_library false 157286400 1009))).2
              eq_refl) as [H1 H2]; [vm_compute; reflexivity|].
  split; [exact H1|exact H2].
Defined.
End InfoFacts.

Section LoopV2.
Import Text Re Patterns Num Common Shapes Spec.
Variables (fs_at : Q -> filesystem) (interval_seconds end_time : Q).
Hypothesis positive_interval : (0 < interval_seconds)%Q.

Lemma info_keeps_root fs now self :
  V2.steam_path (V2.get_download_info fs now self).2 = V2.steam_path self.
Proof.
  unfold V2.get_download_info.
  destruct (V2.steam_path self) as [root|] eqn:Hroot; [|done].
  destruct (truthy (Some root)); [|done].
  destruct (V2._get_downloading_apps fs self) as [ids|]; [|done].
  pose proof (download_entries_facts fs now root ids self) as (_ & Hr & _).
  destruct (V2.download_entries fs now root self ids) as [ds self'].
  simpl in *. congruence.
Qed.

Lemma report_v2_quiet downloads :
  polls (V2.report downloads) = 0%nat /\ slept (V2.report downloads) = 0%Q.
Proof.
  unfold V2.report. destruct downloads as [|d ds]; [done|].
  generalize (d :: ds). intros l. by induction l.
Qed.

Lemma loop_v2_terminates n : forall fuel now self check_count,
  (n < fuel)%nat ->
  (end_time - now <= of_nat n * interval_seconds)%Q ->
  exists res self' trace,
    V2.monitor_loop fuel fs_at interval_seconds end_time now self check_count
    = Some (res, self', trace)
    /\ (polls trace <= n)%nat
    /\ V2.steam_path self' = V2.steam_path self
    /\ (res = Returns tt -> (now < end_time)%Q ->
        (slept trace == end_time - now)%Q)
    /\ ((end_time <= now)%Q -> res = Returns tt /\ trace = V2.closing).
Proof.
  assert (forall fuel now self check_count,
            (0 < fuel)%nat -> (end_time <= now)%Q ->
            exists res self' trace,
              V2.monitor_loop fuel fs_at interval_seconds end_time now self
                check_count = Some (res, self', trace)
              /\ (polls trace <= 0)%nat
              /\ V2.steam_path self' = V2.steam_path self
              /\ (res = Returns tt -> (now < end_time)%Q ->
                  (slept trace == end_time - now)%Q)
              /\ ((end_time <= now)%Q -> res = Returns tt /\ trace = V2.closing))
    as Hdone.
  { intros fuel now self cc Hfuel Hpast.
    destruct fuel as [|fuel]; [lia|]. cbn [V2.monitor_loop].
    rewrite (proj2 (Qltb_false now end_time) Hpast).
    exists (Returns tt), self, V2.closing. split_and!; try done. intros. lra. }
  induction n as [|n IH]; intros fuel now self cc Hfuel Hleft.
  - rewrite Qmult_0_l in Hleft. apply Hdone; [lia|lra].
  - destruct (Qlt_le_dec now end_time) as [Hnow|Hpast].
    2:{ destruct (Hdone fuel now self cc) as (r & s & t & ? & ? & ?);
          [lia|done|]. exists r, s, t. split_and!; try tauto. lia. }
    destruct fuel as [|fuel]; [lia|]. cbn [V2.monitor_loop].
    rewrite (proj2 (Qltb_true now end_time) Hnow).
    pose proof (info_keeps_root (fs_at now) now self) as Hroot.
    destruct (V2.get_download_info (fs_at now) now self) as [res self1].
    cbn [snd] in Hroot.
    destruct res as [downloads|e].
    2:{ eexists _, _, _. split; [done|]. split_and!; try done.
        - unfold polls. simpl. lia.
        - intros. lra. }
    destruct (report_v2_quiet downloads) as [Hrp Hrs].
    rewrite of_nat_S in Hleft.
    destruct (Qltb interval_seconds (end_time - now)) eqn:Hlong.
    + apply Qltb_true in Hlong.
      rewrite (proj2 (Qltb_false interval_seconds 0))
        by (by apply Qlt_le_weak).
      destruct (IH fuel (now + interval_seconds)%Q self1 (S cc))
        as (res & self' & tr & -> & Hpolls & ? & Hsl & _); [lia|lra|].
      cbn [V2.after fmap option_fmap option_map]. eexists _, _, _.
      split; [done|]. split_and!; try congruence.
      * rewrite !polls_app, Hrp. simpl. lia.
      * intros Hres _. rewrite !slept_app, Hrs. simpl.
        rewrite Hsl by (done || lra). lra.
      * intros. lra.
    + apply Qltb_false in Hlong.
      rewrite (proj2 (Qltb_true 0 (end_time - now))) by lra.
      destruct (Hdone fuel (now + (end_time - now))%Q self1 (S cc))
        as (res & self' & tr & -> & Hpolls & ? & _ & Htr); [lia|lra|].
      destruct Htr as [-> ->]; [lra|].
      cbn [V2.after fmap option_fmap option_map]. eexists _, _, _.
      split; [done|]. split_and!; try congruence.
      * rewrite !polls_app, Hrp. simpl. lia.
      * intros _ _. rewrite !slept_app, Hrs. simpl. lra.
      * intros. lra.
Qed.
End LoopV2.

Section MonitorV2.
Import Text Re Patterns Num Common Shapes Spec.

(** X11.  [monitor] of Strategy B, started with a known install root and
    a positive interval, at a clock reading, a duration and an interval
    with which the loop computes without rounding, comes to its end as
    well, after at most [n] checks when [n] intervals cover the duration,
    and keeps the install root; it ends either normally, having slept the
    duration exactly, or with the exception of a check. *)
Theorem monitor_v2_runs_to_deadline fuel fs_at start self minutes seconds n :
  exact_run start minutes seconds ->
  truthy (V2.steam_path self) = true ->
  (0 < seconds)%Q -> (minutes * 60 <= of_nat n * seconds)%Q ->
  (n < fuel)%nat ->
  exists res self' trace,
    V2.monitor fuel fs_at start self minutes seconds = Some (res, self', trace)
    /\ (polls trace <= n)%nat
    /\ V2.steam_path self' = V2.steam_path self
    /\ (res = Returns tt -> (0 < minutes)%Q ->
        (slept trace == minutes * 60)%Q).
Proof.
  intros _ Ht Hsec Hn Hfuel. unfold V2.monitor. rewrite Ht. cbn [negb].
  destruct (loop_v2_terminates fs_at seconds (start + minutes * 60)%Q Hsec n
              fuel start self 0%nat Hfuel)
    as (res & self' & tr & -> & Hpolls & Hroot & Hsl & _); [lra|].
  cbn [V2.after fmap option_fmap option_map]. eexists _, _, _.
  split; [done|]. split_and!; [by rewrite polls_app|done|].
  intros Hres Hmin. rewrite slept_app, Hsl by (done || lra). simpl. lra.
Qed.

Lemma monitor_v2_runs_witness :
  exists res self' trace,
    V2.monitor 6 (fun _ => Scenario.fs_library true 104857600 999) 1000
      (V2.__init__ Scenario.reg (Scenario.fs_staged 1 0)) 5 60
    = Some (res, self', trace)
    /\ (polls trace <= 5)%nat
    /\ V2.steam_path self'
       = V2.steam_path (V2.__init__ Scenario.reg (Scenario.fs_staged 1 0))
    /\ (res = Returns tt -> (0 < 5)%Q -> (slept trace == 5 * 60)%Q).
Proof.
  apply (monitor_v2_runs_to_deadline 6 _ 1000 _ 5 60 5); try reflexivity.
  - apply (exact_run_whole 1000 5 60); [lia|lia|by vm_compute|reflexivity].
  - vm_compute. discriminate.
  - lia.
Defined.
End MonitorV2.

(** ** The entry points *)

Section EntryFacts.
Import Text Re Patterns Num Common Shapes Spec Entry.

Lemma init_v1_cases reg fs :
  (V1.steam_path (V1.__init__ reg fs).1 = None)
  \/ exists root,
       V1.steam_path (V1.__init__ reg fs).1 = Some root
       /\ truthy (Some root) = true
       /\ V1.log_path (V1.__init__ reg fs).1
          = Some (path_join (path_join root (txt "logs"))
                            (txt "content_log.txt"))
       /\ V1.last_position (V1.__init__ reg fs).1 = 0%nat.
Proof.
  unfold V1.__init__, V1._find_steam_path.
  destruct (probe_registry reg fs registry_paths) as [root|] eqn:Hp;
    [|by left].
  right. exists root.
  apply probe_registry_some in Hp as (_ & _ & _ & _ & _ & _ & Hne & _).
  assert (truthy (Some root) = true) as Ht by (by destruct root).
  cbv beta iota zeta delta
    [fst V1.steam_path V1.log_path V1.last_position].
  by rewrite Ht.
Qed.

Lemma shown_all out trace :
  (forall m, out m = true) -> shown out trace = (trace, true).
Proof.
  intros Hall. induction trace as [|e trace IH]; [done|].
  destruct e as [m| | |]; cbn [shown]; rewrite ?Hall, IH; done.
Qed.

Lemma shown_polls out trace : (polls (shown out trace).1 <= polls trace)%nat.
Proof.
  induction trace as [|e trace IH]; [done|].
  destruct e as [m| | |]; cbn [shown]; try destruct (out m);
    destruct (shown out trace) as [t ok]; unfold polls in *; simpl in *; lia.
Qed.

(** How [main] ends after a [monitor] that returned. *)
Lemma finish_returned out trace :
  exists t (ok : bool),
    finish out trace (Returns tt)
    = map Ran t ++ (if ok then @nil main_event
                else [Critical UnicodeEncodeError])
    /\ (polls t <= polls trace)%nat
    /\ ((forall m, out m = true) -> ok = true).
Proof.
  unfold finish. pose proof (shown_polls out trace) as Hp.
  pose proof (shown_all out trace) as Hall.
  destruct (shown out trace) as [t ok]. exists t, ok.
  split_and!; [by destruct ok|done|].
  intros H. specialize (Hall H). congruence.
Qed.

(** X12.  [main] of Strategy A, with fuel for its five checks and started
    at a clock reading with which the loop computes without rounding,
    reaches its [except] clause only through the standard output: whatever
    strings the registry and whatever the file system hold, and however the
    file system changes during the run, the run performs at most five
    checks and ends either normally or at a message that the output cannot
    encode, and it ends normally when the output can encode every message.
    When the output cannot encode the first message, which tells whether
    Steam was found, the run ends there, before any check. *)
Theorem main_v1_critical_only_from_output fuel out reg fs0 fs_at start :
  (5 < fuel)%nat -> exact_run start 5 60 ->
  (exists trace (ok : bool),
     main_v1 fuel out reg fs0 fs_at start
     = Some (map Ran trace
             ++ (if ok then @nil main_event
                else [Critical UnicodeEncodeError]))
     /\ (polls trace <= 5)%nat
     /\ ((forall m, out m = true) -> ok = true))
  /\ (forall m rest,
        (V1.__init__ reg fs0).2 = EvPrint m :: rest -> out m = false ->
        main_v1 fuel out reg fs0 fs_at start
        = Some [Critical UnicodeEncodeError]).
Proof.
  intros Hfuel _. unfold main_v1.
  pose proof (init_v1_cases reg fs0) as Hinit.
  assert (polls (V1.__init__ reg fs0).2 = 0%nat) as Hprinted.
  { unfold V1.__init__, V1._find_steam_path.
    by destruct (probe_registry reg fs0 registry_paths). }
  destruct (V1.__init__ reg fs0) as [monitor printed]. cbn [fst snd] in *.
  split.
  2:{ intros m rest -> Hm. cbn [shown]. by rewrite Hm. }
  pose proof (shown_polls out printed) as Hp.
  pose proof (shown_all out printed) as Hall.
  destruct (shown out printed) as [t ok0]. cbn [fst] in Hp.
  destruct ok0.
  2:{ exists t, false. split_and!; [done|lia|].
      intros H. specialize (Hall H). congruence. }
  assert (exists self' tr,
            V1.monitor fuel fs_at start monitor 5 60
            = Some (Returns tt, self', tr) /\ (polls tr <= 5)%nat)
    as (self' & tr & -> & Hpolls).
  { destruct Hinit as [Hnone|(root & Hroot & Ht & Hlog & _)].
    - rewrite monitor_v1_not_found by (by rewrite Hnone).
      eexists _, _. split; [done|]. unfold polls. simpl. lia.
    - destruct (monitor_v1_terminates_helper fuel fs_at start monitor
                  (path_join (path_join root (txt "logs"))
                             (txt "content_log.txt")) 5 60 5)
        as (self' & tr & -> & Hpolls & _);
        [by rewrite Hroot | exact Hlog | reflexivity
        | vm_compute; discriminate | lia | ].
      by eexists _, _. }
  cbn [fmap option_fmap option_map].
  destruct (finish_returned out tr) as (t2 & ok & -> & Hp2 & Hok).
  exists (t ++ t2), ok. split_and!; [|rewrite polls_app; lia|done].
  by rewrite map_app, <- app_assoc.
Qed.

Lemma main_v1_critical_only_witness :
  (exists trace (ok : bool),
     main_v1 6 (fun _ => true) Scenario.reg
       (Scenario.fs_log Scenario.log_long)
       (fun _ => Scenario.fs_log Scenario.log_long) 1000
     = Some (map Ran trace
             ++ (if ok then @nil main_event
                else [Critical UnicodeEncodeError]))
     /\ (polls trace <= 5)%nat
     /\ ((forall m, (fun _ : message => true) m = true) -> ok = true))
  /\ main_v1 6 (fun m => match m with MsgSteamFound _ => false | _ => true end)
       Scenario.reg (Scenario.fs_log Scenario.log_long)
       (fun _ => Scenario.fs_log Scenario.log_long) 1000
     = Some [Critical UnicodeEncodeError].
Proof.
  split.
  - apply main_v1_critical_only_from_output; [lia|].
    apply (exact_run_whole 1000 5 60); [lia|lia|by vm_compute|reflexivity].
  - eapply (proj2 (main_v1_critical_only_from_output 6 _ Scenario.reg
                     (Scenario.fs_log Scenario.log_long) _ 1000
                     ltac:(lia)
                     (exact_run_whole 1000 5 60 ltac:(lia) ltac:(lia)
                        ltac:(by vm_compute) eq_refl)));
      reflexivity.
Defined.
End EntryFacts.

(** ** The listing of the library folders *)

Section ListingFacts.
Import Text Re Patterns Num Common Shapes Spec V2.

Lemma scan_folders_first_failure fs pre folder post e : forall acc,
  listable fs pre ->
  path_exists fs folder = true -> listdir fs folder = Raises e ->
  scan_folders fs (pre ++ folder :: post) acc = Raises e.
Proof.
  induction pre as [|f pre IH]; intros acc Hl Hex Hls; cbn [app scan_folders].
  - by rewrite Hex, Hls.
  - assert (listable fs pre) as Hrest.
    { intros f' Hf'. apply Hl. by apply list_elem_of_further. }
    destruct (path_exists fs f) eqn:Hf; cbn [negb]; [|by apply IH].
    destruct (Hl f) as [files ->]; [apply list_elem_of_here|done|].
    by apply IH.
Qed.

Lemma info_returns_when_listable fs now self root :
  steam_path self = Some root -> truthy (Some root) = true ->
  listable fs (library_folders fs root) ->
  exists downloads self',
    get_download_info fs now self = (Returns downloads, self').
Proof.
  intros Hroot Ht Hl. unfold get_download_info, _get_downloading_apps.
  rewrite Hroot, Ht.
  destruct (scan_folders_returns fs _ [] Hl) as [ids ->].
  destruct (download_entries fs now root self ids) as [ds self'].
  by eexists _, _.
Qed.

Lemma info_raises_at_first_failure fs now self root pre folder post e :
  steam_path self = Some root -> truthy (Some root) = true ->
  library_folders fs root = pre ++ folder :: post ->
  listable fs pre ->
  path_exists fs folder = true -> listdir fs folder = Raises e ->
  get_download_info fs now self = (Raises e, self).
Proof.
  intros Hroot Ht Hlib Hl Hex Hls.
  unfold get_download_info, _get_downloading_apps.
  rewrite Hroot, Ht, Hlib.
  by rewrite (scan_folders_first_failure fs pre folder post e [] Hl Hex Hls).
Qed.

(** X13.  A check of Strategy B raises exactly when a library folder that
    exists cannot be listed: when every existing library folder can be
    listed, [get_download_info] returns its records; and the first
    existing folder whose listing raises makes [get_download_info] raise
    the same exception, with the monitor unchanged. *)
Theorem download_info_raises_only_from_listing fs now self root :
  steam_path self = Some root -> truthy (Some root) = true ->
  (listable fs (library_folders fs root) ->
     exists downloads self',
       get_download_info fs now self = (Returns downloads, self'))
  /\ (forall pre folder post e,
        library_folders fs root = pre ++ folder :: post ->
        listable fs pre ->
        path_exists fs folder = true -> listdir fs folder = Raises e ->
        get_download_info fs now self = (Raises e, self)).
Proof.
  intros Hroot Ht. split.
  - by apply info_returns_when_listable.
  - intros pre folder post e. by apply info_raises_at_first_failure.
Qed.

Lemma download_info_raises_witness :
  get_download_info
    (Scenario.fs_of [Scenario.root; Scenario.steamapps] [] [] []) 1000
    (V2.__init__ Scenario.reg (Scenario.fs_staged 1 0))
  = (Raises OSError, V2.__init__ Scenario.reg (Scenario.fs_staged 1 0)).
Proof.
  eapply (proj2 (download_info_raises_only_from_listing
                   (Scenario.fs_of [Scenario.root; Scenario.steamapps]
                      [] [] []) 1000
                   (V2.__init__ Scenario.reg (Scenario.fs_staged 1 0))
                   Scenario.root eq_refl eq_refl)
                [] Scenario.steamapps []).
  - reflexivity.
  - intros f Hf. by inversion Hf.
  - reflexivity.
  - reflexivity.
Defined.

(** The guarded append of [scan_file] keeps a list without duplicates when
    the staging directory of the file's identifier does not exist. *)
Lemma scan_file_nodup fs folder acc file :
  (forall id, path_exists fs (staging_folder folder id) = false) ->
  NoDup acc -> NoDup (scan_file fs folder acc file).
Proof.
  intros Hst Hnd. unfold scan_file.
  destruct (startswith file (txt "appmanifest_") && endswith file (txt ".acf"));
    [|done].
  set (id := replace (replace file (txt "appmanifest_") []) (txt ".acf") []).
  pose proof (Hst id) as Hid. unfold staging_folder in Hid. rewrite Hid.
  destruct (read_file fs (path_join folder file)) as [content|]; [|done].
  destruct (contains (txt "StateFlags") content); [|done].
  destruct (search state_flags_pattern content) as [g|]; [|done].
  destruct (bool_decide (group 1 g ∈ active_state_flags)); [|done].
  destruct (bool_decide (id ∈ acc)) eqn:Hin; [done|].
  apply bool_decide_eq_false in Hin.
  apply NoDup_app. split_and!; [done| |apply NoDup_singleton].
  intros x Hx [->|Hx']%elem_of_cons; [done|by inversion Hx'].
Qed.

Lemma scan_files_nodup fs folder files : forall acc,
  (forall id, path_exists fs (staging_folder folder id) = false) ->
  NoDup acc -> NoDup (fold_left (scan_file fs folder) files acc).
Proof.
  induction files as [|file rest IH]; intros acc Hst Hnd; [done|].
  cbn [fold_left]. apply IH; [done|]. by apply scan_file_nodup.
Qed.

Lemma scan_folders_nodup fs folders : forall acc ids,
  (forall folder id, folder ∈ folders ->
     path_exists fs (staging_folder folder id) = false) ->
  NoDup acc -> scan_folders fs folders acc = Returns ids -> NoDup ids.
Proof.
  induction folders as [|folder rest IH]; intros acc ids Hst Hnd;
    cbn [scan_folders].
  - by intros [= <-].
  - assert (forall f id, f ∈ rest ->
              path_exists fs (staging_folder f id) = false) as Hrest.
    { intros f id Hf. apply Hst. by apply list_elem_of_further. }
    destruct (path_exists fs folder); cbn [negb]; [|by apply IH].
    destruct (listdir fs folder) as [files|e]; [|done].
    apply IH; [done|]. apply scan_files_nodup; [|done].
    intros id. apply Hst, list_elem_of_here.
Qed.

(** X14.  Where no library folder holds a staging directory, the
    discovery lists no identifier twice: every append that is left is the
    guarded one. *)
Theorem discovery_without_staging_has_no_duplicates fs self ids :
  (forall root folder id,
     steam_path self = Some root -> folder ∈ library_folders fs root ->
     path_exists fs (staging_folder folder id) = false) ->
  _get_downloading_apps fs self = Returns ids -> NoDup ids.
Proof.
  intros Hst. unfold _get_downloading_apps.
  destruct (steam_path self) as [root|] eqn:Hroot;
    [|intros [= <-]; apply NoDup_nil_2].
  destruct (truthy (Some root)); [|intros [= <-]; apply NoDup_nil_2].
  apply scan_folders_nodup; [|apply NoDup_nil_2].
  intros folder id. by apply Hst.
Qed.

Lemma discovery_without_staging_witness :
  _get_downloading_apps
    (Scenario.fs_of
       [Scenario.root; Scenario.steamapps; Scenario.manifest_440]
       [(Scenario.manifest_440,
         Scenario.quoted (txt "StateFlags") (txt "4"))]
       [(Scenario.steamapps,
         [txt "appmanifest_440.acf"; txt "appmanifest_440.acf"])] [])
    Scenario.dict_monitor
  = Returns [txt "440"]
  /\ NoDup [txt "440"].
Proof.
  split; [reflexivity|].
  apply (discovery_without_staging_has_no_duplicates
           (Scenario.fs_of
              [Scenario.root; Scenario.steamapps; Scenario.manifest_440]
              [(Scenario.manifest_440,
                Scenario.quoted (txt "StateFlags") (txt "4"))]
              [(Scenario.steamapps,
                [txt "appmanifest_440.acf"; txt "appmanifest_440.acf"])] [])
           Scenario.dict_monitor).
  - intros root folder id [= <-] Hin.
    apply bool_decide_eq_false.
    assert (folder = Scenario.steamapps) as ->.
    { vm_compute in Hin. by apply list_elem_of_singleton in Hin. }
    unfold staging_folder, path_join, Scenario.steamapps, Scenario.root.
    vm_compute. intros Hin'.
    repeat (apply elem_of_cons in Hin' as [Hin'|Hin']; [discriminate Hin'|]).
    by inversion Hin'.
  - reflexivity.
Defined.
End ListingFacts.

(** ** The entry point of Strategy B *)

Section EntryV2Facts.
Import Text Re Patterns Num Common Shapes Spec Entry V2.

Lemma loop_v2_listable_returns fs_at interval_seconds end_time root :
  forall fuel now self check_count res self' trace,
    (0 <= interval_seconds)%Q ->
    steam_path self = Some root -> truthy (Some root) = true ->
    (forall t, listable (fs_at t) (library_folders (fs_at t) root)) ->
    monitor_loop fuel fs_at interval_seconds end_time now self check_count
    = Some (res, self', trace) ->
    res = Returns tt.
Proof.
  induction fuel as [|fuel IH];
    intros now self cc res self' tr Hpos Hroot Ht Hl; [done|].
  cbn [monitor_loop].
  destruct (Qltb now end_time); [|by intros [= <- _ _]].
  pose proof (info_keeps_root (fs_at now) now self) as Hkeep.
  destruct (info_returns_when_listable (fs_at now) now self root Hroot Ht
              (Hl now)) as (ds & self1 & Hinfo).
  rewrite Hinfo in *. cbn [snd] in Hkeep.
  rewrite (proj2 (Qltb_false interval_seconds 0) Hpos).
  assert (forall now' cc' evs,
            after evs (monitor_loop fuel fs_at interval_seconds end_time now'
                         self1 cc')
            = Some (res, self', tr) -> res = Returns tt) as Hnext.
  { intros now' cc' evs Hrun.
    destruct (monitor_loop fuel fs_at interval_seconds end_time now' self1 cc')
      as [[[r s] t]|] eqn:Hloop; [|done].
    cbn [after fmap option_fmap option_map] in Hrun.
    injection Hrun as <- _ _.
    eapply (IH now' self1 cc'); try done. congruence. }
  destruct (Qltb interval_seconds (end_time - now)); [by apply Hnext|].
  destruct (Qltb 0 (end_time - now)); [by apply Hnext|].
  by intros [= <- _ _].
Qed.

Lemma found_root_truthy reg fs root :
  _find_steam_path reg fs = Some root -> truthy (Some root) = true.
Proof.
  unfold _find_steam_path.
  intros (_ & _ & _ & _ & _ & _ & Hne & _)%probe_registry_some.
  by destruct root.
Qed.

(** X15.  When the [steamapps] folder under the install root exists and
    cannot be listed at the start, [main] of Strategy B, on an output that
    can encode the banner and the head of a check, prints the banner and
    the head of the first check and then reports the exception of the
    listing as a critical error: the run ends at its first check, without
    a report and without a sleep. *)
Theorem main_v2_reports_unlistable_library fuel out reg fs0 fs_at start root e :
  _find_steam_path reg fs0 = Some root ->
  path_exists (fs_at start) (path_join root (txt "steamapps")) = true ->
  listdir (fs_at start) (path_join root (txt "steamapps")) = Raises e ->
  (0 < fuel)%nat ->
  out MsgBanner = true -> out (MsgCheck 1 start) = true ->
  out MsgRule = true ->
  main_v2 fuel out reg fs0 fs_at start
  = Some (map Ran [EvPrint MsgBanner; EvPrint (MsgCheck 1 start);
                   EvPrint MsgRule; EvPoll]
          ++ [Critical e]).
Proof.
  intros Hfound Hex Hls Hfuel Hb Hc Hr.
  pose proof (found_root_truthy reg fs0 root Hfound) as Ht.
  unfold main_v2, monitor, __init__. cbn [steam_path].
  rewrite Hfound, Ht. cbn [negb].
  destruct fuel as [|fuel]; [lia|]. cbn [monitor_loop].
  rewrite (proj2 (Qltb_true start (start + 5 * 60))) by lra.
  rewrite (info_raises_at_first_failure (fs_at start) start _ root []
             (path_join root (txt "steamapps"))
             (tail (library_folders (fs_at start) root)) e);
    try done; [|intros f Hf; by inversion Hf].
  cbn [after fmap option_fmap option_map app]. unfold finish.
  cbn [shown]. by rewrite Hb, Hc, Hr.
Qed.

Lemma main_v2_unlistable_witness :
  main_v2 1 (fun _ => true) Scenario.reg (Scenario.fs_staged 1 0)
    (fun _ => Scenario.fs_of [Scenario.root; Scenario.steamapps] [] [] [])
    1000
  = Some (map Ran [EvPrint MsgBanner; EvPrint (MsgCheck 1 1000);
                   EvPrint MsgRule; EvPoll]
          ++ [Critical OSError]).
Proof.
  apply (main_v2_reports_unlistable_library 1 _ Scenario.reg
           (Scenario.fs_staged 1 0) _ 1000 Scenario.root OSError);
    try reflexivity.
  lia.
Defined.

(** X16.  As long as every library folder that exists can be listed,
    [main] of Strategy B, with fuel for its five checks and started at a
    clock reading with which the loop computes without rounding, reaches
    its [except] clause only through the standard output: the run performs
    at most five checks and ends either normally or at a message that the
    output cannot encode, and it ends normally when the output can encode
    every message.  Within a check, the listing of a library folder is the
    only thing that can raise besides [print]. *)
Theorem main_v2_critical_only_from_output fuel out reg fs0 fs_at start :
  (5 < fuel)%nat -> exact_run start 5 60 ->
  (forall root t,
     _find_steam_path reg fs0 = Some root ->
     listable (fs_at t) (library_folders (fs_at t) root)) ->
  exists trace (ok : bool),
    main_v2 fuel out reg fs0 fs_at start
    = Some (map Ran trace
            ++ (if ok then @nil main_event
                else [Critical UnicodeEncodeError]))
    /\ (polls trace <= 5)%nat
    /\ ((forall m, out m = true) -> ok = true).
Proof.
  intros Hfuel _ Hl. unfold main_v2.
  assert (exists self' tr,
            monitor fuel fs_at start (__init__ reg fs0) 5 60
            = Some (Returns tt, self', tr) /\ (polls tr <= 5)%nat)
    as (self' & tr & -> & Hpolls).
  { destruct (_find_steam_path reg fs0) as [root|] eqn:Hfound.
    - pose proof (found_root_truthy reg fs0 root Hfound) as Ht.
      unfold monitor, __init__. cbn [steam_path]. rewrite Hfound, Ht.
      cbn [negb].
      destruct (loop_v2_terminates fs_at 60 (start + 5 * 60)%Q eq_refl 5
                  fuel start
                  {| steam_path := Some root; download_stats := PyList [] |}
                  0%nat Hfuel)
        as (res & self' & tr & Hloop & Hpolls & _);
        [change (of_nat 5) with 5%Q; lra|].
      assert (res = Returns tt) as ->.
      { eapply (loop_v2_listable_returns fs_at 60 (start + 5 * 60)%Q root);
          [| | |by intros t; apply Hl|exact Hloop]; done. }
      rewrite Hloop. cbn [after fmap option_fmap option_map].
      eexists _, _. split; [done|]. unfold polls in *. simpl. lia.
    - rewrite monitor_v2_not_found
        by (unfold __init__; cbn [steam_path]; by rewrite Hfound).
      eexists _, _. split; [done|]. unfold polls. simpl. lia. }
  cbn [fmap option_fmap option_map].
  destruct (finish_returned out tr) as (t & ok & -> & Hp & Hok).
  exists t, ok. split_and!; [done|lia|done].
Qed.

Lemma main_v2_critical_only_witness :
  exists trace (ok : bool),
    main_v2 6 (fun _ => true) Scenario.reg (Scenario.fs_staged 1 0)
      (fun _ => Scenario.fs_library true 104857600 999) 1000
    = Some (map Ran trace
            ++ (if ok then @nil main_event
                else [Critical UnicodeEncodeError]))
    /\ (polls trace <= 5)%nat
    /\ ((forall m, (fun _ : message => true) m = true) -> ok = true).
Proof.
  apply main_v2_critical_only_from_output; [lia| |].
  - apply (exact_run_whole 1000 5 60); [lia|lia|by vm_compute|reflexivity].
  - intros root t Hroot folder Hin _.
    vm_compute in Hroot. injection Hroot as <-.
    assert (folder = Scenario.steamapps) as ->.
    { vm_compute in Hin.
      by repeat (apply elem_of_cons in Hin as [Hin|Hin]; [done|]);
        inversion Hin. }
    by eexists.
Defined.
End EntryV2Facts.

(** ** The quick check of the examples *)

Section QuickCheckFacts.
Import Text Re Patterns Num Common Shapes Spec Entry V1.

Lemma newest_line_reported fs now self older line newer id speed st :
  batch fs self = older ++ line :: newer ->
  (forall l, l ∈ newer -> _parse_log_line l = Returns None) ->
  _parse_log_line line = Returns (Some (id, speed, st)) ->
  (get_current_download_status fs now self).1.1
  = Returns (Some {| app_id := id;
                     game_name :=
                       _get_app_name fs (steam_path (polled fs self)) id;
                     speed_mbps := speed;
                     dl_status := st;
                     timestamp := now |}).
Proof.
  unfold get_current_download_status, polled, batch.
  destruct (_read_new_log_entries fs self) as [[entries self'] printed].
  cbn [fst snd]. intros -> Hnewer Hline.
  rewrite rev_app_distr. simpl. rewrite <- app_assoc.
  rewrite latest_parsed_skip
    by (intros l Hl; apply Hnewer; by apply elem_of_rev_lines).
  simpl. by rewrite Hline.
Qed.

Lemma polled_keeps_root fs self : steam_path (polled fs self) = steam_path self.
Proof.
  unfold polled, _read_new_log_entries.
  destruct (log_path self) as [path|]; [|done].
  destruct (negb (truthy (Some path)) || negb (path_exists fs path)); [done|].
  by destruct (read_file fs path).
Qed.

(** X17.  [example_quick_check] reports nothing when Steam is not found;
    with Steam found and the log readable it reads the log from its first
    byte and reports the newest line of the whole log that parses, under
    the name that [_get_app_name] gives its identifier. *)
Theorem quick_check_reports_newest_line reg fs now :
  ((_find_steam_path reg fs).1 = None ->
     example_quick_check reg fs now = Returns None)
  /\ (forall root content older line newer id speed st,
        (_find_steam_path reg fs).1 = Some root ->
        path_exists fs (path_join (path_join root (txt "logs"))
                                  (txt "content_log.txt")) = true ->
        read_file fs (path_join (path_join root (txt "logs"))
                                (txt "content_log.txt")) = Returns content ->
        readlines content = older ++ line :: newer ->
        (forall l, l ∈ newer -> _parse_log_line l = Returns None) ->
        _parse_log_line line = Returns (Some (id, speed, st)) ->
        example_quick_check reg fs now
        = Returns (Some {| app_id := id;
                           game_name := _get_app_name fs (Some root) id;
                           speed_mbps := speed;
                           dl_status := st;
                           timestamp := now |})).
Proof.
  unfold example_quick_check.
  pose proof (init_v1_cases reg fs) as Hinit.
  assert ((_find_steam_path reg fs).1 = steam_path (__init__ reg fs).1)
    as Hsame.
  { unfold __init__. by destruct (_find_steam_path reg fs). }
  rewrite Hsame. clear Hsame.
  destruct (__init__ reg fs) as [monitor printed]. cbn [fst snd] in *.
  split.
  - intros Hnone. by rewrite Hnone.
  - intros root content older line newer id speed st Hroot Hex Hread
      Hlines Hnewer Hline.
    destruct Hinit as [Hnone|(root' & Hroot' & Ht & Hlog & Hpos)];
      [congruence|].
    assert (root' = root) as -> by congruence.
    rewrite Hroot, Ht. cbn [negb].
    destruct (polled_readable fs monitor _ content Hlog) as [_ Hbatch];
      try done.
    { rewrite Hlog. by destruct root. }
    rewrite Hpos, drop_0 in Hbatch.
    rewrite (newest_line_reported fs now monitor older line newer id speed st);
      try done; [by rewrite polled_keeps_root, Hroot|congruence].
Qed.

Lemma quick_check_witness :
  let fs := Scenario.fs_log (txt "AppID 440 at 3 MB/s" ++ [LF]
                               ++ txt "AppID 570 paused" ++ [LF]
                               ++ txt "idle" ++ [LF]) in
  example_quick_check Scenario.reg fs 1000
  = Returns (Some {| app_id := txt "570";
                     game_name :=
                       _get_app_name fs (Some Scenario.root) (txt "570");
                     speed_mbps := 0%Q;
                     dl_status := Paused;
                     timestamp := 1000%Q |}).
Proof.
  intros fs.
  apply (proj2 (quick_check_reports_newest_line Scenario.reg fs 1000)
           Scenario.root
           (txt "AppID 440 at 3 MB/s" ++ [LF]
              ++ txt "AppID 570 paused" ++ [LF] ++ txt "idle" ++ [LF])
           [txt "AppID 440 at 3 MB/s" ++ [LF]]
           (txt "AppID 570 paused" ++ [LF])
           [txt "idle" ++ [LF]] (txt "570") 0%Q Paused).
  - reflexivity.
  - reflexivity.
  - reflexivity.
  - reflexivity.
  - intros l ->%list_elem_of_singleton. reflexivity.
  - reflexivity.
Defined.
End QuickCheckFacts.

(** ** What the parser returns, on any line *)

Section ParserResultFacts.
Import Text Re Patterns Num Common Shapes Spec V1.

(** X18.  [_parse_log_line] returns on every line, and what it returns is
    one of three things.  A status whose identifier and speed are a reading
    of the line as a speed: [AppID] and a space, the digits of the
    identifier, text of the same line, a numeric value, white space or
    nothing, and the marker, the speed being the float of the value: the
    number that it writes, up to the rounding of a float.  Or, on a line
    without such a reading that holds a pause keyword, the first identifier
    token of the line with the speed 0.  Or nothing, on a line without such
    a reading that lacks a pause keyword or an identifier token.  The status is paused exactly when the line holds
    a pause keyword in some mix of cases, and no speed is negative. *)
Theorem parser_total_and_sound line :
  exists result,
    _parse_log_line line = Returns result
    /\ match result with
       | Some (id, speed, st) =>
           (st = Paused <-> pause_keyword line) /\ (0 <= speed)%Q
           /\ ((exists num, speed_reading line id num /\ reads num speed)
               \/ ((forall i n, ~ speed_reading line i n)
                   /\ first_token line id /\ speed = 0%Q))
       | None =>
           (forall i n, ~ speed_reading line i n)
           /\ (~ pause_keyword line \/ forall id, ~ identifier_token line id)
       end.
Proof.
  destruct (search speed_pattern line) as [g|] eqn:Hs.
  - destruct (search_speed_sound _ _ Hs) as (id & num & -> & Hm).
    assert (numeral num) as Hnum
      by (by destruct Hm as (? & ? & ? & ? & _ & _ & _ & Hn & _)).
    destruct (py_float_reads num Hnum) as (v & Hv & Hreads & Hnn).
    unfold _parse_log_line. rewrite Hs. cbn [group nth Nat.sub].
    rewrite Hv. cbn [obind].
    eexists. split; [done|]. split_and!; [|done|].
    { rewrite <- pause_keyword_code. by destruct (has_pause_keyword line). }
    left. exists num. split; [by apply speed_reading_match|done].
  - assert (forall i n, ~ speed_reading line i n) as Hno.
    { intros i n H%speed_reading_match.
      destruct (search_speed_complete _ _ _ H). congruence. }
    unfold _parse_log_line. rewrite Hs.
    destruct (has_pause_keyword line) eqn:Hkw.
    + apply pause_keyword_code in Hkw.
      destruct (search app_pattern line) as [g|] eqn:Ha.
      * destruct (search_app_sound _ _ Ha) as (id0 & -> & Hid0).
        destruct (search_app_first_token line id0) as (id & Ha' & Hfirst);
          [by apply token_digits_match|].
        rewrite Ha in Ha'. injection Ha' as <-.
        eexists. split; [done|]. cbn [group nth Nat.sub].
        split_and!; [done|apply Qle_refl|]. right. by split_and!.
      * eexists. split; [done|]. split; [done|]. right. intros id Hid.
        destruct (search_app_complete line id); [|congruence].
        by apply token_digits_match, identifier_token_digits.
    + eexists. split; [done|]. split; [done|]. left.
      rewrite <- pause_keyword_code. by rewrite Hkw.
Qed.
End ParserResultFacts.

(** ** The identifiers that the discovery lists *)

Section CandidateFacts.
Import Text Re Patterns Num Common Shapes Spec V2.

Lemma plus_run p s : s <> [] -> forallb p s = true -> matches (Plus p) s [].
Proof.
  intros Hne Hp. destruct s as [|c s]; [done|].
  simpl in Hp. apply andb_true_iff in Hp as [Hc Hs]. by constructor.
Qed.

(** What the pattern of the state flags matches. *)
Lemma flags_pattern_matches m g :
  matches state_flags_pattern m g <->
  exists ws v,
    m = (dquote :: txt "StateFlags" ++ [dquote]) ++ ws
          ++ dquote :: v ++ [dquote]
    /\ g = [v] /\ ws <> [] /\ forallb is_space ws = true /\ digit_run v.
Proof.
  unfold state_flags_pattern. split.
  - intros H. repeat inv_matches.
    repeat match goal with
    | H : matches (Plus _) _ _ |- _ =>
        apply plus_matches in H as (-> & ? & ?)
    end.
    eexists _, _. split_and!; try done.
  - intros (ws & v & -> & -> & Hws & Hsp & Hne & Hd).
    change [v] with ([] ++ ([] ++ ([] ++ (([] ++ [v]) ++ [])))).
    constructor; [constructor|].
    constructor; [by apply plus_run|].
    change (dquote :: v ++ [dquote]) with ([dquote] ++ v ++ [dquote]).
    constructor; [constructor|].
    constructor; [|constructor]. constructor. by apply plus_run.
Qed.

Lemma flags_entry_match content pre v :
  flags_entry content pre v <->
  exists m post,
    content = pre ++ m ++ post /\ matches state_flags_pattern m [v].
Proof.
  split.
  - intros (ws & post & -> & Hne & Hws & Hv).
    eexists _, post. split; [|apply flags_pattern_matches; exists ws, v;
      split_and!; [reflexivity|done|done| |by apply digits_run]].
    + rewrite <- !app_assoc. cbn [app]. by rewrite <- !app_assoc.
    + by apply (Forall_class _ _ ws white_class).
  - intros (m & post & -> & M).
    apply flags_pattern_matches in M as (ws & v' & -> & [= <-] & ? & ? & ?).
    exists ws, post. split_and!; [|done| |by apply digits_run].
    + rewrite <- !app_assoc. cbn [app]. by rewrite <- !app_assoc.
    + by apply (Forall_class _ _ ws white_class).
Qed.

(** The entry that stands at a place is one. *)
Lemma flags_entry_unique content pre v v' :
  flags_entry content pre v -> flags_entry content pre v' -> v = v'.
Proof.
  intros (ws & post & -> & _ & Hws & Hv) (ws' & post' & Heq & _ & Hws' & Hv').
  do 2 apply app_inv_head in Heq.
  apply (Forall_class _ _ _ white_class) in Hws, Hws'.
  apply digits_run in Hv as [_ Hv], Hv' as [_ Hv'].
  destruct (class_prefix_unique is_space ws _ ws' _ Heq) as [_ Ht]; try done.
  injection Ht as Ht.
  by destruct (class_prefix_unique is_digit v _ v' _ Ht).
Qed.

(** [re.search] with the pattern of the state flags returns the digits of
    the first entry. *)
Lemma search_flags_first content g :
  search state_flags_pattern content = Some g ->
  exists v, g = [v] /\ state_flags content v.
Proof.
  unfold search. intros Hs.
  destruct (search_span state_flags_pattern content) as [[g' rest]|] eqn:Hspan;
    [|done].
  injection Hs as ->.
  apply search_span_leftmost in Hspan as (pre & m & Hc & _ & M & Hleft).
  pose proof M as M'.
  apply flags_pattern_matches in M' as (ws & v & _ & -> & _).
  exists v. split; [done|]. exists pre. split.
  - apply flags_entry_match. by exists m, rest.
  - intros pre' v' (m' & post' & Hc' & M')%flags_entry_match.
    destruct (decide (length pre <= length pre')%nat) as [|Hlt]; [done|].
    exfalso. rewrite Hc in Hc'.
    apply app_eq_app in Hc' as [k [[-> Hk]|[-> Hk]]];
      [|rewrite length_app in Hlt; lia].
    destruct k as [|c k]; [rewrite app_nil_r in Hlt; lia|].
    apply (match_here_None _ _ _ post') in M'; [done|].
    rewrite <- (Hleft pre' (c :: k) eq_refl ltac:(done)).
    f_equal. by rewrite <- Hk.
Qed.

Lemma state_flags_search content v :
  state_flags content v -> search state_flags_pattern content = Some [v].
Proof.
  intros (pre & Hentry & Hmin).
  pose proof Hentry as (m & post & Hc & M)%flags_entry_match.
  destruct (search_complete state_flags_pattern pre m [v] post M) as [g Hg].
  rewrite <- Hc in Hg. rewrite Hg.
  destruct (search_flags_first content g Hg)
    as (v' & -> & pre' & Hentry' & Hmin').
  pose proof (Hmin _ _ Hentry') as H1. pose proof (Hmin' _ _ Hentry) as H2.
  assert (pre' = pre) as ->.
  { destruct Hentry as (? & ? & E1 & _), Hentry' as (? & ? & E2 & _).
    rewrite E1 in E2. apply app_inj_1 in E2 as [? _]; [done|lia]. }
  by rewrite (flags_entry_unique content pre v v' Hentry Hentry').
Qed.

Lemma endswith_true s p : endswith s p = true <-> exists r, s = r ++ p.
Proof.
  unfold endswith. rewrite startswith_true. split.
  - intros [r Hr]. exists (rev r).
    apply (f_equal (@rev ascii)) in Hr.
    by rewrite rev_involutive, rev_app_distr, rev_involutive in Hr.
  - intros [r ->]. exists (rev r). by rewrite rev_app_distr.
Qed.

(** The test that the scan makes of a file, in the words of the
    specification. *)
Lemma candidate_downloading fs folder file :
  candidate fs folder file = true <-> downloading_manifest fs folder file.
Proof.
  unfold candidate, downloading_manifest, is_manifest.
  rewrite !andb_true_iff, orb_true_iff, startswith_true, endswith_true.
  assert (staging_folder folder (app_id_of file)
          = folder ++ txt "\downloading\" ++ app_id_of file) as ->.
  { unfold staging_folder, path_join. by rewrite <- !app_assoc. }
  assert (flags_active fs (path_join folder file) = true
          <-> exists content value,
                read_file fs (folder ++ txt "\" ++ file) = Returns content
                /\ state_flags content value
                /\ value ∈ [txt "2"; txt "4"; txt "6"]) as ->.
  { unfold flags_active, path_join.
    destruct (read_file fs _) as [content|e]; [|naive_solver].
    split.
    - intros [_ H]%andb_true_iff.
      destruct (search state_flags_pattern content) as [g|] eqn:Hs; [|done].
      apply bool_decide_eq_true in H.
      apply search_flags_first in Hs as (v & -> & Hv).
      by exists content, v.
    - intros (? & v & [= <-] & Hv & Hin).
      rewrite (state_flags_search content v Hv).
      apply andb_true_iff. split; [|by apply bool_decide_eq_true].
      destruct Hv as (pre & (ws & post & -> & _) & _).
      apply contains_true.
      exists (pre ++ [dquote]), (dquote :: ws ++ dquote :: v ++ dquote :: post).
      rewrite <- !app_assoc. cbn [app]. by rewrite <- !app_assoc. }
  naive_solver.
Qed.

(** X19.  The identifiers that [_get_downloading_apps] lists are exactly
    those of the files named [appmanifest_*.acf], in library folders that
    exist, whose identifier has a staging directory in the folder or whose
    text holds the state flags 2, 4 or 6: the digits in quotes that follow
    the first quoted key [StateFlags] and white space. *)
Theorem discovery_lists_exactly_candidates fs self root ids x :
  steam_path self = Some root -> truthy (Some root) = true ->
  _get_downloading_apps fs self = Returns ids ->
  x ∈ ids
  <-> exists folder files file,
        folder ∈ library_folders fs root /\ path_exists fs folder = true
        /\ listdir fs folder = Returns files /\ file ∈ files
        /\ downloading_manifest fs folder file /\ x = app_id_of file.
Proof.
  intros Hp Ht H. rewrite (discovery_membership fs self root ids x Hp Ht H).
  by setoid_rewrite candidate_downloading.
Qed.

Lemma discovery_lists_candidates_witness :
  let fs := Scenario.fs_library false 104857600 999 in
  txt "440" ∈ [txt "440"]
  <-> exists folder files file,
        folder ∈ library_folders fs Scenario.root
        /\ path_exists fs folder = true
        /\ listdir fs folder = Returns files /\ file ∈ files
        /\ downloading_manifest fs folder file
        /\ txt "440" = app_id_of file.
Proof.
  intros fs.
  by apply (discovery_lists_exactly_candidates fs Scenario.dict_monitor
              Scenario.root [txt "440"] (txt "440")).
Defined.
End CandidateFacts.
